(** * Project lifecycle of the video-editing backend

    A shallow embedding of the Mongoose [Project] model (its methods
    [addTimelineEntry], [getLatestVersion], [checkEditorDeadline]) and of the
    controller actions that move a project through its workflow:
    [assignProjectToEditor] and [reviewProject] (admin controller),
    [updateProjectStatus] and [uploadEditedVersion] (editor controller) and
    [submitFeedback] (client controller).

    Conventions of the embedding:
    - a collection is a finite map from the document's [_id] to the document;
      [save] writes the in-memory document back under its [_id];
    - an [_id] is the text of an ObjectId as [toString()] gives it, in lower
      case.  The project ids of the requests are taken in that form; the
      [editorId] of an assignment is kept as it was sent and cast
      ([cast_id]) where Mongoose casts it, because the handler also compares
      the text itself;
    - dates are milliseconds since the epoch, in [Z]; a handler runs at one
      clock value [now], which stands for every [new Date()] / [Date.now()]
      it evaluates (the time that passes between two readings within one
      request is not represented);
    - an answer is its status code, [success] and [message].  The 500
      answers of the [catch] blocks are not represented, the failed Drive
      upload of a new version apart: the handlers are followed along the
      path on which every query and every [save()] succeeds;
    - a request carries the outcome of [validationResult(req)] (computed by
      the express-validator middleware of the route) as a list of messages;
    - the optional text fields of a body are [option string]; fields whose
      JavaScript truthiness is tested are kept as [JsValue];
    - e-mail notifications and the Drive access grant sit in [try]/[catch]
      blocks that only log; they leave no trace in the state and are not
      represented.  The Drive upload of an edited version can make the
      handler fail, so its outcome is an input of that handler. *)

From stdpp Require Import base option list strings gmap fin_maps pretty.
From Stdlib Require Import ZArith Lia.

Local Open Scope Z_scope.

(** ** JavaScript values and truthiness *)

Inductive JsValue : Type :=
  | JsUndefined
  | JsNull
  | JsBool (b : bool)
  | JsNumber (n : Z)
  | JsString (s : string).

Definition truthy (v : JsValue) : bool :=
  match v with
  | JsUndefined | JsNull => false
  | JsBool b => b
  | JsNumber n => negb (n =? 0)
  | JsString s => negb (bool_decide (s = ""))
  end.

(** [a || b] on values. *)
Definition js_or (a b : JsValue) : JsValue := if truthy a then a else b.

(** Truthiness of an optional text field: [undefined] and [''] are falsy. *)
Definition truthy_text (t : option string) : bool :=
  match t with
  | None => false
  | Some s => negb (bool_decide (s = ""))
  end.

(** [a || b] on optional text. *)
Definition text_or (a b : option string) : option string :=
  if truthy_text a then a else b.

(** [a || 'literal'] on optional text. *)
Definition text_or_lit (a : option string) (b : string) : string :=
  match a with
  | Some s => if bool_decide (s = "") then b else s
  | None => b
  end.

(** [a || n] on an optional number: [undefined] and [0] are falsy. *)
Definition num_or (a : option Z) (n : Z) : Z :=
  match a with
  | Some z => if z =? 0 then n else z
  | None => n
  end.

(** ** Data model (models/Project.js) *)

Definition ObjectId := string.

(** Mongoose casts the 24 hexadecimal digits of an id sent by a client to
    an ObjectId, whatever the case of the digits A to F; the text form of
    an ObjectId ([toString()], and the key it is stored under) is in lower
    case. *)
Definition hex_lower (c : Ascii.ascii) : Ascii.ascii :=
  let n := Ascii.nat_of_ascii c in
  if ((65 <=? n) && (n <=? 70))%nat then Ascii.ascii_of_nat (n + 32) else c.

Definition cast_id (raw : string) : ObjectId :=
  String.string_of_list_ascii
    (hex_lower <$> String.list_ascii_of_string raw).

Inductive Status : Type :=
  | uploaded
  | assigned
  | reassigned
  | in_progress
  | completed
  | under_review
  | approved
  | revision_requested
  | revision_in_progress
  | client_reedit
  | delivered.

#[global] Instance Status_eq_dec : EqDecision Status.
Proof. solve_decision. Defined.

Definition status_name (s : Status) : string :=
  match s with
  | uploaded => "uploaded"
  | assigned => "assigned"
  | reassigned => "reassigned"
  | in_progress => "in_progress"
  | completed => "completed"
  | under_review => "under_review"
  | approved => "approved"
  | revision_requested => "revision_requested"
  | revision_in_progress => "revision_in_progress"
  | client_reedit => "client_reedit"
  | delivered => "delivered"
  end.

Definition all_statuses : list Status :=
  [uploaded; assigned; reassigned; in_progress; completed; under_review;
   approved; revision_requested; revision_in_progress; client_reedit;
   delivered].

Module Version.
Record t : Type := mk {
  version : Z;
  filename : string;
  driveFileId : string;
  driveFileUrl : string;
  uploadDate : Z;
  notes : string;
  status : string
}.
End Version.

Module TimelineEntry.
Record t : Type := mk {
  action : string;
  user : option ObjectId;
  timestamp : Z;
  notes : string
}.
End TimelineEntry.

Module AdminComment.
Record t : Type := mk {
  comment : option string;
  date : Z;
  type : string
}.
End AdminComment.

Module Feedback.
Record t : Type := mk {
  message : string;
  timestamp : Z;
  version : Z;
  status : string;
  rating : option Z;
  satisfied : JsValue;
  reEditRequested : JsValue;
  reEditComments : option string
}.
End Feedback.

Module User.
Record t : Type := mk {
  name : string;
  email : string;
  role : string
}.
End User.

Record Project : Type := mkProject {
  publicId : string;
  status : Status;
  progress : Z;
  assignedEditor : option ObjectId;
  assignedDate : option Z;
  editorDeadlineHours : Z;
  editorDeadline : option Z;
  isEditorDeadlineExceeded : bool;
  dueDate : option string;
  adminNotes : option string;
  driveFolderId : string;
  editedVersions : list Version.t;
  timeline : list TimelineEntry.t;
  adminComments : list AdminComment.t;
  clientFeedback : list Feedback.t
}.

(** Field assignments [project.f = v] and array pushes. *)

Definition set_status (s : Status) (p : Project) : Project :=
  mkProject (publicId p) s (progress p) (assignedEditor p) (assignedDate p)
    (editorDeadlineHours p) (editorDeadline p) (isEditorDeadlineExceeded p)
    (dueDate p) (adminNotes p) (driveFolderId p) (editedVersions p)
    (timeline p) (adminComments p) (clientFeedback p).

Definition set_progress (n : Z) (p : Project) : Project :=
  mkProject (publicId p) (status p) n (assignedEditor p) (assignedDate p)
    (editorDeadlineHours p) (editorDeadline p) (isEditorDeadlineExceeded p)
    (dueDate p) (adminNotes p) (driveFolderId p) (editedVersions p)
    (timeline p) (adminComments p) (clientFeedback p).

Definition set_assignedEditor (e : ObjectId) (p : Project) : Project :=
  mkProject (publicId p) (status p) (progress p) (Some e) (assignedDate p)
    (editorDeadlineHours p) (editorDeadline p) (isEditorDeadlineExceeded p)
    (dueDate p) (adminNotes p) (driveFolderId p) (editedVersions p)
    (timeline p) (adminComments p) (clientFeedback p).

Definition set_assignedDate (d : Z) (p : Project) : Project :=
  mkProject (publicId p) (status p) (progress p) (assignedEditor p) (Some d)
    (editorDeadlineHours p) (editorDeadline p) (isEditorDeadlineExceeded p)
    (dueDate p) (adminNotes p) (driveFolderId p) (editedVersions p)
    (timeline p) (adminComments p) (clientFeedback p).

Definition set_editorDeadlineHours (h : Z) (p : Project) : Project :=
  mkProject (publicId p) (status p) (progress p) (assignedEditor p)
    (assignedDate p) h (editorDeadline p) (isEditorDeadlineExceeded p)
    (dueDate p) (adminNotes p) (driveFolderId p) (editedVersions p)
    (timeline p) (adminComments p) (clientFeedback p).

Definition set_editorDeadline (d : Z) (p : Project) : Project :=
  mkProject (publicId p) (status p) (progress p) (assignedEditor p)
    (assignedDate p) (editorDeadlineHours p) (Some d)
    (isEditorDeadlineExceeded p) (dueDate p) (adminNotes p) (driveFolderId p)
    (editedVersions p) (timeline p) (adminComments p) (clientFeedback p).

Definition set_isEditorDeadlineExceeded (b : bool) (p : Project) : Project :=
  mkProject (publicId p) (status p) (progress p) (assignedEditor p)
    (assignedDate p) (editorDeadlineHours p) (editorDeadline p) b
    (dueDate p) (adminNotes p) (driveFolderId p) (editedVersions p)
    (timeline p) (adminComments p) (clientFeedback p).

Definition set_dueDate (d : string) (p : Project) : Project :=
  mkProject (publicId p) (status p) (progress p) (assignedEditor p)
    (assignedDate p) (editorDeadlineHours p) (editorDeadline p)
    (isEditorDeadlineExceeded p) (Some d) (adminNotes p) (driveFolderId p)
    (editedVersions p) (timeline p) (adminComments p) (clientFeedback p).

Definition set_adminNotes (n : string) (p : Project) : Project :=
  mkProject (publicId p) (status p) (progress p) (assignedEditor p)
    (assignedDate p) (editorDeadlineHours p) (editorDeadline p)
    (isEditorDeadlineExceeded p) (dueDate p) (Some n) (driveFolderId p)
    (editedVersions p) (timeline p) (adminComments p) (clientFeedback p).

Definition push_editedVersions (v : Version.t) (p : Project) : Project :=
  mkProject (publicId p) (status p) (progress p) (assignedEditor p)
    (assignedDate p) (editorDeadlineHours p) (editorDeadline p)
    (isEditorDeadlineExceeded p) (dueDate p) (adminNotes p) (driveFolderId p)
    (editedVersions p ++ [v]) (timeline p) (adminComments p)
    (clientFeedback p).

Definition push_timeline (e : TimelineEntry.t) (p : Project) : Project :=
  mkProject (publicId p) (status p) (progress p) (assignedEditor p)
    (assignedDate p) (editorDeadlineHours p) (editorDeadline p)
    (isEditorDeadlineExceeded p) (dueDate p) (adminNotes p) (driveFolderId p)
    (editedVersions p) (timeline p ++ [e]) (adminComments p)
    (clientFeedback p).

Definition push_adminComments (c : AdminComment.t) (p : Project) : Project :=
  mkProject (publicId p) (status p) (progress p) (assignedEditor p)
    (assignedDate p) (editorDeadlineHours p) (editorDeadline p)
    (isEditorDeadlineExceeded p) (dueDate p) (adminNotes p) (driveFolderId p)
    (editedVersions p) (timeline p) (adminComments p ++ [c])
    (clientFeedback p).

Definition push_clientFeedback (f : Feedback.t) (p : Project) : Project :=
  mkProject (publicId p) (status p) (progress p) (assignedEditor p)
    (assignedDate p) (editorDeadlineHours p) (editorDeadline p)
    (isEditorDeadlineExceeded p) (dueDate p) (adminNotes p) (driveFolderId p)
    (editedVersions p) (timeline p) (adminComments p)
    (clientFeedback p ++ [f]).

(** ** The store *)

Record Db : Type := mkDb {
  projects : gmap ObjectId Project;
  users : gmap ObjectId User.t
}.

Definition with_projects (ps : gmap ObjectId Project) (db : Db) : Db :=
  mkDb ps (users db).

(** [doc.save()]: the in-memory document replaces the stored one. *)
Definition save (id : ObjectId) (doc : Project)
    (ps : gmap ObjectId Project) : gmap ObjectId Project :=
  <[id := doc]> ps.

(** [Project.findOne({ _id, assignedEditor })]. *)
Definition findAssigned (projectId editorId : ObjectId)
    (ps : gmap ObjectId Project) : option Project :=
  match ps !! projectId with
  | Some p =>
      if bool_decide (assignedEditor p = Some editorId) then Some p else None
  | None => None
  end.

(** [Project.findOne({ publicId })]: the first stored document with that
    public id, together with its [_id]. *)
Definition findByPublicId (pid : string)
    (ps : gmap ObjectId Project) : option (ObjectId * Project) :=
  head (filter (λ kp, publicId kp.2 = pid) (map_to_list ps)).

(** ** Model methods *)

(** [projectSchema.methods.addTimelineEntry]: push, then save.  [notes]
    defaults to [''] when [undefined]; every caller leaves [data] at its
    default [{}], so the entry carries no [data] field here. *)
Definition addTimelineEntry (now : Z) (id : ObjectId) (action : string)
    (user : option ObjectId) (notes : option string)
    (doc : Project) (ps : gmap ObjectId Project)
    : Project * gmap ObjectId Project :=
  let doc' :=
    push_timeline (TimelineEntry.mk action user now (default "" notes)) doc in
  (doc', save id doc' ps).

(** The callback of the [reduce] in [getLatestVersion]:
    [(latest, current) => current.version > latest.version ? current : latest] *)
Definition keep_greater (latest current : Version.t) : Version.t :=
  if Version.version current >? Version.version latest
  then current else latest.

(** [projectSchema.methods.getLatestVersion]: [null] on an empty array,
    otherwise a [reduce] without an initial value. *)
Definition getLatestVersion (p : Project) : option Version.t :=
  match editedVersions p with
  | [] => None
  | first :: rest => Some (fold_left keep_greater rest first)
  end.

(** [projectSchema.methods.checkEditorDeadline]: the returned flag and the
    document after the call (saved when the latch is set). *)
Definition checkEditorDeadline (now : Z) (id : ObjectId)
    (doc : Project) (ps : gmap ObjectId Project)
    : bool * Project * gmap ObjectId Project :=
  match editorDeadline doc, assignedEditor doc with
  | Some deadline, Some _ =>
      let isExceeded :=
        (now >? deadline)
        && bool_decide (status doc ∈ [assigned; reassigned; in_progress]) in
      if isExceeded && negb (isEditorDeadlineExceeded doc) then
        let doc' := set_isEditorDeadlineExceeded true doc in
        (isExceeded, doc', save id doc' ps)
      else (isExceeded, doc, ps)
  | _, _ => (false, doc, ps)
  end.

(** ** Requests and responses *)

Module Response.
Record t : Type := mk {
  code : Z;
  success : bool;
  message : string
}.
End Response.

Definition respond (code : Z) (success : bool) (message : string)
    : Response.t :=
  Response.mk code success message.

(** [!errors.isEmpty()] *)
Definition has_errors (errors : list string) : bool :=
  negb (bool_decide (errors = [])).

Module AssignReq.
Record t : Type := mk {
  errors : list string;
  user : ObjectId;
  projectId : ObjectId;
  editorId : ObjectId;
  notes : option string;
  dueDate : option string;
  comments : option string;
  isReassignment : JsValue;
  deadlineHours : option Z
}.
End AssignReq.

Module ReviewReq.
Record t : Type := mk {
  errors : list string;
  user : ObjectId;
  projectId : ObjectId;
  action : string;
  notes : option string
}.
End ReviewReq.

Module StatusReq.
Record t : Type := mk {
  errors : list string;
  user : ObjectId;
  id : ObjectId;
  status : string;
  progress : option Z;
  notes : option string
}.
End StatusReq.

Module UploadedFile.
Record t : Type := mk {
  path : string;
  originalname : string
}.
End UploadedFile.

Module DriveFile.
Record t : Type := mk {
  id : string;
  webViewLink : string
}.
End DriveFile.

Module UploadReq.
Record t : Type := mk {
  user : ObjectId;
  id : ObjectId;
  notes : option string;
  file : option UploadedFile.t
}.
End UploadReq.

Module FeedbackReq.
Record t : Type := mk {
  errors : list string;
  publicId : string;
  feedback : string;
  status : string;
  version : option Z;
  rating : option Z;
  satisfied : JsValue;
  reEditRequested : JsValue;
  reEditComments : option string
}.
End FeedbackReq.

(** ** controllers/adminController.js *)

(** [.populate('assignedEditor', 'name email')]: the referenced user, or
    [null] when the reference is unset or dangling. *)
Definition populate (ref : option ObjectId) (us : gmap ObjectId User.t)
    : option (ObjectId * User.t) :=
  match ref with
  | Some id => match us !! id with
               | Some u => Some (id, u)
               | None => None
               end
  | None => None
  end.

(** [isReassignment && previousEditor &&
     previousEditor._id.toString() !== editorId]: the text form of the
    previous editor's id against the [editorId] of the body as it was
    sent. *)
Definition isActualReassignment (isReassignment : JsValue)
    (previousEditor : option (ObjectId * User.t)) (editorId : ObjectId)
    : bool :=
  truthy isReassignment &&
  match previousEditor with
  | Some (prevId, _) => negb (bool_decide (prevId = editorId))
  | None => false
  end.

Definition assignment_action (actual : bool) (editor : User.t)
    (previousEditor : option (ObjectId * User.t)) : string :=
  if actual then
    "Project reassigned to " +:+ User.name editor +:+
    match previousEditor with
    | Some (_, prev) => " (from " +:+ User.name prev +:+ ")"
    | None => ""
    end
  else "Project assigned to " +:+ User.name editor.

Definition assignProjectToEditor (now : Z) (req : AssignReq.t) (db : Db)
    : Response.t * Db :=
  if has_errors (AssignReq.errors req) then
    (respond 400 false "Validation failed", db)
  else
    let projectId := AssignReq.projectId req in
    let editorId := AssignReq.editorId req in
    match projects db !! projectId with
    | None => (respond 404 false "Project not found", db)
    | Some project =>
        match users db !! cast_id editorId with
        | None => (respond 404 false "Editor not found", db)
        | Some editor =>
            if negb (bool_decide (User.role editor = "editor")) then
              (respond 404 false "Editor not found", db)
            else
              let previousEditor :=
                populate (assignedEditor project) (users db) in
              let actual :=
                isActualReassignment (AssignReq.isReassignment req)
                  previousEditor editorId in
              let project := set_assignedEditor (cast_id editorId) project in
              let project := set_assignedDate now project in
              let project :=
                set_status (if actual then reassigned else assigned)
                  project in
              let project :=
                match AssignReq.dueDate req with
                | Some d =>
                    if bool_decide (d = "") then project
                    else set_dueDate d project
                | None => project
                end in
              let project :=
                match AssignReq.notes req with
                | Some n =>
                    if bool_decide (n = "") then project
                    else set_adminNotes n project
                | None => project
                end in
              let hours := num_or (AssignReq.deadlineHours req) 24 in
              let project := set_editorDeadlineHours hours project in
              let project :=
                set_editorDeadline (now + hours * 60 * 60 * 1000) project in
              let project := set_isEditorDeadlineExceeded false project in
              let project :=
                if truthy_text (AssignReq.comments req) then
                  push_adminComments
                    (AdminComment.mk (AssignReq.comments req) now
                       (if actual then "reassignment" else "assignment"))
                    project
                else project in
              let ps := save projectId project (projects db) in
              let '(project, ps) :=
                addTimelineEntry now projectId
                  (assignment_action actual editor previousEditor)
                  (Some (AssignReq.user req))
                  (text_or (AssignReq.comments req) (AssignReq.notes req))
                  project ps in
              (respond 200 true "Project assigned successfully",
               with_projects ps db)
        end
    end.

Definition review_message (action : string) : string :=
  "Project " +:+
  (if bool_decide (action = "approve") then "approved"
   else if bool_decide (action = "request_revision") then "revision requested"
   else "marked for reassignment").

Definition reviewProject (now : Z) (req : ReviewReq.t) (db : Db)
    : Response.t * Db :=
  if has_errors (ReviewReq.errors req) then
    (respond 400 false "Validation failed", db)
  else
    let projectId := ReviewReq.projectId req in
    let action := ReviewReq.action req in
    let notes := ReviewReq.notes req in
    match projects db !! projectId with
    | None => (respond 404 false "Project not found", db)
    | Some project =>
        if negb (bool_decide (status project = completed)) then
          (respond 400 false "Project is not ready for review", db)
        else
          let '(project, ps) :=
            if bool_decide (action = "approve") then
              let project := set_status approved project in
              let project :=
                push_adminComments
                  (AdminComment.mk
                     (Some (text_or_lit notes "Project approved by admin"))
                     now "review")
                  project in
              addTimelineEntry now projectId
                "Project approved by admin - Ready for client download"
                (Some (ReviewReq.user req)) notes project (projects db)
            else if bool_decide (action = "request_revision") then
              let project := set_status revision_requested project in
              let project :=
                push_adminComments (AdminComment.mk notes now "review")
                  project in
              addTimelineEntry now projectId
                "Admin requested revisions from editor"
                (Some (ReviewReq.user req)) notes project (projects db)
            else if bool_decide (action = "reassign") then
              let project :=
                push_adminComments
                  (AdminComment.mk
                     (Some (text_or_lit notes
                        "Project marked for reassignment during review"))
                     now "review")
                  project in
              addTimelineEntry now projectId
                "Admin marked project for reassignment during review"
                (Some (ReviewReq.user req)) notes project (projects db)
            else (project, projects db) in
          let ps := save projectId project ps in
          (respond 200 true (review_message action), with_projects ps db)
    end.

(** ** controllers/editorController.js *)

Definition validStatuses : list Status :=
  [assigned; in_progress; completed; revision_in_progress].

(** [validStatuses.includes(status)], returning the matching status so
    that it can be stored in the typed [status] field. *)
Definition parse_valid_status (s : string) : option Status :=
  find (λ v, bool_decide (status_name v = s)) validStatuses.

Definition updateProjectStatus (now : Z) (req : StatusReq.t) (db : Db)
    : Response.t * Db :=
  if has_errors (StatusReq.errors req) then
    (respond 400 false "Validation failed", db)
  else
    let projectId := StatusReq.id req in
    let editorId := StatusReq.user req in
    match findAssigned projectId editorId (projects db) with
    | None => (respond 404 false "Project not found or not assigned to you", db)
    | Some project =>
        match parse_valid_status (StatusReq.status req) with
        | None => (respond 400 false "Invalid status", db)
        | Some newStatus =>
            let oldStatus := status project in
            let project := set_status newStatus project in
            let project :=
              match StatusReq.progress req with
              | Some n => set_progress (Z.max 0 (Z.min 100 n)) project
              | None => project
              end in
            let '(project, ps) :=
              addTimelineEntry now projectId
                ("Status updated from " +:+ status_name oldStatus +:+
                 " to " +:+ status_name newStatus)
                (Some editorId)
                (Some (text_or_lit (StatusReq.notes req)
                         ("Progress: " +:+ pretty (progress project) +:+ "%")))
                project (projects db) in
            (respond 200 true "Project status updated successfully",
             with_projects ps db)
        end
    end.

(** [driveUpload] is the outcome of
    [googleDriveService.uploadEditedVersion]: [None] when the promise is
    rejected, otherwise the uploaded file. *)
Definition uploadEditedVersion (now : Z) (driveUpload : option DriveFile.t)
    (req : UploadReq.t) (db : Db) : Response.t * Db :=
  match UploadReq.file req with
  | None => (respond 400 false "No video file uploaded", db)
  | Some file =>
      let projectId := UploadReq.id req in
      let editorId := UploadReq.user req in
      match findAssigned projectId editorId (projects db) with
      | None =>
          (respond 404 false "Project not found or not assigned to you", db)
      | Some project =>
          let newVersionNumber :=
            match getLatestVersion project with
            | Some latestVersion => Version.version latestVersion + 1
            | None => 1
            end in
          match driveUpload with
          | None => (respond 500 false "Error uploading to Google Drive", db)
          | Some uploadedFile =>
              let project :=
                push_editedVersions
                  (Version.mk newVersionNumber
                     (UploadedFile.originalname file)
                     (DriveFile.id uploadedFile)
                     (DriveFile.webViewLink uploadedFile)
                     now
                     (text_or_lit (UploadReq.notes req) "")
                     "pending")
                  project in
              let project := set_status completed project in
              let project := set_progress 100 project in
              let '(project, ps) :=
                addTimelineEntry now projectId
                  ("Uploaded edited version v" +:+ pretty newVersionNumber)
                  (Some editorId) (UploadReq.notes req)
                  project (projects db) in
              (respond 200 true "Edited version uploaded successfully",
               with_projects ps db)
          end
      end
  end.

(** ** controllers/clientController.js *)

Definition feedback_message (status : string) : string :=
  if bool_decide (status = "approved")
  then "Thank you for your approval! Project completed."
  else "Feedback submitted successfully. We will review and get back to you.".

Definition submitFeedback (now : Z) (req : FeedbackReq.t) (db : Db)
    : Response.t * Db :=
  if has_errors (FeedbackReq.errors req) then
    (respond 400 false "Validation failed", db)
  else
    let feedback := FeedbackReq.feedback req in
    let fbStatus := FeedbackReq.status req in
    let satisfied := FeedbackReq.satisfied req in
    let reEditRequested := FeedbackReq.reEditRequested req in
    let reEditComments := FeedbackReq.reEditComments req in
    match findByPublicId (FeedbackReq.publicId req) (projects db) with
    | None => (respond 404 false "Project not found", db)
    | Some (projectId, project) =>
        if negb (bool_decide (status project ∈ [approved; completed]))
        then (respond 400 false "Project is not ready for feedback", db)
        else
          let feedbackData :=
            Feedback.mk feedback now
              (num_or (FeedbackReq.version req)
                 (num_or (Version.version <$> getLatestVersion project) 1))
              fbStatus (FeedbackReq.rating req) satisfied
              (js_or reEditRequested (JsBool false)) reEditComments in
          let project := push_clientFeedback feedbackData project in
          let '(project, ps) :=
            if bool_decide (fbStatus = "approved") && truthy satisfied then
              let project := set_status delivered project in
              addTimelineEntry now projectId "Client approved the project"
                None (Some feedback) project (projects db)
            else if bool_decide (fbStatus = "revision_requested")
                    || negb (truthy satisfied) then
              if truthy reEditRequested then
                let project := set_status client_reedit project in
                addTimelineEntry now projectId "Client requested re-edit"
                  None (Some (text_or_lit reEditComments feedback))
                  project (projects db)
              else
                let project := set_status revision_requested project in
                addTimelineEntry now projectId "Client requested revisions"
                  None (Some feedback) project (projects db)
            else (project, projects db) in
          let ps := save projectId project ps in
          (respond 200 true (feedback_message fbStatus), with_projects ps db)
    end.

(** ** The workflow as one transition function *)

(** The five operations that move a project, each with its request. *)
Inductive Trigger : Type :=
  | AssignEditor (req : AssignReq.t)
  | EditorStatusUpdate (req : StatusReq.t)
  | UploadVersion (req : UploadReq.t)
  | AdminReview (req : ReviewReq.t)
  | ClientFeedback (req : FeedbackReq.t).

Definition apply_trigger (now : Z) (driveUpload : option DriveFile.t)
    (t : Trigger) (db : Db) : Response.t * Db :=
  match t with
  | AssignEditor req => assignProjectToEditor now req db
  | EditorStatusUpdate req => updateProjectStatus now req db
  | UploadVersion req => uploadEditedVersion now driveUpload req db
  | AdminReview req => reviewProject now req db
  | ClientFeedback req => submitFeedback now req db
  end.

(** The project a trigger addresses, as its handler looks it up. *)
Definition trigger_project (t : Trigger) (db : Db)
    : option (ObjectId * Project) :=
  match t with
  | AssignEditor req =>
      pair (AssignReq.projectId req) <$>
        projects db !! AssignReq.projectId req
  | EditorStatusUpdate req =>
      pair (StatusReq.id req) <$>
        findAssigned (StatusReq.id req) (StatusReq.user req) (projects db)
  | UploadVersion req =>
      pair (UploadReq.id req) <$>
        findAssigned (UploadReq.id req) (UploadReq.user req) (projects db)
  | AdminReview req =>
      pair (ReviewReq.projectId req) <$>
        projects db !! ReviewReq.projectId req
  | ClientFeedback req =>
      findByPublicId (FeedbackReq.publicId req) (projects db)
  end.

(** What holds of a request that got past the route and the collaborators:
    no validation error (for review and feedback the route's [isIn] lists
    on [action] and [status]), an existing editor for an assignment, a file
    and a successful Drive upload for a new version. *)
Definition boundary_ok (driveUpload : option DriveFile.t) (t : Trigger)
    (db : Db) : bool :=
  match t with
  | AssignEditor req =>
      bool_decide (AssignReq.errors req = []) &&
      match users db !! cast_id (AssignReq.editorId req) with
      | Some editor => bool_decide (User.role editor = "editor")
      | None => false
      end
  | EditorStatusUpdate req => bool_decide (StatusReq.errors req = [])
  | UploadVersion req =>
      match UploadReq.file req, driveUpload with
      | Some _, Some _ => true
      | _, _ => false
      end
  | AdminReview req =>
      bool_decide (ReviewReq.errors req = []) &&
      bool_decide
        (ReviewReq.action req ∈ ["approve"; "request_revision"; "reassign"])
  | ClientFeedback req =>
      bool_decide (FeedbackReq.errors req = []) &&
      bool_decide (FeedbackReq.status req ∈ ["approved"; "revision_requested"])
  end.

(** The guard each handler applies itself before it touches the project. *)
Definition handler_accepts (source : Status) (t : Trigger) : bool :=
  match t with
  | AssignEditor _ => true
  | EditorStatusUpdate req =>
      bool_decide (is_Some (parse_valid_status (StatusReq.status req)))
  | UploadVersion _ => true
  | AdminReview _ => bool_decide (source = completed)
  | ClientFeedback _ => bool_decide (source ∈ [approved; completed])
  end.

(** ** What a request writes

    For each handler, the projects collection as it stands after each
    [save()] of the request, in the order of the calls
    ([addTimelineEntry] ends in one [save()]).  A request that is answered
    before its first [save()] writes nothing. *)

(** [await project.save()] (after the fields are set), then
    [await project.addTimelineEntry(...)]. *)
Definition assignProjectToEditor_writes (now : Z) (req : AssignReq.t)
    (db : Db) : list (gmap ObjectId Project) :=
  if has_errors (AssignReq.errors req) then []
  else
    let projectId := AssignReq.projectId req in
    let editorId := AssignReq.editorId req in
    match projects db !! projectId with
    | None => []
    | Some project =>
        match users db !! cast_id editorId with
        | None => []
        | Some editor =>
            if negb (bool_decide (User.role editor = "editor")) then []
            else
              let previousEditor :=
                populate (assignedEditor project) (users db) in
              let actual :=
                isActualReassignment (AssignReq.isReassignment req)
                  previousEditor editorId in
              let project := set_assignedEditor (cast_id editorId) project in
              let project := set_assignedDate now project in
              let project :=
                set_status (if actual then reassigned else assigned)
                  project in
              let project :=
                match AssignReq.dueDate req with
                | Some d =>
                    if bool_decide (d = "") then project
                    else set_dueDate d project
                | None => project
                end in
              let project :=
                match AssignReq.notes req with
                | Some n =>
                    if bool_decide (n = "") then project
                    else set_adminNotes n project
                | None => project
                end in
              let hours := num_or (AssignReq.deadlineHours req) 24 in
              let project := set_editorDeadlineHours hours project in
              let project :=
                set_editorDeadline (now + hours * 60 * 60 * 1000) project in
              let project := set_isEditorDeadlineExceeded false project in
              let project :=
                if truthy_text (AssignReq.comments req) then
                  push_adminComments
                    (AdminComment.mk (AssignReq.comments req) now
                       (if actual then "reassignment" else "assignment"))
                    project
                else project in
              let saved := save projectId project (projects db) in
              let '(_, logged) :=
                addTimelineEntry now projectId
                  (assignment_action actual editor previousEditor)
                  (Some (AssignReq.user req))
                  (text_or (AssignReq.comments req) (AssignReq.notes req))
                  project saved in
              [saved; logged]
        end
    end.

(** [await project.addTimelineEntry(...)] in the branch of the action,
    then [await project.save()]. *)
Definition reviewProject_writes (now : Z) (req : ReviewReq.t) (db : Db)
    : list (gmap ObjectId Project) :=
  if has_errors (ReviewReq.errors req) then []
  else
    let projectId := ReviewReq.projectId req in
    let action := ReviewReq.action req in
    let notes := ReviewReq.notes req in
    match projects db !! projectId with
    | None => []
    | Some project =>
        if negb (bool_decide (status project = completed)) then []
        else
          let '(project, ps, logged) :=
            if bool_decide (action = "approve") then
              let project := set_status approved project in
              let project :=
                push_adminComments
                  (AdminComment.mk
                     (Some (text_or_lit notes "Project approved by admin"))
                     now "review")
                  project in
              let '(project, ps) :=
                addTimelineEntry now projectId
                  "Project approved by admin - Ready for client download"
                  (Some (ReviewReq.user req)) notes project (projects db) in
              (project, ps, [ps])
            else if bool_decide (action = "request_revision") then
              let project := set_status revision_requested project in
              let project :=
                push_adminComments (AdminComment.mk notes now "review")
                  project in
              let '(project, ps) :=
                addTimelineEntry now projectId
                  "Admin requested revisions from editor"
                  (Some (ReviewReq.user req)) notes project (projects db) in
              (project, ps, [ps])
            else if bool_decide (action = "reassign") then
              let project :=
                push_adminComments
                  (AdminComment.mk
                     (Some (text_or_lit notes
                        "Project marked for reassignment during review"))
                     now "review")
                  project in
              let '(project, ps) :=
                addTimelineEntry now projectId
                  "Admin marked project for reassignment during review"
                  (Some (ReviewReq.user req)) notes project (projects db) in
              (project, ps, [ps])
            else (project, projects db, []) in
          logged ++ [save projectId project ps]
    end.

(** One [await project.addTimelineEntry(...)]. *)
Definition updateProjectStatus_writes (now : Z) (req : StatusReq.t)
    (db : Db) : list (gmap ObjectId Project) :=
  if has_errors (StatusReq.errors req) then []
  else
    let projectId := StatusReq.id req in
    let editorId := StatusReq.user req in
    match findAssigned projectId editorId (projects db) with
    | None => []
    | Some project =>
        match parse_valid_status (StatusReq.status req) with
        | None => []
        | Some newStatus =>
            let oldStatus := status project in
            let project := set_status newStatus project in
            let project :=
              match StatusReq.progress req with
              | Some n => set_progress (Z.max 0 (Z.min 100 n)) project
              | None => project
              end in
            let '(_, logged) :=
              addTimelineEntry now projectId
                ("Status updated from " +:+ status_name oldStatus +:+
                 " to " +:+ status_name newStatus)
                (Some editorId)
                (Some (text_or_lit (StatusReq.notes req)
                         ("Progress: " +:+ pretty (progress project) +:+ "%")))
                project (projects db) in
            [logged]
        end
    end.

(** One [await project.addTimelineEntry(...)], after the Drive upload. *)
Definition uploadEditedVersion_writes (now : Z)
    (driveUpload : option DriveFile.t) (req : UploadReq.t) (db : Db)
    : list (gmap ObjectId Project) :=
  match UploadReq.file req with
  | None => []
  | Some file =>
      let projectId := UploadReq.id req in
      let editorId := UploadReq.user req in
      match findAssigned projectId editorId (projects db) with
      | None => []
      | Some project =>
          let newVersionNumber :=
            match getLatestVersion project with
            | Some latestVersion => Version.version latestVersion + 1
            | None => 1
            end in
          match driveUpload with
          | None => []
          | Some uploadedFile =>
              let project :=
                push_editedVersions
                  (Version.mk newVersionNumber
                     (UploadedFile.originalname file)
                     (DriveFile.id uploadedFile)
                     (DriveFile.webViewLink uploadedFile)
                     now
                     (text_or_lit (UploadReq.notes req) "")
                     "pending")
                  project in
              let project := set_status completed project in
              let project := set_progress 100 project in
              let '(_, logged) :=
                addTimelineEntry now projectId
                  ("Uploaded edited version v" +:+ pretty newVersionNumber)
                  (Some editorId) (UploadReq.notes req)
                  project (projects db) in
              [logged]
          end
      end
  end.

(** [await project.addTimelineEntry(...)] in the branch taken, then
    [await project.save()]. *)
Definition submitFeedback_writes (now : Z) (req : FeedbackReq.t) (db : Db)
    : list (gmap ObjectId Project) :=
  if has_errors (FeedbackReq.errors req) then []
  else
    let feedback := FeedbackReq.feedback req in
    let fbStatus := FeedbackReq.status req in
    let satisfied := FeedbackReq.satisfied req in
    let reEditRequested := FeedbackReq.reEditRequested req in
    let reEditComments := FeedbackReq.reEditComments req in
    match findByPublicId (FeedbackReq.publicId req) (projects db) with
    | None => []
    | Some (projectId, project) =>
        if negb (bool_decide (status project ∈ [approved; completed]))
        then []
        else
          let feedbackData :=
            Feedback.mk feedback now
              (num_or (FeedbackReq.version req)
                 (num_or (Version.version <$> getLatestVersion project) 1))
              fbStatus (FeedbackReq.rating req) satisfied
              (js_or reEditRequested (JsBool false)) reEditComments in
          let project := push_clientFeedback feedbackData project in
          let '(project, ps, logged) :=
            if bool_decide (fbStatus = "approved") && truthy satisfied then
              let project := set_status delivered project in
              let '(project, ps) :=
                addTimelineEntry now projectId "Client approved the project"
                  None (Some feedback) project (projects db) in
              (project, ps, [ps])
            else if bool_decide (fbStatus = "revision_requested")
                    || negb (truthy satisfied) then
              if truthy reEditRequested then
                let project := set_status client_reedit project in
                let '(project, ps) :=
                  addTimelineEntry now projectId "Client requested re-edit"
                    None (Some (text_or_lit reEditComments feedback))
                    project (projects db) in
                (project, ps, [ps])
              else
                let project := set_status revision_requested project in
                let '(project, ps) :=
                  addTimelineEntry now projectId "Client requested revisions"
                    None (Some feedback) project (projects db) in
                (project, ps, [ps])
            else (project, projects db, []) in
          logged ++ [save projectId project ps]
    end.

Definition trigger_writes (now : Z) (driveUpload : option DriveFile.t)
    (t : Trigger) (db : Db) : list (gmap ObjectId Project) :=
  match t with
  | AssignEditor req => assignProjectToEditor_writes now req db
  | EditorStatusUpdate req => updateProjectStatus_writes now req db
  | UploadVersion req => uploadEditedVersion_writes now driveUpload req db
  | AdminReview req => reviewProject_writes now req db
  | ClientFeedback req => submitFeedback_writes now req db
  end.

(** ** Statements of the specification, in its own words *)

(** The transition table of the specification: which triggers it lists
    as legal from a source state. *)
Definition table_valid (source : Status) (t : Trigger) : bool :=
  match t with
  | AssignEditor _ => true
  | EditorStatusUpdate req =>
      bool_decide
        (source ∈ [assigned; reassigned; in_progress; revision_in_progress])
      && bool_decide
           (StatusReq.status req ∈
              ["assigned"; "in_progress"; "completed"; "revision_in_progress"])
  | UploadVersion _ => true
  | AdminReview req =>
      bool_decide (source = completed) &&
      bool_decide
        (ReviewReq.action req ∈ ["approve"; "request_revision"; "reassign"])
  | ClientFeedback req =>
      bool_decide (source ∈ [approved; completed]) &&
      ((bool_decide (FeedbackReq.status req = "approved")
        && truthy (FeedbackReq.satisfied req))
       || bool_decide (FeedbackReq.status req = "revision_requested"))
  end.

(** "For all invalid (sourceState, trigger) pairs, state is unchanged and
    no TimelineEntry is added." *)
Definition spec_invalid_pairs_rejected : Prop :=
  ∀ now driveUpload t db id p,
    boundary_ok driveUpload t db = true →
    trigger_project t db = Some (id, p) →
    table_valid (status p) t = false →
    (apply_trigger now driveUpload t db).2 = db.

(** The "Target" column of the transition table, row by row. *)
Definition table_target (source : Status) (t : Trigger) (target : Status)
    : bool :=
  match t with
  | AssignEditor _ => bool_decide (target ∈ [assigned; reassigned])
  | EditorStatusUpdate req =>
      bool_decide (status_name target = StatusReq.status req)
  | UploadVersion _ => bool_decide (target = completed)
  | AdminReview req =>
      if bool_decide (ReviewReq.action req = "approve")
      then bool_decide (target = approved)
      else if bool_decide (ReviewReq.action req = "request_revision")
      then bool_decide (target = revision_requested)
      else bool_decide (target = source)
  | ClientFeedback req =>
      if bool_decide (FeedbackReq.status req = "approved")
      then bool_decide (target = delivered)
      else if truthy (FeedbackReq.reEditRequested req)
      then bool_decide (target = client_reedit)
      else bool_decide (target = revision_requested)
  end.

(** "Every status change appends exactly one TimelineEntry in the same
    logical operation": whatever a valid pair persists with a changed
    status holds the one new entry as well. *)
Definition spec_entry_with_status_change : Prop :=
  ∀ now driveUpload t db id p,
    boundary_ok driveUpload t db = true →
    trigger_project t db = Some (id, p) →
    table_valid (status p) t = true →
    ∀ w q, w ∈ trigger_writes now driveUpload t db →
      w !! id = Some q →
      status q ≠ status p →
      ∃ e, timeline q = timeline p ++ [e].

(** "The update is accepted only when the project's current status is one
    of assigned, reassigned, in_progress, revision_in_progress and the
    requested target is one of assigned, in_progress, completed,
    revision_in_progress." *)
Definition spec_editor_update_guard : Prop :=
  ∀ now req db p,
    StatusReq.errors req = [] →
    findAssigned (StatusReq.id req) (StatusReq.user req) (projects db)
      = Some p →
    Response.success (updateProjectStatus now req db).1 = true →
    status p ∈ [assigned; reassigned; in_progress; revision_in_progress] ∧
    StatusReq.status req ∈
      ["assigned"; "in_progress"; "completed"; "revision_in_progress"].

(** "max(existing numbers, default 0)": the greatest element, and the
    default only for an empty list. *)
Definition max_default (d : Z) (l : list Z) : Z :=
  match l with
  | [] => d
  | x :: rest => foldr Z.max x rest
  end.

(** "number = max(existing numbers, default 0) + 1" *)
Definition spec_next_version_number (vs : list Version.t) : Z :=
  max_default 0 (Version.version <$> vs) + 1.

(** "checkExceeded: true iff now > editorDeadline and status in
    assigned, reassigned, in_progress", for a project with a deadline. *)
Definition spec_checkExceeded_iff : Prop :=
  ∀ now id p ps d,
    editorDeadline p = Some d →
    (checkEditorDeadline now id p ps).1.1 = true ↔
    now > d ∧ status p ∈ [assigned; reassigned; in_progress].

(** "Subsequent calls remain true even if status later changes." *)
Definition spec_checkExceeded_stays_true : Prop :=
  ∀ now now' id p ps newStatus,
    now ≤ now' →
    (checkEditorDeadline now id p ps).1.1 = true →
    (checkEditorDeadline now' id
       (set_status newStatus (checkEditorDeadline now id p ps).1.2)
       (checkEditorDeadline now id p ps).2).1.1 = true.

(** ** A small store used in the examples *)

Definition sample_users : gmap ObjectId User.t :=
  {[ "e1" := User.mk "Asha" "asha@example.org" "editor";
     "e2" := User.mk "Bram" "bram@example.org" "editor";
     "a1" := User.mk "Root" "root@example.org" "admin" ]}.

(** A project assigned to editor e1 at time 0 with a 24 hour budget. *)
Definition sample_project (st : Status) (vs : list Version.t) : Project :=
  mkProject "CE1" st 40 (Some "e1") (Some 0) 24 (Some 86400000) false
    None None "folder1" vs [] [] [].

Definition sample_db (st : Status) (vs : list Version.t) : Db :=
  mkDb {[ "p1" := sample_project st vs ]} sample_users.

Definition sample_version (n : Z) : Version.t :=
  Version.mk n "cut.mp4" "file" "https://drive.example/file" 0 "" "pending".

Definition sample_feedback (st : string) (satisfied reEdit : JsValue)
    : FeedbackReq.t :=
  FeedbackReq.mk [] "CE1" "Looks fine to me" st None None satisfied reEdit
    None.

Definition sample_review (action : string) : ReviewReq.t :=
  ReviewReq.mk [] "a1" "p1" action (Some "checked").

Definition sample_status_update (st : string) : StatusReq.t :=
  StatusReq.mk [] "e1" "p1" st (Some 150) None.

Definition sample_upload : UploadReq.t :=
  UploadReq.mk "e1" "p1" None (Some (UploadedFile.mk "/tmp/u1" "cut.mp4")).

Definition sample_drive_file : DriveFile.t :=
  DriveFile.mk "drv1" "https://drive.example/drv1".

Definition sample_assign (editor : ObjectId) (flag : JsValue) : AssignReq.t :=
  AssignReq.mk [] "a1" "p1" editor None None (Some "please take over") flag
    (Some 48).

(** A document that has a deadline but no editor reference. *)
Definition unassigned_project : Project :=
  mkProject "CE2" assigned 0 None None 24 (Some 5) false
    None None "folder2" [] [] [] [].

(** A store keyed, as MongoDB keys it, by the 24 hexadecimal digits of an
    ObjectId: one editor, and one project that is assigned to that
    editor. *)
Definition hex_editor_id : ObjectId := "64b7f0c2a1d3e4f5a6b7c8d9".

Definition hex_project_id : ObjectId := "64b7f0c2a1d3e4f5a6b7c8e0".

Definition hex_db : Db :=
  mkDb
    {[ hex_project_id :=
         mkProject "CE7" completed 100 (Some hex_editor_id) (Some 0) 24
           (Some 86400000) false None None "folder7" [] [] [] [] ]}
    {[ hex_editor_id := User.mk "Asha" "asha@example.org" "editor" ]}.

(** The assignment of [hex_project_id] to the editor whose id is sent as
    [editorId], flagged as a reassignment. *)
Definition hex_assign (editorId : string) : AssignReq.t :=
  AssignReq.mk [] "a1" hex_project_id editorId None None None (JsBool true)
    None.

(** Two projects with different public ids. *)
Definition two_project_db : Db :=
  mkDb {[ "p1" := sample_project in_progress [];
          "p9" := unassigned_project ]} sample_users.

(** ** Further model methods and read-only actions *)


Module DeadlineInfo.
Record t : Type := mk {
  deadline : Z;
  hoursLeft : Z;
  isExceeded : bool;
  totalHours : Z
}.
End DeadlineInfo.

(** [Math.ceil(a / b)] for integers [a] and [b > 0].  The quotient of two
    dates in milliseconds by 3600000 is computed exactly here; the
    JavaScript double agrees with it for every difference of two valid
    [Date] values below 2^53 ms. *)
Definition ceil_div (a b : Z) : Z := - ((- a) / b).

(** [projectSchema.methods.getEditorDeadlineInfo] *)
Definition getEditorDeadlineInfo (now : Z) (doc : Project)
    : option DeadlineInfo.t :=
  match editorDeadline doc with
  | None => None
  | Some deadline =>
      let timeLeft := deadline - now in
      let hoursLeft := ceil_div timeLeft (1000 * 60 * 60) in
      Some (DeadlineInfo.mk deadline (Z.max 0 hoursLeft) (timeLeft <=? 0)
              (editorDeadlineHours doc))
  end.

(** [String.prototype.includes]: [needle] occurs somewhere in [hay]. *)
Fixpoint str_includes (hay needle : string) : bool :=
  String.prefix needle hay ||
  match hay with
  | EmptyString => false
  | String _ rest => str_includes rest needle
  end.

Definition clientRelevantActions : list string :=
  [ "Project created and media uploaded";
    "Project assigned to editor";
    "Status updated";
    "Uploaded edited version";
    "Project approved and sent to client";
    "Client approved the project";
    "Client requested revisions" ].

(** The callback of the [filter] in [getProjectTimeline]. *)
Definition client_relevant (entry : TimelineEntry.t) : bool :=
  existsb
    (λ action,
       str_includes (TimelineEntry.action entry) action
       || str_includes (TimelineEntry.action entry) "Status changed")
    clientRelevantActions.

Module ClientEntry.
Record t : Type := mk {
  action : string;
  timestamp : Z;
  notes : string;
  user : option (string * string)
}.
End ClientEntry.

(** The callback of the [map] in [getProjectTimeline]; [timeline.user] is
    populated with [name] and [role], or [null] when there is no such
    user. *)
Definition client_entry (us : gmap ObjectId User.t) (entry : TimelineEntry.t)
    : ClientEntry.t :=
  ClientEntry.mk (TimelineEntry.action entry) (TimelineEntry.timestamp entry)
    (TimelineEntry.notes entry)
    (match TimelineEntry.user entry with
     | Some uid =>
         match us !! uid with
         | Some u => Some (User.name u, User.role u)
         | None => None
         end
     | None => None
     end).

(** [project.timeline.filter(...).map(...)] of [getProjectTimeline]. *)
Definition clientTimeline (us : gmap ObjectId User.t) (project : Project)
    : list ClientEntry.t :=
  client_entry us <$>
    List.filter client_relevant (timeline project).

Module TimelineResponse.
Record t : Type := mk {
  code : Z;
  success : bool;
  timeline : list ClientEntry.t;
  project : option (string * Status)
}.
End TimelineResponse.

(** [exports.getProjectTimeline] (client controller); the answer carries
    the filtered timeline and the project's [publicId] and [status]. *)
Definition getProjectTimeline (pid : string) (db : Db)
    : TimelineResponse.t :=
  match findByPublicId pid (projects db) with
  | None => TimelineResponse.mk 404 false [] None
  | Some (_, project) =>
      TimelineResponse.mk 200 true (clientTimeline (users db) project)
        (Some (publicId project, status project))
  end.

Module Download.
Record t : Type := mk {
  url : string;
  filename : string;
  version : Z;
  uploadDate : Z
}.
End Download.

Module DownloadResponse.
Record t : Type := mk {
  code : Z;
  success : bool;
  message : string;
  download : option Download.t
}.
End DownloadResponse.

(** [exports.getDownloadLink] (client controller) *)
Definition getDownloadLink (pid : string) (db : Db)
    : DownloadResponse.t :=
  match findByPublicId pid (projects db) with
  | None => DownloadResponse.mk 404 false "Project not found" None
  | Some (_, project) =>
      if negb (bool_decide (status project = approved)) then
        DownloadResponse.mk 403 false "Project is not ready for download" None
      else
        match getLatestVersion project with
        | None =>
            DownloadResponse.mk 404 false
              "No edited version available for download" None
        | Some latestVersion =>
            if bool_decide (Version.driveFileUrl latestVersion = "") then
              DownloadResponse.mk 404 false
                "No edited version available for download" None
            else
              let fileId := Version.driveFileId latestVersion in
              let downloadUrl :=
                "https://drive.google.com/uc?export=download&id=" +:+ fileId in
              DownloadResponse.mk 200 true ""
                (Some (Download.mk downloadUrl
                         (Version.filename latestVersion)
                         (Version.version latestVersion)
                         (Version.uploadDate latestVersion)))
        end
  end.

Module DriveUrls.
Record t : Type := mk {
  downloadUrl : string;
  viewUrl : string
}.
End DriveUrls.

Module LatestDownload.
Record t : Type := mk {
  filename : string;
  version : Z;
  downloadUrl : string;
  viewUrl : string
}.
End LatestDownload.

Module LatestDownloadResponse.
Record t : Type := mk {
  code : Z;
  success : bool;
  message : string;
  download : option LatestDownload.t
}.
End LatestDownloadResponse.

(** [exports.downloadLatestVersion] (client controller).  [driveUrls] is the
    outcome of [googleDriveService.getFileDownloadUrl] for the file it is
    asked about: [None] when the promise is rejected. *)
Definition downloadLatestVersion (driveUrls : string → option DriveUrls.t)
    (pid : string) (db : Db) : LatestDownloadResponse.t :=
  match findByPublicId pid (projects db) with
  | None => LatestDownloadResponse.mk 404 false "Project not found" None
  | Some (_, project) =>
      if negb (bool_decide (status project ∈ [approved; completed; delivered]))
      then
        LatestDownloadResponse.mk 400 false
          "No completed version available for download" None
      else
        match getLatestVersion project with
        | None =>
            LatestDownloadResponse.mk 404 false "No edited version found" None
        | Some latestVersion =>
            match driveUrls (Version.driveFileId latestVersion) with
            | Some downloadInfo =>
                LatestDownloadResponse.mk 200 true ""
                  (Some (LatestDownload.mk
                           (Version.filename latestVersion)
                           (Version.version latestVersion)
                           (DriveUrls.downloadUrl downloadInfo)
                           (DriveUrls.viewUrl downloadInfo)))
            | None =>
                LatestDownloadResponse.mk 500 false
                  "Error generating download link" None
            end
        end
  end.

(** [Project.countDocuments(filter)] for the filter of [deleteEditor]:
    [{ assignedEditor: editorId, status: { $in: ['assigned', 'in_progress'] } }] *)
Definition countActiveAssignments (editorId : ObjectId)
    (ps : gmap ObjectId Project) : nat :=
  length
    (filter
       (λ kp : ObjectId * Project,
          assignedEditor kp.2 = Some editorId ∧
          status kp.2 ∈ [assigned; in_progress])
       (map_to_list ps)).

(** [exports.deleteEditor] (admin controller) *)
Definition deleteEditor (editorId : ObjectId) (db : Db) : Response.t * Db :=
  match users db !! editorId with
  | None => (respond 404 false "Editor not found", db)
  | Some editor =>
      if negb (bool_decide (User.role editor = "editor")) then
        (respond 404 false "Editor not found", db)
      else
        let assignedProjects := countActiveAssignments editorId (projects db) in
        if (0 <? assignedProjects)%nat then
          (respond 400 false
             "Cannot delete editor with active project assignments", db)
        else
          (respond 200 true "Editor deleted successfully",
           mkDb (projects db) (delete editorId (users db)))
  end.

(** ** Invariants of the store *)

(** The deadline fields of a document agree:
    [editorDeadline = assignedDate + editorDeadlineHours] hours, or neither
    date is set. *)
Definition deadline_consistent (p : Project) : Prop :=
  match assignedDate p, editorDeadline p with
  | Some a, Some d => d = a + editorDeadlineHours p * 60 * 60 * 1000
  | None, None => True
  | _, _ => False
  end.

(** The three fields the spec says are "fixed at assignment time". *)
Definition deadline_fields (p : Project) : option Z * Z * option Z :=
  (assignedDate p, editorDeadlineHours p, editorDeadline p).

(** How one request may change the document it addresses. *)
Record evolves (p p' : Project) : Prop := mkEvolves {
  ev_publicId : publicId p' = publicId p;
  ev_driveFolderId : driveFolderId p' = driveFolderId p;
  ev_timeline : timeline p `prefix_of` timeline p';
  ev_versions : editedVersions p `prefix_of` editedVersions p';
  ev_comments : adminComments p `prefix_of` adminComments p';
  ev_feedback : clientFeedback p `prefix_of` clientFeedback p';
  ev_progress : 0 ≤ progress p ≤ 100 → 0 ≤ progress p' ≤ 100;
  ev_status :
    status p' = status p ∨
    status p' ∈ [assigned; reassigned; in_progress; completed;
                 revision_in_progress; approved; revision_requested;
                 client_reedit; delivered]
}.

(** No two stored projects share a [publicId] (the unique index of the
    schema). *)
Definition unique_publicIds (ps : gmap ObjectId Project) : Prop :=
  ∀ id1 id2 p1 p2,
    ps !! id1 = Some p1 → ps !! id2 = Some p2 →
    publicId p1 = publicId p2 → id1 = id2.

(** The shape of every outcome of a request on the store [db]: a refusal
    that leaves the store as it was, or a success that rewrites the
    addressed document. *)
Definition step_outcome (db : Db) (t : Trigger) (r : Response.t * Db)
    : Prop :=
  (Response.success r.1 = false ∧ r.2 = db) ∨
  (Response.success r.1 = true ∧
   ∃ id p p',
     trigger_project t db = Some (id, p) ∧
     r.2 = mkDb (<[id := p']> (projects db)) (users db) ∧
     evolves p p').

(** ** utils/helpers.js *)

(** [statusMap[status] || status] and [colorMap[status] || 'gray'], for the
    statuses of the schema. *)
Definition getStatusDisplayText (s : Status) : string :=
  match s with
  | uploaded => "Files Uploaded"
  | assigned => "Assigned to Editor"
  | in_progress => "Work in Progress"
  | completed => "Editing Completed"
  | under_review => "Under Admin Review"
  | approved => "Approved by Admin"
  | revision_requested => "Revision Requested"
  | revision_in_progress => "Revision in Progress"
  | delivered => "Project Delivered"
  | reassigned | client_reedit => status_name s
  end.

Definition getStatusColor (s : Status) : string :=
  match s with
  | uploaded => "blue"
  | assigned => "yellow"
  | in_progress => "orange"
  | completed => "green"
  | under_review => "purple"
  | approved => "green"
  | revision_requested => "red"
  | revision_in_progress => "orange"
  | delivered => "green"
  | reassigned | client_reedit => "gray"
  end.

(** The character class [[a-z0-9.\-_]] under the [i] flag. *)
Definition is_filename_char (c : Ascii.ascii) : bool :=
  let n := Ascii.nat_of_ascii c in
  ((97 <=? n) && (n <=? 122) || (65 <=? n) && (n <=? 90) ||
   (48 <=? n) && (n <=? 57) || (n =? 46) || (n =? 45) || (n =? 95))%nat.

Definition is_underscore (c : Ascii.ascii) : bool :=
  (Ascii.nat_of_ascii c =? 95)%nat.

(** The character ['_'] (code 95). *)
Definition underscore : Ascii.ascii := Ascii.ascii_of_nat 95.

(** [.replace(/[^a-z0-9.\-_]/gi, '_')] *)
Definition replace_disallowed (l : list Ascii.ascii) : list Ascii.ascii :=
  (λ c, if is_filename_char c then c else underscore) <$> l.

(** [.replace(/_{2,}/g, '_')]: every run of underscores shrinks to one. *)
Fixpoint collapse_underscores (l : list Ascii.ascii) : list Ascii.ascii :=
  match l with
  | [] => []
  | c :: rest =>
      match rest with
      | d :: _ =>
          if is_underscore c && is_underscore d
          then collapse_underscores rest
          else c :: collapse_underscores rest
      | [] => [c]
      end
  end.

(** The [^_+] half of [.replace(/^_+|_+$/g, '')]. *)
Fixpoint drop_leading_underscores (l : list Ascii.ascii)
    : list Ascii.ascii :=
  match l with
  | [] => []
  | c :: rest => if is_underscore c then drop_leading_underscores rest else l
  end.

(** The [_+$] half of [.replace(/^_+|_+$/g, '')]. *)
Fixpoint drop_trailing_underscores (l : list Ascii.ascii)
    : list Ascii.ascii :=
  match l with
  | [] => []
  | c :: rest =>
      match drop_trailing_underscores rest with
      | [] => if is_underscore c then [] else [c]
      | kept => c :: kept
      end
  end.

(** [sanitizeFilename].  The string is processed unit by unit; a character
    outside ASCII is one or more units, all of them outside the class, and
    its underscores are collapsed to one whatever their number. *)
Definition sanitizeFilename (filename : string) : string :=
  String.string_of_list_ascii
    (drop_trailing_underscores
       (drop_leading_underscores
          (collapse_underscores
             (replace_disallowed (String.list_ascii_of_string filename))))).

Fixpoint no_adjacent_underscores (l : list Ascii.ascii) : bool :=
  match l with
  | [] => true
  | c :: rest =>
      match rest with
      | d :: _ =>
          negb (is_underscore c && is_underscore d)
          && no_adjacent_underscores rest
      | [] => true
      end
  end.

Definition starts_with_underscore (l : list Ascii.ascii) : bool :=
  match l with
  | c :: _ => is_underscore c
  | [] => false
  end.

Fixpoint ends_with_underscore (l : list Ascii.ascii) : bool :=
  match l with
  | [] => false
  | c :: rest =>
      match rest with
      | [] => is_underscore c
      | _ :: _ => ends_with_underscore rest
      end
  end.

(** A name made of letters, digits, dots, hyphens and single underscores
    that neither starts nor ends with an underscore. *)
Definition safe_filename (name : string) : bool :=
  let l := String.list_ascii_of_string name in
  forallb is_filename_char l && no_adjacent_underscores l
  && negb (starts_with_underscore l) && negb (ends_with_underscore l).

(** * Properties *)

(** ** Store and lookup lemmas *)

Lemma has_errors_nil : has_errors [] = false.
Proof. reflexivity. Qed.

Lemma lookup_save_eq id doc (ps : gmap ObjectId Project) :
  save id doc ps !! id = Some doc.
Proof. unfold save. apply lookup_insert_eq. Qed.

Lemma lookup_save_ne id id' doc (ps : gmap ObjectId Project) :
  id ≠ id' → save id doc ps !! id' = ps !! id'.
Proof. intros Hne. unfold save. by apply lookup_insert_ne. Qed.

Lemma findByPublicId_Some pid (ps : gmap ObjectId Project) id p :
  findByPublicId pid ps = Some (id, p) →
  ps !! id = Some p ∧ publicId p = pid.
Proof.
  unfold findByPublicId. intros Hhead.
  apply head_Some_elem_of in Hhead.
  apply list_elem_of_filter in Hhead as [Hpid Hin].
  apply elem_of_map_to_list in Hin. done.
Qed.

Lemma findAssigned_Some projectId editorId (ps : gmap ObjectId Project) p :
  findAssigned projectId editorId ps = Some p →
  ps !! projectId = Some p ∧ assignedEditor p = Some editorId.
Proof.
  unfold findAssigned. destruct (ps !! projectId) as [q|]; [|done].
  case_bool_decide; [|done]. intros [= ->]. done.
Qed.

Lemma findAssigned_intro projectId editorId (ps : gmap ObjectId Project) p :
  ps !! projectId = Some p → assignedEditor p = Some editorId →
  findAssigned projectId editorId ps = Some p.
Proof.
  intros Hl He. unfold findAssigned. rewrite Hl.
  by rewrite bool_decide_eq_true_2.
Qed.

Lemma save_twice id (a b : Project) (ps : gmap ObjectId Project) :
  save id a (save id b ps) = save id a ps.
Proof. unfold save. apply insert_insert_eq. Qed.

(** Unfolds a handler whose early checks have been rewritten away and
    reduces the stores it builds. *)
Ltac run_handler :=
  unfold addTimelineEntry, with_projects; cbn [fst snd projects users];
  rewrite ?lookup_save_eq; cbn [fst snd projects users].

(** Settles a decidable proposition on closed data by evaluating its
    decision procedure. *)
Ltac decide_by_computation :=
  apply (bool_decide_eq_true_1 _); vm_compute; reflexivity.

(** ** Client feedback *)



(** On a project in [approved] or [completed], a feedback with status
    'approved' whose [satisfied] field is falsy for JavaScript ([false],
    [0], [null], the empty text, or absent) does not deliver the project:
    it takes the revision branch, ending in [client_reedit] when
    [reEditRequested] is truthy and in [revision_requested] otherwise. *)
Lemma submitFeedback_unsatisfied_approval now req db id p :
  FeedbackReq.errors req = [] →
  findByPublicId (FeedbackReq.publicId req) (projects db) = Some (id, p) →
  status p ∈ [approved; completed] →
  FeedbackReq.status req = "approved" →
  truthy (FeedbackReq.satisfied req) = false →
  ∃ p', projects (submitFeedback now req db).2 !! id = Some p' ∧
        status p' ≠ delivered ∧
        status p' = if truthy (FeedbackReq.reEditRequested req)
                    then client_reedit else revision_requested.
Proof.
  intros Herr Hfind Hst Happroved Hunsat. unfold submitFeedback.
  rewrite Herr, has_errors_nil, Hfind, (bool_decide_eq_true_2 _ Hst).
  rewrite Happroved, Hunsat, andb_false_r. cbn [negb].
  rewrite orb_true_r.
  destruct (truthy (FeedbackReq.reEditRequested req));
    run_handler; (eexists; split; [reflexivity|]); done.
Qed.

Lemma submitFeedback_unsatisfied_approval_witness :
  ∃ p', projects
          (submitFeedback 1000
             (sample_feedback "approved" (JsBool false) (JsBool true))
             (sample_db completed [])).2 !! "p1" = Some p' ∧
        status p' = client_reedit.
Proof.
  destruct (submitFeedback_unsatisfied_approval 1000
              (sample_feedback "approved" (JsBool false) (JsBool true))
              (sample_db completed []) "p1" (sample_project completed []))
    as (p' & Hlookup & _ & Hstatus).
  - reflexivity.
  - vm_compute; reflexivity.
  - decide_by_computation.
  - reflexivity.
  - reflexivity.
  - exists p'. split; [exact Hlookup | exact Hstatus].
Defined.

(** C10, where the code departs from it.  The route's [isBoolean()]
    lets [satisfied] through as the text 'false' or '0', and the handler
    tests the field as it was sent: a text that is not empty is truthy.
    An approval whose [satisfied] says false in that form delivers the
    project, where the claim sends it to the revision branch. *)
Theorem submitFeedback_false_text_delivers now req db id p s :
  FeedbackReq.errors req = [] →
  findByPublicId (FeedbackReq.publicId req) (projects db) = Some (id, p) →
  status p ∈ [approved; completed] →
  FeedbackReq.status req = "approved" →
  FeedbackReq.satisfied req = JsString s →
  s ∈ ["false"; "0"] →
  ∃ p', projects (submitFeedback now req db).2 !! id = Some p' ∧
        status p' = delivered.
Proof.
  intros Herr Hfind Hst Happroved Hsat Hs. unfold submitFeedback.
  rewrite Herr, has_errors_nil, Hfind, (bool_decide_eq_true_2 _ Hst).
  rewrite Happroved, Hsat. cbn [negb truthy].
  assert (bool_decide (s = "") = false) as ->.
  { apply bool_decide_eq_false_2. intros ->.
    repeat (apply elem_of_cons in Hs as [Hs|Hs]; [discriminate Hs|]).
    by apply elem_of_nil in Hs. }
  rewrite bool_decide_eq_true_2 by done. cbn [andb negb].
  run_handler. eexists. split; [reflexivity|]. done.
Qed.

Lemma submitFeedback_false_text_delivers_witness :
  ∃ p', projects
          (submitFeedback 1000
             (sample_feedback "approved" (JsString "false") JsUndefined)
             (sample_db approved [])).2 !! "p1" = Some p' ∧
        status p' = delivered.
Proof.
  apply (submitFeedback_false_text_delivers 1000
           (sample_feedback "approved" (JsString "false") JsUndefined)
           (sample_db approved []) "p1" (sample_project approved []) "false").
  - reflexivity.
  - vm_compute; reflexivity.
  - decide_by_computation.
  - reflexivity.
  - reflexivity.
  - decide_by_computation.
Defined.

(** ** Admin review *)

(** C2. A review of a project that is not [completed] fails with the
    invalid-state answer (400, "not ready for review") and leaves the store
    as it was.  On a [completed] project, 'approve' sets [approved],
    'request_revision' sets [revision_requested] and 'reassign' keeps the
    status; each of the three appends one admin comment and one timeline
    entry. *)
Theorem reviewProject_transitions now req db p :
  ReviewReq.errors req = [] →
  projects db !! ReviewReq.projectId req = Some p →
  (status p ≠ completed →
     Response.code (reviewProject now req db).1 = 400 ∧
     Response.success (reviewProject now req db).1 = false ∧
     (reviewProject now req db).2 = db) ∧
  (status p = completed →
     ∀ target,
       (ReviewReq.action req = "approve" ∧ target = approved) ∨
       (ReviewReq.action req = "request_revision" ∧
        target = revision_requested) ∨
       (ReviewReq.action req = "reassign" ∧ target = status p) →
       ∃ p' c e,
         projects (reviewProject now req db).2 !! ReviewReq.projectId req
           = Some p' ∧
         status p' = target ∧
         adminComments p' = adminComments p ++ [c] ∧
         timeline p' = timeline p ++ [e]).
Proof.
  intros Herr Hfind. unfold reviewProject.
  rewrite Herr, has_errors_nil, Hfind. split; intros Hst.
  - rewrite (bool_decide_eq_false_2 _ Hst). cbn [negb]. done.
  - rewrite (bool_decide_eq_true_2 _ Hst). cbn [negb].
    intros target [[-> ->]|[[-> ->]|[-> ->]]];
      repeat (case_bool_decide; try done);
      run_handler; do 3 eexists; (split; [reflexivity|]); done.
Qed.

Lemma reviewProject_transitions_witness :
  ∃ p', projects (reviewProject 1000 (sample_review "approve")
                    (sample_db completed [])).2 !! "p1" = Some p' ∧
        status p' = approved ∧
        length (adminComments p') = 1%nat ∧
        length (timeline p') = 1%nat.
Proof.
  destruct (reviewProject_transitions 1000 (sample_review "approve")
              (sample_db completed []) (sample_project completed []))
    as [_ Hcompleted]; [reflexivity | vm_compute; reflexivity |].
  destruct (Hcompleted eq_refl approved) as (p' & c & e & Hl & Hs & Hc & Ht).
  { left. split; reflexivity. }
  exists p'. rewrite Hc, Ht. repeat split; [exact Hl | exact Hs].
Defined.

(** ** Editor status update *)

Lemma parse_valid_status_spec s :
  match parse_valid_status s with
  | Some st => status_name st = s ∧ st ∈ validStatuses
  | None =>
      s ∉ ["assigned"; "in_progress"; "completed"; "revision_in_progress"]
  end.
Proof.
  unfold parse_valid_status, validStatuses. cbn [find].
  repeat case_bool_decide; try (split; [done | by repeat constructor]).
  cbn [status_name] in *. intros Hin.
  repeat (apply elem_of_cons in Hin as [Heq|Hin]; [by symmetry in Heq|]).
  by apply elem_of_nil in Hin.
Qed.

Lemma parse_valid_status_Some s :
  s ∈ ["assigned"; "in_progress"; "completed"; "revision_in_progress"] →
  ∃ st, parse_valid_status s = Some st ∧ status_name st = s.
Proof.
  intros Hin. pose proof (parse_valid_status_spec s) as Hspec.
  destruct (parse_valid_status s) as [st|]; [|done].
  exists st. split; [done | apply Hspec].
Qed.

Lemma parse_valid_status_None s :
  s ∉ ["assigned"; "in_progress"; "completed"; "revision_in_progress"] →
  parse_valid_status s = None.
Proof.
  intros Hnot. pose proof (parse_valid_status_spec s) as Hspec.
  destruct (parse_valid_status s) as [st|]; [|done].
  destruct Hspec as [<- Hin]. exfalso. apply Hnot.
  unfold validStatuses in Hin.
  repeat (apply elem_of_cons in Hin as [-> | Hin];
          [cbn [status_name]; by repeat constructor|]).
  by apply elem_of_nil in Hin.
Qed.

(** C3, refuted as stated: the assigned editor of a [delivered] project
    asks for 'in_progress' and the update is accepted, although
    [delivered] is none of the four listed source states. *)
Lemma updateProjectStatus_source_unchecked :
  Response.success
    (updateProjectStatus 1000 (sample_status_update "in_progress")
       (sample_db delivered [])).1 = true ∧
  status <$>
    projects
      (updateProjectStatus 1000 (sample_status_update "in_progress")
         (sample_db delivered [])).2 !! "p1" = Some in_progress ∧
  ¬ spec_editor_update_guard.
Proof.
  split; [vm_compute; reflexivity|]. split; [vm_compute; reflexivity|].
  intros Hguard.
  destruct (Hguard 1000 (sample_status_update "in_progress")
              (sample_db delivered []) (sample_project delivered []))
    as [Hsource _]; [reflexivity | vm_compute; reflexivity | reflexivity |].
  apply (bool_decide_eq_true_2 _) in Hsource. vm_compute in Hsource.
  discriminate Hsource.
Qed.

(** C3, amended.  A status update by the assigned editor is accepted
    exactly when the requested target is one of assigned, in_progress,
    completed, revision_in_progress, whatever the current status of the
    project: it then stores the requested status.  A request for any
    other target is rejected and the store is left as it was. *)
Theorem updateProjectStatus_target_guard now req db p :
  StatusReq.errors req = [] →
  findAssigned (StatusReq.id req) (StatusReq.user req) (projects db)
    = Some p →
  (StatusReq.status req ∈
     ["assigned"; "in_progress"; "completed"; "revision_in_progress"] →
   Response.success (updateProjectStatus now req db).1 = true ∧
   ∃ p', projects (updateProjectStatus now req db).2 !! StatusReq.id req
           = Some p' ∧
         status_name (status p') = StatusReq.status req) ∧
  (StatusReq.status req ∉
     ["assigned"; "in_progress"; "completed"; "revision_in_progress"] →
   Response.success (updateProjectStatus now req db).1 = false ∧
   (updateProjectStatus now req db).2 = db).
Proof.
  intros Herr Hfind. unfold updateProjectStatus.
  rewrite Herr, has_errors_nil, Hfind. split; intros Htarget.
  - destruct (parse_valid_status_Some _ Htarget) as (st & -> & Hname).
    run_handler. split; [done|]. eexists. split; [reflexivity|].
    destruct (StatusReq.progress req); exact Hname.
  - rewrite (parse_valid_status_None _ Htarget). done.
Qed.

Lemma updateProjectStatus_target_guard_witness :
  Response.success
    (updateProjectStatus 1000 (sample_status_update "completed")
       (sample_db client_reedit [])).1 = true ∧
  ∃ p', projects
          (updateProjectStatus 1000 (sample_status_update "completed")
             (sample_db client_reedit [])).2 !! "p1" = Some p' ∧
        status_name (status p') = "completed".
Proof.
  destruct (updateProjectStatus_target_guard 1000
              (sample_status_update "completed")
              (sample_db client_reedit [])
              (sample_project client_reedit []))
    as [Haccepted _]; [reflexivity | vm_compute; reflexivity |].
  apply Haccepted. decide_by_computation.
Defined.

(** ** Version registry *)

Lemma reduce_keep_greater (rest : list Version.t) (acc : Version.t) :
  let r := fold_left keep_greater rest acc in
  (r = acc ∨ r ∈ rest) ∧
  Version.version acc ≤ Version.version r ∧
  Forall (λ w, Version.version w ≤ Version.version r) rest.
Proof.
  revert acc. induction rest as [|c rest IH]; intros acc; cbn.
  - split; [by left|]. split; [lia | constructor].
  - destruct (IH (keep_greater acc c)) as (Hin & Hacc & Hall).
    cbn in Hin, Hacc, Hall. revert Hin Hacc Hall.
    generalize (fold_left keep_greater rest (keep_greater acc c)).
    unfold keep_greater.
    destruct (Z.gtb_spec (Version.version c) (Version.version acc));
      intros r Hin Hacc Hall.
    + split; [|split; [lia|]].
      * destruct Hin as [->|Hin]; right; [by left | by right].
      * constructor; [lia | done].
    + split; [|split; [lia|]].
      * destruct Hin as [->|Hin]; [by left | right; by right].
      * constructor; [lia | done].
Qed.

Lemma getLatestVersion_spec p :
  match getLatestVersion p with
  | None => editedVersions p = []
  | Some v =>
      v ∈ editedVersions p ∧
      Forall (λ w, Version.version w ≤ Version.version v) (editedVersions p)
  end.
Proof.
  unfold getLatestVersion. destruct (editedVersions p) as [|first rest].
  - done.
  - destruct (reduce_keep_greater rest first) as (Hin & Hacc & Hall).
    cbn in Hin, Hacc, Hall. split.
    + destruct Hin as [->|Hin]; [by left | by right].
    + constructor; [lia | done].
Qed.

Lemma foldr_max_spec (x : Z) (l : list Z) :
  foldr Z.max x l ∈ x :: l ∧ Forall (λ y, y ≤ foldr Z.max x l) (x :: l).
Proof.
  induction l as [|y l [Hin Hall]]; cbn.
  - split; [by left | by repeat constructor].
  - apply Forall_cons in Hall as [Hx Hall].
    destruct (Z.max_spec y (foldr Z.max x l)) as [[Hle ->]|[Hle ->]].
    + split.
      * apply elem_of_cons in Hin as [->|Hin]; [by left | right; by right].
      * constructor; [done|]. constructor; [lia | done].
    + split; [right; by left|].
      constructor; [lia|]. constructor; [lia|].
      eapply Forall_impl; [exact Hall|]. cbn. intros; lia.
Qed.

(** The number chosen by the upload handler is the one the specification
    describes. *)
Lemma next_version_number_spec p :
  match getLatestVersion p with
  | Some latestVersion => Version.version latestVersion + 1
  | None => 1
  end = spec_next_version_number (editedVersions p).
Proof.
  pose proof (getLatestVersion_spec p) as Hspec.
  unfold spec_next_version_number.
  destruct (getLatestVersion p) as [v|].
  - destruct Hspec as [Hin Hall].
    destruct (editedVersions p) as [|first rest] eqn:Hvs;
      [by apply elem_of_nil in Hin|].
    cbn [fmap list_fmap max_default].
    destruct (foldr_max_spec (Version.version first) (Version.version <$> rest))
      as [Hmax_in Hmax_all].
    change (Version.version first :: (Version.version <$> rest))
      with (Version.version <$> first :: rest) in Hmax_in, Hmax_all.
    apply list_elem_of_fmap in Hmax_in as (w & Hw & Hw_in).
    rewrite Forall_forall in Hall. rewrite Forall_forall in Hmax_all.
    specialize (Hall w Hw_in). cbn in Hall.
    specialize (Hmax_all (Version.version v)).
    assert (Version.version v ≤
            foldr Z.max (Version.version first) (Version.version <$> rest))
      as Hle.
    { apply Hmax_all. apply list_elem_of_fmap. by exists v. }
    lia.
  - by rewrite Hspec.
Qed.

(** C5. [getLatestVersion] returns none for a project without versions and
    otherwise an entry of the array whose number is the greatest; the number
    it finds does not depend on the order of the array, and versions stored
    in the order 3, 1, 2 yield the entry numbered 3. *)
Theorem getLatestVersion_max p :
  (editedVersions p = [] → getLatestVersion p = None) ∧
  (editedVersions p ≠ [] →
     ∃ v, getLatestVersion p = Some v ∧ v ∈ editedVersions p ∧
          Forall (λ w, Version.version w ≤ Version.version v)
            (editedVersions p)) ∧
  (∀ q, editedVersions q ≡ₚ editedVersions p →
        Version.version <$> getLatestVersion q
        = Version.version <$> getLatestVersion p) ∧
  (Version.version <$> editedVersions p = [3; 1; 2] →
     Version.version <$> getLatestVersion p = Some 3).
Proof.
  split; [|split; [|split]].
  - intros Hnil. unfold getLatestVersion. by rewrite Hnil.
  - intros Hne. pose proof (getLatestVersion_spec p) as Hspec.
    destruct (getLatestVersion p) as [v|]; [|done].
    exists v. by destruct Hspec.
  - intros q Hperm.
    pose proof (getLatestVersion_spec p) as Hp.
    pose proof (getLatestVersion_spec q) as Hq.
    destruct (getLatestVersion p) as [v|], (getLatestVersion q) as [w|].
    + destruct Hp as [Hv_in Hv_all], Hq as [Hw_in Hw_all]. cbn. f_equal.
      rewrite Forall_forall in Hv_all, Hw_all.
      assert (Version.version w ≤ Version.version v)
        by (apply Hv_all; by rewrite <- Hperm).
      assert (Version.version v ≤ Version.version w)
        by (apply Hw_all; by rewrite Hperm).
      lia.
    + rewrite Hq in Hperm. destruct Hp as [Hv_in _].
      symmetry in Hperm. apply Permutation_nil_r in Hperm.
      rewrite Hperm in Hv_in.
      by apply elem_of_nil in Hv_in.
    + rewrite Hp in Hperm. destruct Hq as [Hw_in _].
      apply Permutation_nil_r in Hperm. rewrite Hperm in Hw_in.
      by apply elem_of_nil in Hw_in.
    + done.
  - intros Hnumbers. unfold getLatestVersion.
    destruct (editedVersions p) as [|a [|b [|c [|d rest]]]]; try done.
    cbn in Hnumbers. injection Hnumbers as Ha Hb Hc.
    cbn. unfold keep_greater. rewrite Ha, Hb, Hc.
    change (1 >? 3) with false. cbn iota. rewrite Ha.
    change (2 >? 3) with false. cbn iota. by rewrite Ha.
Qed.

Lemma getLatestVersion_max_witness :
  Version.version <$>
    getLatestVersion
      (sample_project completed
         [sample_version 3; sample_version 1; sample_version 2])
  = Some 3.
Proof.
  destruct (getLatestVersion_max
              (sample_project completed
                 [sample_version 3; sample_version 1; sample_version 2]))
    as (_ & _ & _ & Hexample).
  apply Hexample. reflexivity.
Defined.

(** ** Upload of an edited version *)

Lemma next_version_number_fresh p :
  Forall (λ w, Version.version w < spec_next_version_number (editedVersions p))
    (editedVersions p).
Proof.
  rewrite <- next_version_number_spec.
  pose proof (getLatestVersion_spec p) as Hspec.
  destruct (getLatestVersion p) as [v|].
  - destruct Hspec as [_ Hall]. eapply Forall_impl; [exact Hall|].
    cbn. intros; lia.
  - rewrite Hspec. constructor.
Qed.

(** What a successful upload leaves in the store. *)
Lemma uploadEditedVersion_success now f req db file p :
  UploadReq.file req = Some file →
  findAssigned (UploadReq.id req) (UploadReq.user req) (projects db)
    = Some p →
  ∃ p' v e,
    projects (uploadEditedVersion now (Some f) req db).2 !! UploadReq.id req
      = Some p' ∧
    Response.success (uploadEditedVersion now (Some f) req db).1 = true ∧
    assignedEditor p' = assignedEditor p ∧
    isEditorDeadlineExceeded p' = isEditorDeadlineExceeded p ∧
    status p' = completed ∧
    progress p' = 100 ∧
    editedVersions p' = editedVersions p ++ [v] ∧
    Version.version v = spec_next_version_number (editedVersions p) ∧
    timeline p' = timeline p ++ [e].
Proof.
  intros Hfile Hfind. unfold uploadEditedVersion. rewrite Hfile, Hfind.
  run_handler. do 3 eexists. split; [reflexivity|].
  repeat split. cbn. apply next_version_number_spec.
Qed.

(** C6. The upload handler numbers the new version
    max(existing numbers, default 0) + 1.  The new number exceeds every
    number already present, so numbers that were pairwise distinct stay
    so.  Two uploads on a project without versions produce the numbers
    1 and 2, and [getLatestVersion] then returns number 2. *)
Theorem uploadEditedVersion_numbering now f req db file p :
  UploadReq.file req = Some file →
  findAssigned (UploadReq.id req) (UploadReq.user req) (projects db)
    = Some p →
  ∃ p1 v1,
    projects (uploadEditedVersion now (Some f) req db).2 !! UploadReq.id req
      = Some p1 ∧
    editedVersions p1 = editedVersions p ++ [v1] ∧
    Version.version v1 = spec_next_version_number (editedVersions p) ∧
    Forall (λ w, Version.version w < Version.version v1) (editedVersions p) ∧
    (NoDup (Version.version <$> editedVersions p) →
     NoDup (Version.version <$> editedVersions p1)) ∧
    (editedVersions p = [] →
     ∀ now' f',
       ∃ p2,
         projects
           (uploadEditedVersion now' (Some f') req
              (uploadEditedVersion now (Some f) req db).2).2
           !! UploadReq.id req = Some p2 ∧
         Version.version <$> editedVersions p2 = [1; 2] ∧
         Version.version <$> getLatestVersion p2 = Some 2).
Proof.
  intros Hfile Hfind.
  destruct (uploadEditedVersion_success now f req db file p Hfile Hfind)
    as (p1 & v1 & e1 & Hl1 & _ & Hed1 & _ & _ & _ & Hvs1 & Hn1 & _).
  exists p1, v1. split; [exact Hl1|]. split; [exact Hvs1|].
  split; [exact Hn1|].
  pose proof (next_version_number_fresh p) as Hfresh.
  split; [by rewrite Hn1|]. split.
  - intros Hnodup. rewrite Hvs1, fmap_app. apply NoDup_app.
    split; [exact Hnodup|]. split; [|apply NoDup_singleton].
    intros n Hn_old Hn_new. cbn in Hn_new.
    apply list_elem_of_singleton in Hn_new as ->.
    apply list_elem_of_fmap in Hn_old as (w & Hw & Hw_in).
    rewrite Forall_forall in Hfresh. specialize (Hfresh w Hw_in).
    cbn in Hfresh. lia.
  - intros Hempty now' f'.
    apply findAssigned_Some in Hfind as [_ Heditor].
    assert (findAssigned (UploadReq.id req) (UploadReq.user req)
              (projects (uploadEditedVersion now (Some f) req db).2)
            = Some p1) as Hfind1.
    { apply findAssigned_intro; [exact Hl1 | by rewrite Hed1]. }
    destruct (uploadEditedVersion_success now' f' req _ file p1 Hfile Hfind1)
      as (p2 & v2 & e2 & Hl2 & _ & _ & _ & _ & _ & Hvs2 & Hn2 & _).
    exists p2. split; [exact Hl2|].
    rewrite Hvs1, Hempty in Hvs2, Hn2. rewrite Hempty in Hn1.
    cbn in Hvs2. unfold spec_next_version_number in Hn1, Hn2.
    cbn [fmap list_fmap max_default foldr] in Hn1, Hn2.
    assert (Version.version v1 = 1) as Hone by (rewrite Hn1; reflexivity).
    assert (Version.version v2 = 2) as Htwo
      by (rewrite Hn2; cbn; rewrite Hone; reflexivity).
    unfold getLatestVersion. rewrite Hvs2. cbn. unfold keep_greater.
    rewrite Hone, Htwo. change (2 >? 1) with true. cbn. by rewrite Htwo.
Qed.

Lemma uploadEditedVersion_numbering_witness :
  ∃ p2,
    projects
      (uploadEditedVersion 2000 (Some sample_drive_file) sample_upload
         (uploadEditedVersion 1000 (Some sample_drive_file) sample_upload
            (sample_db in_progress [])).2).2 !! "p1" = Some p2 ∧
    Version.version <$> editedVersions p2 = [1; 2] ∧
    Version.version <$> getLatestVersion p2 = Some 2.
Proof.
  destruct (uploadEditedVersion_numbering 1000 sample_drive_file
              sample_upload (sample_db in_progress [])
              (UploadedFile.mk "/tmp/u1" "cut.mp4")
              (sample_project in_progress []))
    as (p1 & v1 & _ & _ & _ & _ & _ & Htwice);
    [reflexivity | vm_compute; reflexivity |].
  exact (Htwice eq_refl 2000 sample_drive_file).
Defined.

(** C7. When the Drive upload succeeds, the upload by the assigned editor
    records the version and forces the project to [completed] with progress
    100.  When the Drive upload fails the request fails, no version is
    recorded, and the project keeps its status and progress: the store is
    left as it was. *)
Theorem uploadEditedVersion_outcome now driveUpload req db file p :
  UploadReq.file req = Some file →
  findAssigned (UploadReq.id req) (UploadReq.user req) (projects db)
    = Some p →
  (is_Some driveUpload →
     ∃ p' v,
       projects (uploadEditedVersion now driveUpload req db).2
         !! UploadReq.id req = Some p' ∧
       status p' = completed ∧
       progress p' = 100 ∧
       editedVersions p' = editedVersions p ++ [v]) ∧
  (driveUpload = None →
     Response.success (uploadEditedVersion now driveUpload req db).1 = false ∧
     (uploadEditedVersion now driveUpload req db).2 = db ∧
     projects (uploadEditedVersion now driveUpload req db).2
       !! UploadReq.id req = Some p).
Proof.
  intros Hfile Hfind. split.
  - intros [f ->].
    destruct (uploadEditedVersion_success now f req db file p Hfile Hfind)
      as (p' & v & e & Hl & _ & _ & _ & Hst & Hpr & Hvs & _).
    by exists p', v.
  - intros ->. unfold uploadEditedVersion. rewrite Hfile, Hfind. cbn.
    apply findAssigned_Some in Hfind as [Hl _]. done.
Qed.

Lemma uploadEditedVersion_outcome_witness :
  (∃ p' v,
     projects (uploadEditedVersion 1000 (Some sample_drive_file)
                 sample_upload (sample_db revision_in_progress [])).2
       !! "p1" = Some p' ∧
     status p' = completed ∧ progress p' = 100 ∧
     editedVersions p' = [] ++ [v]) ∧
  (uploadEditedVersion 1000 None sample_upload
     (sample_db revision_in_progress [])).2
  = sample_db revision_in_progress [].
Proof.
  split.
  - destruct (uploadEditedVersion_outcome 1000 (Some sample_drive_file)
                sample_upload (sample_db revision_in_progress [])
                (UploadedFile.mk "/tmp/u1" "cut.mp4")
                (sample_project revision_in_progress []))
      as [Hok _]; [reflexivity | vm_compute; reflexivity |].
    apply Hok. by eexists.
  - destruct (uploadEditedVersion_outcome 1000 None
                sample_upload (sample_db revision_in_progress [])
                (UploadedFile.mk "/tmp/u1" "cut.mp4")
                (sample_project revision_in_progress []))
      as [_ Hfail]; [reflexivity | vm_compute; reflexivity |].
    apply Hfail. reflexivity.
Defined.

(** ** Assignment *)

(** What an assignment leaves in the store. *)
Lemma assignProjectToEditor_success now req db p editor :
  AssignReq.errors req = [] →
  projects db !! AssignReq.projectId req = Some p →
  users db !! cast_id (AssignReq.editorId req) = Some editor →
  User.role editor = "editor" →
  ∃ p' e,
    projects (assignProjectToEditor now req db).2 !! AssignReq.projectId req
      = Some p' ∧
    Response.success (assignProjectToEditor now req db).1 = true ∧
    status p' =
      (if isActualReassignment (AssignReq.isReassignment req)
            (populate (assignedEditor p) (users db)) (AssignReq.editorId req)
       then reassigned else assigned) ∧
    assignedEditor p' = Some (cast_id (AssignReq.editorId req)) ∧
    assignedDate p' = Some now ∧
    editorDeadlineHours p' = num_or (AssignReq.deadlineHours req) 24 ∧
    editorDeadline p' =
      Some (now + num_or (AssignReq.deadlineHours req) 24 * 60 * 60 * 1000) ∧
    isEditorDeadlineExceeded p' = false ∧
    timeline p' = timeline p ++ [e].
Proof.
  intros Herr Hproject Heditor Hrole. unfold assignProjectToEditor.
  rewrite Herr, has_errors_nil, Hproject, Heditor.
  rewrite (bool_decide_eq_true_2 _ Hrole). cbn [negb].
  run_handler.
  destruct (AssignReq.dueDate req) as [d|]; [case_bool_decide|];
    (destruct (AssignReq.notes req) as [n|]; [case_bool_decide|]);
    destruct (truthy_text (AssignReq.comments req));
    (do 2 eexists; split; [reflexivity|]); cbn; done.
Qed.

(** The rule of the handler, with ids compared the way it compares them:
    the stored id of the previous editor, as text, against the [editorId]
    of the body as it was sent.  The project becomes [reassigned] only
    when [isReassignment] is truthy and the two texts differ; without the
    flag, with equal texts, or without a previous editor it becomes
    [assigned].  In both cases [assignedDate] is [now], [editorDeadline]
    is [now] plus [editorDeadlineHours] hours and
    [isEditorDeadlineExceeded] is false. *)
Lemma assignProjectToEditor_outcome now req db p editor :
  AssignReq.errors req = [] →
  projects db !! AssignReq.projectId req = Some p →
  users db !! cast_id (AssignReq.editorId req) = Some editor →
  User.role editor = "editor" →
  ∃ p',
    projects (assignProjectToEditor now req db).2 !! AssignReq.projectId req
      = Some p' ∧
    (status p' = reassigned →
       truthy (AssignReq.isReassignment req) = true ∧
       ∃ prev, assignedEditor p = Some prev ∧ prev ≠ AssignReq.editorId req) ∧
    (truthy (AssignReq.isReassignment req) = false ∨
     assignedEditor p = Some (AssignReq.editorId req) ∨
     assignedEditor p = None →
       status p' = assigned) ∧
    (∀ prev,
       truthy (AssignReq.isReassignment req) = true →
       assignedEditor p = Some prev →
       prev ≠ AssignReq.editorId req →
       is_Some (users db !! prev) →
       status p' = reassigned) ∧
    assignedDate p' = Some now ∧
    editorDeadline p' = Some (now + editorDeadlineHours p' * 60 * 60 * 1000) ∧
    isEditorDeadlineExceeded p' = false.
Proof.
  intros Herr Hproject Heditor Hrole.
  destruct (assignProjectToEditor_success now req db p editor
              Herr Hproject Heditor Hrole)
    as (p' & e & Hl & _ & Hst & _ & Hdate & Hhours & Hdeadline & Hflag & _).
  exists p'. split; [exact Hl|].
  unfold isActualReassignment, populate in Hst.
  split; [|split; [|split]].
  - intros Hre. rewrite Hre in Hst.
    destruct (truthy (AssignReq.isReassignment req)); [|done].
    split; [done|].
    destruct (assignedEditor p) as [prev|]; [|done].
    exists prev. split; [done|].
    destruct (users db !! prev); [|done].
    cbn in Hst. case_bool_decide; done.
  - intros [Hflag_off | [Hsame | Hnone]].
    + by rewrite Hflag_off in Hst.
    + rewrite Hsame in Hst.
      destruct (users db !! AssignReq.editorId req);
        [|by rewrite andb_false_r in Hst].
      rewrite bool_decide_eq_true_2 in Hst by done.
      by rewrite andb_false_r in Hst.
    + rewrite Hnone in Hst. by rewrite andb_false_r in Hst.
  - intros prev Hflag_on Hprev Hne [u Hu].
    rewrite Hflag_on, Hprev, Hu in Hst.
    by rewrite bool_decide_eq_false_2 in Hst by done.
  - rewrite Hhours. done.
Qed.

Lemma assignProjectToEditor_outcome_witness :
  ∃ p',
    projects (assignProjectToEditor 1000 (sample_assign "e2" (JsBool true))
                (sample_db completed [])).2 !! "p1" = Some p' ∧
    status p' = reassigned ∧
    assignedDate p' = Some 1000 ∧
    editorDeadline p' = Some (1000 + editorDeadlineHours p' * 60 * 60 * 1000) ∧
    isEditorDeadlineExceeded p' = false.
Proof.
  destruct (assignProjectToEditor_outcome 1000
              (sample_assign "e2" (JsBool true)) (sample_db completed [])
              (sample_project completed [])
              (User.mk "Bram" "bram@example.org" "editor"))
    as (p' & Hl & _ & _ & Hre & Hdate & Hdeadline & Hflag);
    [reflexivity | vm_compute; reflexivity | vm_compute; reflexivity
    | reflexivity |].
  exists p'. split; [exact Hl|]. split; [|done].
  apply (Hre "e1"); [reflexivity | reflexivity | discriminate |].
  exists (User.mk "Asha" "asha@example.org" "editor"). vm_compute. reflexivity.
Defined.

(** C9, where the code departs from it.  The editor of the request is
    found through the cast id, so the digits A to F may be sent in upper
    case; the comparison with the previous editor uses the text as sent.
    When the flagged request names the editor who is already assigned, in
    a spelling that differs from the stored one, the handler takes the
    editor for a new one: the project becomes [reassigned] although its
    editor has not changed, where the claim has it [assigned].  The same
    request in the stored spelling gives [assigned]. *)
Theorem assignProjectToEditor_same_editor_respelled now req db p editor :
  AssignReq.errors req = [] →
  projects db !! AssignReq.projectId req = Some p →
  users db !! cast_id (AssignReq.editorId req) = Some editor →
  User.role editor = "editor" →
  truthy (AssignReq.isReassignment req) = true →
  assignedEditor p = Some (cast_id (AssignReq.editorId req)) →
  ∃ p',
    projects (assignProjectToEditor now req db).2 !! AssignReq.projectId req
      = Some p' ∧
    assignedEditor p' = assignedEditor p ∧
    (AssignReq.editorId req ≠ cast_id (AssignReq.editorId req) →
       status p' = reassigned) ∧
    (AssignReq.editorId req = cast_id (AssignReq.editorId req) →
       status p' = assigned).
Proof.
  intros Herr Hproject Heditor Hrole Hflag Hsame.
  destruct (assignProjectToEditor_success now req db p editor
              Herr Hproject Heditor Hrole)
    as (p' & e & Hl & _ & Hst & Hed & _).
  exists p'. split; [exact Hl|]. split; [congruence|].
  unfold isActualReassignment, populate in Hst.
  rewrite Hflag, Hsame, Heditor in Hst. cbn [andb] in Hst.
  split; intros Hspelling.
  - rewrite bool_decide_eq_false_2 in Hst by congruence. exact Hst.
  - rewrite bool_decide_eq_true_2 in Hst by congruence. exact Hst.
Qed.

Lemma assignProjectToEditor_same_editor_respelled_witness :
  assignedEditor <$> projects hex_db !! hex_project_id
    = Some (Some hex_editor_id) ∧
  ∃ p',
    projects
      (assignProjectToEditor 1000 (hex_assign "64B7F0C2A1D3E4F5A6B7C8D9")
         hex_db).2 !! hex_project_id = Some p' ∧
    assignedEditor p' = Some hex_editor_id ∧
    status p' = reassigned.
Proof.
  split; [vm_compute; reflexivity|].
  destruct (assignProjectToEditor_same_editor_respelled 1000
              (hex_assign "64B7F0C2A1D3E4F5A6B7C8D9") hex_db
              (mkProject "CE7" completed 100 (Some hex_editor_id) (Some 0) 24
                 (Some 86400000) false None None "folder7" [] [] [] [])
              (User.mk "Asha" "asha@example.org" "editor"))
    as (p' & Hl & Hed & Hre & _);
    [reflexivity | vm_compute; reflexivity | vm_compute; reflexivity
    | reflexivity | reflexivity | vm_compute; reflexivity |].
  exists p'. split; [exact Hl|]. split; [exact Hed|].
  apply Hre. vm_compute. discriminate.
Defined.

(** ** Deadline tracker *)

Lemma flag_preserved_by_save (ps : gmap ObjectId Project) id p p' id' :
  ps !! id = Some p →
  isEditorDeadlineExceeded p' = isEditorDeadlineExceeded p →
  isEditorDeadlineExceeded <$> (save id p' ps !! id')
  = isEditorDeadlineExceeded <$> (ps !! id').
Proof.
  intros Hl Hflag. destruct (decide (id = id')) as [<-|Hne].
  - rewrite lookup_save_eq, Hl. cbn. by rewrite Hflag.
  - by rewrite lookup_save_ne.
Qed.

(** Closes a goal about the latch after a handler wrote the document
    found under [Hl] back once or twice. *)
Ltac flag_through_saves Hl :=
  run_handler;
  first
    [ eapply flag_preserved_by_save; [exact Hl | reflexivity]
    | etrans;
      [ eapply flag_preserved_by_save; [apply lookup_save_eq | reflexivity]
      | eapply flag_preserved_by_save; [exact Hl | reflexivity] ] ].

Lemma updateProjectStatus_keeps_latch now req db id' :
  isEditorDeadlineExceeded <$>
    (projects (updateProjectStatus now req db).2 !! id')
  = isEditorDeadlineExceeded <$> (projects db !! id').
Proof.
  unfold updateProjectStatus.
  destruct (has_errors _); [done|].
  destruct (findAssigned _ _ _) as [p|] eqn:Hfind; [|done].
  apply findAssigned_Some in Hfind as [Hl _].
  destruct (parse_valid_status _) as [st|]; [|done].
  destruct (StatusReq.progress req); flag_through_saves Hl.
Qed.

Lemma uploadEditedVersion_keeps_latch now driveUpload req db id' :
  isEditorDeadlineExceeded <$>
    (projects (uploadEditedVersion now driveUpload req db).2 !! id')
  = isEditorDeadlineExceeded <$> (projects db !! id').
Proof.
  unfold uploadEditedVersion.
  destruct (UploadReq.file req); [|done].
  destruct (findAssigned _ _ _) as [p|] eqn:Hfind; [|done].
  apply findAssigned_Some in Hfind as [Hl _].
  destruct driveUpload; [|done]. flag_through_saves Hl.
Qed.

Lemma reviewProject_keeps_latch now req db id' :
  isEditorDeadlineExceeded <$> (projects (reviewProject now req db).2 !! id')
  = isEditorDeadlineExceeded <$> (projects db !! id').
Proof.
  unfold reviewProject.
  destruct (has_errors _); [done|].
  destruct (projects db !! ReviewReq.projectId req) as [p|] eqn:Hl; [|done].
  destruct (negb _); [done|].
  repeat case_bool_decide; flag_through_saves Hl.
Qed.

Lemma submitFeedback_keeps_latch now req db id' :
  isEditorDeadlineExceeded <$> (projects (submitFeedback now req db).2 !! id')
  = isEditorDeadlineExceeded <$> (projects db !! id').
Proof.
  unfold submitFeedback.
  destruct (has_errors _); [done|].
  destruct (findByPublicId _ _) as [[id p]|] eqn:Hfind; [|done].
  apply findByPublicId_Some in Hfind as [Hl _].
  destruct (negb _); [done|].
  destruct (bool_decide (FeedbackReq.status req = "approved")),
    (truthy (FeedbackReq.satisfied req)),
    (bool_decide (FeedbackReq.status req = "revision_requested")),
    (truthy (FeedbackReq.reEditRequested req));
    cbn [andb orb negb]; flag_through_saves Hl.
Qed.

(** C8, refuted as stated.  A document with a passed deadline and a status
    of the list, but without an editor reference, is not reported as
    exceeded; and after a call that returned true, a call on the same
    project once its status is [completed] returns false. *)
Lemma checkEditorDeadline_not_as_stated :
  (checkEditorDeadline 10 "p2" unassigned_project ∅).1.1 = false ∧
  ((checkEditorDeadline 90000000 "p1" (sample_project in_progress [])
      (projects (sample_db in_progress []))).1.1 = true ∧
   (checkEditorDeadline 90000001 "p1"
      (set_status completed
         (checkEditorDeadline 90000000 "p1" (sample_project in_progress [])
            (projects (sample_db in_progress []))).1.2)
      (checkEditorDeadline 90000000 "p1" (sample_project in_progress [])
         (projects (sample_db in_progress []))).2).1.1 = false) ∧
  ¬ spec_checkExceeded_iff ∧
  ¬ spec_checkExceeded_stays_true.
Proof.
  split; [vm_compute; reflexivity|].
  split; [split; vm_compute; reflexivity|].
  split.
  - intros Hiff.
    destruct (Hiff 10 "p2" unassigned_project ∅ 5 eq_refl) as [_ Hback].
    assert ((checkEditorDeadline 10 "p2" unassigned_project ∅).1.1 = true)
      as Habs.
    { apply Hback. split; [lia | decide_by_computation]. }
    vm_compute in Habs. discriminate Habs.
  - intros Hstays.
    assert ((checkEditorDeadline 90000001 "p1"
               (set_status completed
                  (checkEditorDeadline 90000000 "p1"
                     (sample_project in_progress [])
                     (projects (sample_db in_progress []))).1.2)
               (checkEditorDeadline 90000000 "p1"
                  (sample_project in_progress [])
                  (projects (sample_db in_progress []))).2).1.1 = true)
      as Habs.
    { apply Hstays; [lia | vm_compute; reflexivity]. }
    vm_compute in Habs. discriminate Habs.
Qed.

(** C8, amended.  For a project with a deadline, [checkEditorDeadline]
    returns true iff an editor is assigned, [now] is past the deadline and
    the status is assigned, reassigned or in_progress; when it returns true
    the flag [isEditorDeadlineExceeded] is true afterwards.  The flag, not
    the returned value, is the latch: a call never clears it, it stays true
    in later calls whatever the status has become, and no status update,
    upload, review or feedback changes it; an assignment resets it. *)
Theorem checkEditorDeadline_latch now id p ps d :
  editorDeadline p = Some d →
  ((checkEditorDeadline now id p ps).1.1 = true ↔
     is_Some (assignedEditor p) ∧ now > d ∧
     status p ∈ [assigned; reassigned; in_progress]) ∧
  ((checkEditorDeadline now id p ps).1.1 = true →
     isEditorDeadlineExceeded (checkEditorDeadline now id p ps).1.2 = true ∧
     (isEditorDeadlineExceeded p = false →
      (checkEditorDeadline now id p ps).2 !! id
      = Some (checkEditorDeadline now id p ps).1.2)) ∧
  (isEditorDeadlineExceeded p = true →
     isEditorDeadlineExceeded (checkEditorDeadline now id p ps).1.2 = true) ∧
  (∀ now' newStatus,
     isEditorDeadlineExceeded (checkEditorDeadline now id p ps).1.2 = true →
     isEditorDeadlineExceeded
       (checkEditorDeadline now' id
          (set_status newStatus (checkEditorDeadline now id p ps).1.2)
          (checkEditorDeadline now id p ps).2).1.2 = true) ∧
  (∀ now' driveUpload t db id',
     (∀ req, t ≠ AssignEditor req) →
     isEditorDeadlineExceeded <$>
       (projects (apply_trigger now' driveUpload t db).2 !! id')
     = isEditorDeadlineExceeded <$> (projects db !! id')) ∧
  (∀ now' req db q editor,
     AssignReq.errors req = [] →
     projects db !! AssignReq.projectId req = Some q →
     users db !! cast_id (AssignReq.editorId req) = Some editor →
     User.role editor = "editor" →
     isEditorDeadlineExceeded <$>
       (projects (assignProjectToEditor now' req db).2
          !! AssignReq.projectId req)
     = Some false).
Proof.
  intros Hdeadline.
  assert (∀ now0 q qs,
            isEditorDeadlineExceeded q = true →
            isEditorDeadlineExceeded (checkEditorDeadline now0 id q qs).1.2
            = true) as Hkeeps.
  { intros now0 q qs Hq. unfold checkEditorDeadline.
    destruct (editorDeadline q), (assignedEditor q); try done.
    rewrite Hq. cbn [negb]. by rewrite andb_false_r. }
  split; [|split; [|split; [|split; [|split]]]].
  - unfold checkEditorDeadline. rewrite Hdeadline.
    destruct (assignedEditor p) as [e|].
    + destruct (_ && negb _); cbn [fst snd];
        rewrite andb_true_iff, bool_decide_eq_true, Z.gtb_gt;
        split; [intros [? ?] | intros (_ & ? & ?) | intros [? ?]
               | intros (_ & ? & ?)];
        try done; (split; [by eexists | split; [lia | done]]).
    + cbn. split; [done | intros [[e He] _]; done].
  - unfold checkEditorDeadline. rewrite Hdeadline.
    destruct (assignedEditor p) as [e|]; [|done].
    destruct (isEditorDeadlineExceeded p) eqn:Hflag.
    + cbn [negb]. rewrite andb_false_r. cbn. done.
    + cbn [negb]. rewrite andb_true_r.
      destruct (_ && _); cbn; [|done].
      intros _. split; [done|]. intros _. apply lookup_save_eq.
  - apply Hkeeps.
  - intros now' newStatus Hset. apply Hkeeps. exact Hset.
  - intros now' driveUpload t db id' Hnot_assign.
    destruct t as [req|req|req|req|req]; cbn [apply_trigger].
    + by destruct (Hnot_assign req).
    + apply updateProjectStatus_keeps_latch.
    + apply uploadEditedVersion_keeps_latch.
    + apply reviewProject_keeps_latch.
    + apply submitFeedback_keeps_latch.
  - intros now' req db q editor Herr Hq Heditor Hrole.
    destruct (assignProjectToEditor_success now' req db q editor
                Herr Hq Heditor Hrole)
      as (q' & e & -> & _ & _ & _ & _ & _ & _ & Hflag & _).
    cbn. by rewrite Hflag.
Qed.

Lemma checkEditorDeadline_latch_witness :
  (checkEditorDeadline 90000000 "p1" (sample_project in_progress [])
     (projects (sample_db in_progress []))).1.1 = true ∧
  isEditorDeadlineExceeded
    (checkEditorDeadline 90000000 "p1" (sample_project in_progress [])
       (projects (sample_db in_progress []))).1.2 = true.
Proof.
  destruct (checkEditorDeadline_latch 90000000 "p1"
              (sample_project in_progress [])
              (projects (sample_db in_progress [])) 86400000 eq_refl)
    as (Hiff & Hlatch & _).
  assert ((checkEditorDeadline 90000000 "p1" (sample_project in_progress [])
             (projects (sample_db in_progress []))).1.1 = true) as Htrue.
  { apply Hiff. split; [by eexists|]. split; [lia | decide_by_computation]. }
  split; [exact Htrue | apply Hlatch; exact Htrue].
Defined.

(** ** Timeline ledger *)

Lemma updateProjectStatus_success now req db p st :
  StatusReq.errors req = [] →
  findAssigned (StatusReq.id req) (StatusReq.user req) (projects db)
    = Some p →
  parse_valid_status (StatusReq.status req) = Some st →
  ∃ p' e,
    projects (updateProjectStatus now req db).2 !! StatusReq.id req
      = Some p' ∧
    status p' = st ∧
    timeline p' = timeline p ++ [e].
Proof.
  intros Herr Hfind Hparse. unfold updateProjectStatus.
  rewrite Herr, has_errors_nil, Hfind, Hparse. run_handler.
  destruct (StatusReq.progress req);
    (do 2 eexists; split; [reflexivity|]); done.
Qed.

Lemma reviewProject_success now req db p :
  ReviewReq.errors req = [] →
  projects db !! ReviewReq.projectId req = Some p →
  status p = completed →
  ReviewReq.action req ∈ ["approve"; "request_revision"; "reassign"] →
  ∃ p' e,
    projects (reviewProject now req db).2 !! ReviewReq.projectId req
      = Some p' ∧
    timeline p' = timeline p ++ [e].
Proof.
  intros Herr Hfind Hst Haction. unfold reviewProject.
  rewrite Herr, has_errors_nil, Hfind, (bool_decide_eq_true_2 _ Hst).
  cbn [negb].
  repeat (apply elem_of_cons in Haction as [-> | Haction];
          [repeat (case_bool_decide; try done); run_handler;
           (do 2 eexists; split; [reflexivity|]); done|]).
  by apply elem_of_nil in Haction.
Qed.

Lemma submitFeedback_success now req db id p :
  FeedbackReq.errors req = [] →
  findByPublicId (FeedbackReq.publicId req) (projects db) = Some (id, p) →
  status p ∈ [approved; completed] →
  FeedbackReq.status req ∈ ["approved"; "revision_requested"] →
  ∃ p' e,
    projects (submitFeedback now req db).2 !! id = Some p' ∧
    timeline p' = timeline p ++ [e].
Proof.
  intros Herr Hfind Hst Hfb. unfold submitFeedback.
  rewrite Herr, has_errors_nil, Hfind, (bool_decide_eq_true_2 _ Hst).
  cbn [negb].
  repeat (apply elem_of_cons in Hfb as [-> | Hfb];
          [repeat (case_bool_decide; try done);
           destruct (truthy (FeedbackReq.satisfied req)),
             (truthy (FeedbackReq.reEditRequested req));
           cbn [andb orb negb]; run_handler;
           (do 2 eexists; split; [reflexivity|]); done|]).
  by apply elem_of_nil in Hfb.
Qed.

(** Every pair the table lists passes the guard of its handler. *)
Lemma table_valid_accepted source t :
  table_valid source t = true → handler_accepts source t = true.
Proof.
  destruct t as [req|req|req|req|req];
    cbn [table_valid handler_accepts]; try done.
  - intros [_ Htarget%bool_decide_eq_true_1]%andb_true_iff.
    apply bool_decide_eq_true_2.
    destruct (parse_valid_status_Some _ Htarget) as (st & -> & _).
    by eexists.
  - by intros [? _]%andb_true_iff.
  - by intros [? _]%andb_true_iff.
Qed.

(** What an accepted trigger leaves in the store. *)
Lemma accepted_trigger_appends_entry now driveUpload t db id p :
  boundary_ok driveUpload t db = true →
  trigger_project t db = Some (id, p) →
  handler_accepts (status p) t = true →
  ∃ p' e,
    projects (apply_trigger now driveUpload t db).2 !! id = Some p' ∧
    timeline p' = timeline p ++ [e].
Proof.
  intros Hok Hproject Haccepts.
  destruct t as [req|req|req|req|req];
    cbn [boundary_ok trigger_project handler_accepts apply_trigger] in *.
  - apply andb_true_iff in Hok as [Herr%bool_decide_eq_true_1 Heditor].
    destruct (users db !! cast_id (AssignReq.editorId req)) as [editor|] eqn:Hu;
      [|done].
    apply bool_decide_eq_true_1 in Heditor.
    destruct (projects db !! AssignReq.projectId req) as [q|] eqn:Hl;
      [|done].
    injection Hproject as <- <-.
    destruct (assignProjectToEditor_success now req db q editor)
      as (p' & e & Hl' & _ & _ & _ & _ & _ & _ & _ & Ht); try done.
    by exists p', e.
  - apply bool_decide_eq_true_1 in Hok.
    destruct (findAssigned _ _ _) as [q|] eqn:Hfind; [|done].
    injection Hproject as <- <-.
    apply bool_decide_eq_true_1 in Haccepts as [st Hst].
    destruct (updateProjectStatus_success now req db q st)
      as (p' & e & Hl' & _ & Ht); try done.
    by exists p', e.
  - destruct (UploadReq.file req) as [file|] eqn:Hfile; [|done].
    destruct driveUpload as [f|]; [|done].
    destruct (findAssigned _ _ _) as [q|] eqn:Hfind; [|done].
    injection Hproject as <- <-.
    destruct (uploadEditedVersion_success now f req db file q)
      as (p' & v & e & Hl' & _ & _ & _ & _ & _ & _ & _ & Ht); try done.
    by exists p', e.
  - apply andb_true_iff in Hok
      as [Herr%bool_decide_eq_true_1 Haction%bool_decide_eq_true_1].
    destruct (projects db !! ReviewReq.projectId req) as [q|] eqn:Hl;
      [|done].
    injection Hproject as <- <-.
    apply bool_decide_eq_true_1 in Haccepts.
    by apply reviewProject_success.
  - apply andb_true_iff in Hok
      as [Herr%bool_decide_eq_true_1 Hfb%bool_decide_eq_true_1].
    apply bool_decide_eq_true_1 in Haccepts.
    by apply submitFeedback_success.
Qed.

(** *** What each accepted request persists *)

Lemma assignProjectToEditor_persists now req db p editor :
  AssignReq.errors req = [] →
  projects db !! AssignReq.projectId req = Some p →
  users db !! cast_id (AssignReq.editorId req) = Some editor →
  User.role editor = "editor" →
  ∃ p' e,
    projects (assignProjectToEditor now req db).2 !! AssignReq.projectId req
      = Some p' ∧
    timeline p' = timeline p ++ [e] ∧
    table_target (status p) (AssignEditor req) (status p') = true ∧
    last (assignProjectToEditor_writes now req db)
      = Some (projects (assignProjectToEditor now req db).2).
Proof.
  intros Herr Hproject Heditor Hrole.
  unfold assignProjectToEditor, assignProjectToEditor_writes.
  rewrite Herr, has_errors_nil, Hproject, Heditor.
  rewrite (bool_decide_eq_true_2 _ Hrole). cbn [negb].
  run_handler.
  destruct (AssignReq.dueDate req) as [d|]; [case_bool_decide|];
    (destruct (AssignReq.notes req) as [n|]; [case_bool_decide|]);
    destruct (truthy_text (AssignReq.comments req));
    (do 2 eexists; split; [reflexivity|]); cbn;
    (split; [done|]); (split; [|done]);
    destruct (isActualReassignment _ _ _);
    apply bool_decide_eq_true_2; set_solver.
Qed.

Lemma updateProjectStatus_persists now req db p st :
  StatusReq.errors req = [] →
  findAssigned (StatusReq.id req) (StatusReq.user req) (projects db)
    = Some p →
  parse_valid_status (StatusReq.status req) = Some st →
  ∃ p' e,
    projects (updateProjectStatus now req db).2 !! StatusReq.id req
      = Some p' ∧
    timeline p' = timeline p ++ [e] ∧
    table_target (status p) (EditorStatusUpdate req) (status p') = true ∧
    updateProjectStatus_writes now req db
      = [projects (updateProjectStatus now req db).2].
Proof.
  intros Herr Hfind Hparse.
  pose proof (parse_valid_status_spec (StatusReq.status req)) as Hname.
  rewrite Hparse in Hname. destruct Hname as [Hname _].
  unfold updateProjectStatus, updateProjectStatus_writes.
  rewrite Herr, has_errors_nil, Hfind, Hparse. run_handler.
  destruct (StatusReq.progress req);
    (do 2 eexists; split; [reflexivity|]);
    (split; [done|]); (split; [|done]);
    by apply bool_decide_eq_true_2.
Qed.

Lemma uploadEditedVersion_persists now f req db file p :
  UploadReq.file req = Some file →
  findAssigned (UploadReq.id req) (UploadReq.user req) (projects db)
    = Some p →
  ∃ p' e,
    projects (uploadEditedVersion now (Some f) req db).2 !! UploadReq.id req
      = Some p' ∧
    timeline p' = timeline p ++ [e] ∧
    table_target (status p) (UploadVersion req) (status p') = true ∧
    uploadEditedVersion_writes now (Some f) req db
      = [projects (uploadEditedVersion now (Some f) req db).2].
Proof.
  intros Hfile Hfind.
  unfold uploadEditedVersion, uploadEditedVersion_writes.
  rewrite Hfile, Hfind. run_handler.
  do 2 eexists. split; [reflexivity|]. by repeat split.
Qed.

Lemma reviewProject_persists now req db p :
  ReviewReq.errors req = [] →
  projects db !! ReviewReq.projectId req = Some p →
  status p = completed →
  ReviewReq.action req ∈ ["approve"; "request_revision"; "reassign"] →
  ∃ p' e,
    projects (reviewProject now req db).2 !! ReviewReq.projectId req
      = Some p' ∧
    timeline p' = timeline p ++ [e] ∧
    table_target (status p) (AdminReview req) (status p') = true ∧
    reviewProject_writes now req db
      = [projects (reviewProject now req db).2;
         projects (reviewProject now req db).2].
Proof.
  intros Herr Hfind Hst Haction.
  unfold reviewProject, reviewProject_writes, table_target.
  rewrite Herr, has_errors_nil, Hfind, (bool_decide_eq_true_2 _ Hst).
  cbn [negb].
  repeat (apply elem_of_cons in Haction as [-> | Haction];
          [repeat (case_bool_decide; try done); run_handler;
           rewrite ?save_twice;
           (do 2 eexists; split; [reflexivity|]);
           (split; [done|]); (split; [|done]);
           by apply bool_decide_eq_true_2|]).
  by apply elem_of_nil in Haction.
Qed.

Lemma submitFeedback_persists now req db id p :
  FeedbackReq.errors req = [] →
  findByPublicId (FeedbackReq.publicId req) (projects db) = Some (id, p) →
  status p ∈ [approved; completed] →
  FeedbackReq.status req ∈ ["approved"; "revision_requested"] →
  ∃ p' e,
    projects (submitFeedback now req db).2 !! id = Some p' ∧
    timeline p' = timeline p ++ [e] ∧
    (table_valid (status p) (ClientFeedback req) = true →
       table_target (status p) (ClientFeedback req) (status p') = true) ∧
    submitFeedback_writes now req db
      = [projects (submitFeedback now req db).2;
         projects (submitFeedback now req db).2].
Proof.
  intros Herr Hfind Hst Hfb.
  unfold submitFeedback, submitFeedback_writes, table_target, table_valid.
  rewrite Herr, has_errors_nil, Hfind, (bool_decide_eq_true_2 _ Hst).
  cbn [negb].
  repeat (apply elem_of_cons in Hfb as [-> | Hfb];
          [repeat (case_bool_decide; try done);
           destruct (truthy (FeedbackReq.satisfied req)),
             (truthy (FeedbackReq.reEditRequested req));
           cbn [andb orb negb]; run_handler;
           rewrite ?save_twice;
           (do 2 eexists; split; [reflexivity|]);
           (split; [done|]); (split; [|done]);
           (done || (intros _; by apply bool_decide_eq_true_2))|]).
  by apply elem_of_nil in Hfb.
Qed.

(** C4, refuted as stated, in both halves.  The table has no row for an
    editor status update from [delivered], yet the handler applies it: the
    status changes and an entry is added.  And the assignment of another
    editor to a [completed] project, a pair of the table, first saves the
    document with its new status [reassigned] and a timeline that is still
    empty; the entry follows in a second [save()]. *)
Lemma invalid_pair_changes_state :
  (table_valid delivered
     (EditorStatusUpdate (sample_status_update "in_progress")) = false ∧
   status <$>
     projects
       (apply_trigger 1000 None
          (EditorStatusUpdate (sample_status_update "in_progress"))
          (sample_db delivered [])).2 !! "p1" = Some in_progress ∧
   length ∘ timeline <$>
     projects
       (apply_trigger 1000 None
          (EditorStatusUpdate (sample_status_update "in_progress"))
          (sample_db delivered [])).2 !! "p1" = Some 1%nat) ∧
  ¬ spec_invalid_pairs_rejected ∧
  (table_valid completed
     (AssignEditor (sample_assign "e2" (JsBool true))) = true ∧
   (λ w, (status <$> w !! "p1", length ∘ timeline <$> w !! "p1")) <$>
     trigger_writes 1000 None
       (AssignEditor (sample_assign "e2" (JsBool true)))
       (sample_db completed [])
   = [(Some reassigned, Some 0%nat); (Some reassigned, Some 1%nat)]) ∧
  ¬ spec_entry_with_status_change.
Proof.
  split; [repeat split; vm_compute; reflexivity|].
  split; [|split; [split; vm_compute; reflexivity|]].
  - intros Hrejected.
    pose proof (Hrejected 1000 None
                  (EditorStatusUpdate (sample_status_update "in_progress"))
                  (sample_db delivered []) "p1" (sample_project delivered []))
      as Hsame.
    assert (status <$>
              projects
                (apply_trigger 1000 None
                   (EditorStatusUpdate (sample_status_update "in_progress"))
                   (sample_db delivered [])).2 !! "p1"
            = Some delivered) as Habs.
    { rewrite Hsame; vm_compute; reflexivity. }
    vm_compute in Habs. discriminate Habs.
  - intros Htogether.
    destruct (trigger_writes 1000 None
                (AssignEditor (sample_assign "e2" (JsBool true)))
                (sample_db completed [])) as [|w ws] eqn:Hwrites;
      [vm_compute in Hwrites; discriminate Hwrites|].
    destruct (w !! "p1") as [q|] eqn:Hq;
      [|vm_compute in Hwrites; injection Hwrites as <- _;
        vm_compute in Hq; discriminate Hq].
    destruct (Htogether 1000 None
                (AssignEditor (sample_assign "e2" (JsBool true)))
                (sample_db completed []) "p1" (sample_project completed [])
                eq_refl eq_refl eq_refl w q) as [e He].
    + rewrite Hwrites. apply list_elem_of_here.
    + exact Hq.
    + vm_compute in Hwrites. injection Hwrites as <- _.
      vm_compute in Hq. injection Hq as <-. discriminate.
    + vm_compute in Hwrites. injection Hwrites as <- _.
      vm_compute in Hq. injection Hq as <-. discriminate He.
Qed.

(** C4, amended.  Every (source state, trigger) pair of the table passes
    the guard of its handler, and every pair that passes it, in the table
    or not, is applied: the project ends with exactly one new timeline
    entry and, for a pair of the table, with the status the table names.
    For an editor status update, a version upload, an admin review and a
    client feedback the entry is written in the same logical operation as
    the status change: every [save()] of the request stores the one
    document that carries both.  For an assignment the theorem speaks of
    the end of the request only, where the last [save()] has stored the
    entry.  Every pair the handler rejects (a review of a project that is
    not [completed], a feedback on a project that is neither [approved] nor
    [completed], a status update to a target outside the allowed list)
    writes nothing: the store is as it was, with no timeline entry
    added. *)
Theorem apply_trigger_timeline now driveUpload t db id p :
  boundary_ok driveUpload t db = true →
  trigger_project t db = Some (id, p) →
  (table_valid (status p) t = true → handler_accepts (status p) t = true) ∧
  (handler_accepts (status p) t = true →
     ∃ p' e,
       projects (apply_trigger now driveUpload t db).2 !! id = Some p' ∧
       timeline p' = timeline p ++ [e] ∧
       (table_valid (status p) t = true →
          table_target (status p) t (status p') = true) ∧
       last (trigger_writes now driveUpload t db)
         = Some (projects (apply_trigger now driveUpload t db).2) ∧
       ((∀ req, t ≠ AssignEditor req) →
          ∀ w, w ∈ trigger_writes now driveUpload t db →
               w !! id = Some p')) ∧
  (handler_accepts (status p) t = false →
     Response.success (apply_trigger now driveUpload t db).1 = false ∧
     (apply_trigger now driveUpload t db).2 = db ∧
     trigger_writes now driveUpload t db = []).
Proof.
  intros Hok Hproject. split; [apply table_valid_accepted|]. split.
  - intros Haccepts.
    destruct t as [req|req|req|req|req];
      cbn [boundary_ok trigger_project handler_accepts apply_trigger
           trigger_writes] in *.
    + apply andb_true_iff in Hok as [Herr%bool_decide_eq_true_1 Heditor].
      destruct (users db !! cast_id (AssignReq.editorId req))
        as [editor|] eqn:Hu; [|done].
      apply bool_decide_eq_true_1 in Heditor.
      destruct (projects db !! AssignReq.projectId req) as [q|] eqn:Hl;
        [|done].
      injection Hproject as <- <-.
      destruct (assignProjectToEditor_persists now req db q editor)
        as (p' & e & Hl' & Ht & Htarget & Hlast); try done.
      exists p', e. repeat split; try done.
      intros Hother. by destruct (Hother req).
    + apply bool_decide_eq_true_1 in Hok.
      destruct (findAssigned _ _ _) as [q|] eqn:Hfind; [|done].
      injection Hproject as <- <-.
      apply bool_decide_eq_true_1 in Haccepts as [st Hst].
      destruct (updateProjectStatus_persists now req db q st)
        as (p' & e & Hl' & Ht & Htarget & ->); try done.
      exists p', e. repeat split; try done.
      intros _ w ->%list_elem_of_singleton. done.
    + destruct (UploadReq.file req) as [file|] eqn:Hfile; [|done].
      destruct driveUpload as [f|]; [|done].
      destruct (findAssigned _ _ _) as [q|] eqn:Hfind; [|done].
      injection Hproject as <- <-.
      destruct (uploadEditedVersion_persists now f req db file q)
        as (p' & e & Hl' & Ht & Htarget & ->); try done.
      exists p', e. repeat split; try done.
      intros _ w ->%list_elem_of_singleton. done.
    + apply andb_true_iff in Hok
        as [Herr%bool_decide_eq_true_1 Haction%bool_decide_eq_true_1].
      destruct (projects db !! ReviewReq.projectId req) as [q|] eqn:Hl;
        [|done].
      injection Hproject as <- <-.
      apply bool_decide_eq_true_1 in Haccepts.
      destruct (reviewProject_persists now req db q)
        as (p' & e & Hl' & Ht & Htarget & ->); try done.
      exists p', e. repeat split; try done.
      intros _ w Hw.
      repeat (apply elem_of_cons in Hw as [-> | Hw]; [done|]).
      by apply elem_of_nil in Hw.
    + apply andb_true_iff in Hok
        as [Herr%bool_decide_eq_true_1 Hfb%bool_decide_eq_true_1].
      apply bool_decide_eq_true_1 in Haccepts.
      destruct (submitFeedback_persists now req db id p)
        as (p' & e & Hl' & Ht & Htarget & ->); try done.
      exists p', e. repeat split; try done.
      intros _ w Hw.
      repeat (apply elem_of_cons in Hw as [-> | Hw]; [done|]).
      by apply elem_of_nil in Hw.
  - intros Hrejects.
    destruct t as [req|req|req|req|req];
      cbn [boundary_ok trigger_project handler_accepts apply_trigger
           trigger_writes] in *;
      try done.
    + apply bool_decide_eq_true_1 in Hok.
      destruct (findAssigned _ _ _) as [q|] eqn:Hfind; [|done].
      apply bool_decide_eq_false_1 in Hrejects.
      unfold updateProjectStatus, updateProjectStatus_writes.
      rewrite Hok, has_errors_nil, Hfind.
      destruct (parse_valid_status _); [|done].
      exfalso. apply Hrejects. by eexists.
    + apply andb_true_iff in Hok as [Herr%bool_decide_eq_true_1 _].
      destruct (projects db !! ReviewReq.projectId req) as [q|] eqn:Hl;
        [|done].
      injection Hproject as <- <-.
      unfold reviewProject, reviewProject_writes.
      rewrite Herr, has_errors_nil, Hl, Hrejects.
      done.
    + apply andb_true_iff in Hok as [Herr%bool_decide_eq_true_1 _].
      unfold submitFeedback, submitFeedback_writes.
      rewrite Herr, has_errors_nil, Hproject, Hrejects. done.
Qed.

Lemma apply_trigger_timeline_witness :
  (∃ p' e,
     projects
       (apply_trigger 1000 None (AdminReview (sample_review "approve"))
          (sample_db completed [])).2 !! "p1" = Some p' ∧
     timeline p' = [] ++ [e] ∧
     status p' = approved ∧
     ∀ w, w ∈ trigger_writes 1000 None
                (AdminReview (sample_review "approve"))
                (sample_db completed []) →
          w !! "p1" = Some p') ∧
  ((apply_trigger 1000 None (AdminReview (sample_review "approve"))
      (sample_db in_progress [])).2 = sample_db in_progress [] ∧
   trigger_writes 1000 None (AdminReview (sample_review "approve"))
     (sample_db in_progress []) = []).
Proof.
  split.
  - destruct (apply_trigger_timeline 1000 None
                (AdminReview (sample_review "approve"))
                (sample_db completed []) "p1" (sample_project completed []))
      as (_ & Haccepted & _);
      [vm_compute; reflexivity | vm_compute; reflexivity |].
    destruct Haccepted as (p' & e & Hl & Ht & Htarget & _ & Hwrites);
      [vm_compute; reflexivity|].
    exists p', e. split; [exact Hl|]. split; [exact Ht|].
    split; [|by apply Hwrites].
    apply (bool_decide_eq_true_1 _). apply Htarget. vm_compute. reflexivity.
  - destruct (apply_trigger_timeline 1000 None
                (AdminReview (sample_review "approve"))
                (sample_db in_progress []) "p1"
                (sample_project in_progress []))
      as (_ & _ & Hrejected);
      [vm_compute; reflexivity | vm_compute; reflexivity |].
    apply Hrejected. vm_compute. reflexivity.
Defined.

(** ** One step of the workflow *)

Lemma evolves_refl p : evolves p p.
Proof. constructor; try done. by left. Qed.

(** Proves [evolves p p'] for the document a handler builds from [p] by
    field assignments and pushes. *)
Ltac solve_evolves :=
  constructor; cbn;
  first
    [ done
    | reflexivity
    | by eexists
    | by left
    | by (right; repeat constructor)
    | intros; lia ].

Lemma trigger_project_lookup t db id p :
  trigger_project t db = Some (id, p) → projects db !! id = Some p.
Proof.
  destruct t as [req|req|req|req|req]; cbn [trigger_project].
  - destruct (projects db !! AssignReq.projectId req) eqn:Hl; [|done].
    by intros [= <- <-].
  - destruct (findAssigned _ _ _) eqn:Hf; [|done].
    intros [= <- <-]. by apply findAssigned_Some in Hf as [? _].
  - destruct (findAssigned _ _ _) eqn:Hf; [|done].
    intros [= <- <-]. by apply findAssigned_Some in Hf as [? _].
  - destruct (projects db !! ReviewReq.projectId req) eqn:Hl; [|done].
    by intros [= <- <-].
  - intros Hf. by apply findByPublicId_Some in Hf as [? _].
Qed.

Section step.
Variables (now : Z) (db : Db).

Lemma assignProjectToEditor_step req :
  step_outcome db (AssignEditor req) (assignProjectToEditor now req db).
Proof.
  unfold step_outcome, assignProjectToEditor. cbn [trigger_project].
  destruct (has_errors _); [by left|].
  destruct (projects db !! AssignReq.projectId req) as [p|]; [|by left].
  destruct (users db !! cast_id (AssignReq.editorId req)) as [editor|];
    [|by left].
  destruct (negb _); [by left|].
  right. run_handler. split; [done|].
  rewrite save_twice. unfold save.
  destruct (AssignReq.dueDate req) as [d|]; [case_bool_decide|];
    (destruct (AssignReq.notes req) as [n|]; [case_bool_decide|]);
    destruct (truthy_text (AssignReq.comments req));
    destruct (isActualReassignment _ _ _);
    (do 3 eexists; split; [reflexivity|]; split; [reflexivity|]);
    solve_evolves.
Qed.

Lemma updateProjectStatus_step req :
  step_outcome db (EditorStatusUpdate req) (updateProjectStatus now req db).
Proof.
  unfold step_outcome, updateProjectStatus. cbn [trigger_project].
  destruct (has_errors _); [by left|].
  destruct (findAssigned _ _ _) as [p|]; [|by left].
  pose proof (parse_valid_status_spec (StatusReq.status req)) as Hspec.
  destruct (parse_valid_status _) as [st|]; [|by left].
  destruct Hspec as [_ Hst]. unfold validStatuses in Hst.
  right. run_handler. split; [done|]. unfold save.
  destruct (StatusReq.progress req);
    (do 3 eexists; split; [reflexivity|]; split; [reflexivity|]);
    repeat (apply elem_of_cons in Hst as [-> | Hst]; [solve_evolves|]);
    by apply elem_of_nil in Hst.
Qed.

Lemma uploadEditedVersion_step driveUpload req :
  step_outcome db (UploadVersion req)
    (uploadEditedVersion now driveUpload req db).
Proof.
  unfold step_outcome, uploadEditedVersion. cbn [trigger_project].
  destruct (UploadReq.file req); [|by left].
  destruct (findAssigned _ _ _) as [p|]; [|by left].
  destruct driveUpload; [|by left].
  right. run_handler. split; [done|]. unfold save.
  do 3 eexists. split; [reflexivity|]. split; [reflexivity|].
  solve_evolves.
Qed.

Lemma reviewProject_step req :
  step_outcome db (AdminReview req) (reviewProject now req db).
Proof.
  unfold step_outcome, reviewProject. cbn [trigger_project].
  destruct (has_errors _); [by left|].
  destruct (projects db !! ReviewReq.projectId req) as [p|]; [|by left].
  destruct (negb _); [by left|].
  right.
  repeat case_bool_decide; run_handler; (split; [done|]);
    rewrite ?save_twice; unfold save;
    (do 3 eexists; split; [reflexivity|]; split; [reflexivity|]);
    solve_evolves.
Qed.

Lemma submitFeedback_step req :
  step_outcome db (ClientFeedback req) (submitFeedback now req db).
Proof.
  unfold step_outcome, submitFeedback. cbn [trigger_project].
  destruct (has_errors _); [by left|].
  destruct (findByPublicId _ _) as [[id p]|]; [|by left].
  destruct (negb _); [by left|].
  right.
  destruct (bool_decide (FeedbackReq.status req = "approved")),
    (truthy (FeedbackReq.satisfied req)),
    (bool_decide (FeedbackReq.status req = "revision_requested")),
    (truthy (FeedbackReq.reEditRequested req));
    cbn [andb orb negb]; run_handler; (split; [done|]);
    rewrite ?save_twice; unfold save;
    (do 3 eexists; split; [reflexivity|]; split; [reflexivity|]);
    solve_evolves.
Qed.

Lemma apply_trigger_step driveUpload t :
  step_outcome db t (apply_trigger now driveUpload t db).
Proof.
  destruct t as [req|req|req|req|req]; cbn [apply_trigger].
  - apply assignProjectToEditor_step.
  - apply updateProjectStatus_step.
  - apply uploadEditedVersion_step.
  - apply reviewProject_step.
  - apply submitFeedback_step.
Qed.
End step.

Lemma apply_trigger_forward now driveUpload t db id p :
  projects db !! id = Some p →
  ∃ p', projects (apply_trigger now driveUpload t db).2 !! id = Some p' ∧
        evolves p p'.
Proof.
  intros Hl.
  destruct (apply_trigger_step now db driveUpload t)
    as [[_ ->] | (_ & id0 & p0 & p0' & Ht & -> & Hev)].
  - exists p. split; [done | apply evolves_refl].
  - apply trigger_project_lookup in Ht. cbn [projects].
    destruct (decide (id0 = id)) as [->|Hne].
    + rewrite lookup_insert_eq. exists p0'. split; [done|].
      rewrite Hl in Ht. by injection Ht as ->.
    + rewrite lookup_insert_ne by done.
      exists p. split; [done | apply evolves_refl].
Qed.

Lemma apply_trigger_backward now driveUpload t db id p' :
  projects (apply_trigger now driveUpload t db).2 !! id = Some p' →
  ∃ p, projects db !! id = Some p ∧ evolves p p'.
Proof.
  destruct (apply_trigger_step now db driveUpload t)
    as [[_ ->] | (_ & id0 & p0 & p0' & Ht & -> & Hev)].
  - intros Hl. exists p'. split; [done | apply evolves_refl].
  - apply trigger_project_lookup in Ht. cbn [projects].
    destruct (decide (id0 = id)) as [->|Hne].
    + rewrite lookup_insert_eq. intros [= <-]. by exists p0.
    + rewrite lookup_insert_ne by done. intros Hl.
      exists p'. split; [done | apply evolves_refl].
Qed.

Lemma sample_db_lookup st vs id p :
  projects (sample_db st vs) !! id = Some p →
  id = "p1" ∧ p = sample_project st vs.
Proof.
  unfold sample_db. cbn [projects]. intros Hl.
  apply lookup_singleton_Some in Hl as [<- <-]. done.
Qed.

(** ** What no request does *)

(** A handler either leaves the store as it found it or answers 200. *)
Lemma apply_trigger_answer now driveUpload t db :
  (apply_trigger now driveUpload t db).2 = db ∨
  Response.code (apply_trigger now driveUpload t db).1 = 200.
Proof.
  destruct t as [req|req|req|req|req]; cbn [apply_trigger].
  - unfold assignProjectToEditor.
    destruct (has_errors _); [by left|].
    destruct (projects db !! AssignReq.projectId req); [|by left].
    destruct (users db !! cast_id (AssignReq.editorId req)); [|by left].
    destruct (negb _); [by left|]. by right.
  - unfold updateProjectStatus.
    destruct (has_errors _); [by left|].
    destruct (findAssigned _ _ _); [|by left].
    destruct (parse_valid_status _); [|by left]. by right.
  - unfold uploadEditedVersion.
    destruct (UploadReq.file req); [|by left].
    destruct (findAssigned _ _ _); [|by left].
    destruct driveUpload; [|by left]. by right.
  - unfold reviewProject.
    destruct (has_errors _); [by left|].
    destruct (projects db !! ReviewReq.projectId req); [|by left].
    destruct (negb _); [by left|].
    right. by repeat case_bool_decide.
  - unfold submitFeedback.
    destruct (has_errors _); [by left|].
    destruct (findByPublicId _ _) as [[id p]|]; [|by left].
    destruct (negb _); [by left|].
    right.
    by destruct (bool_decide (FeedbackReq.status req = "approved")),
      (truthy (FeedbackReq.satisfied req)),
      (bool_decide (FeedbackReq.status req = "revision_requested")),
      (truthy (FeedbackReq.reEditRequested req)).
Qed.

(** X1. Whatever the request, an answer 400 or 404 means that nothing was
    written: the five handlers give these answers only before their first
    [save()], so the store after the request is the store before it. *)
Theorem refused_request_keeps_store now driveUpload t db :
  Response.code (apply_trigger now driveUpload t db).1 ∈ [400; 404] →
  (apply_trigger now driveUpload t db).2 = db.
Proof.
  intros Hrefused.
  destruct (apply_trigger_answer now driveUpload t db) as [Hsame | Hok];
    [exact Hsame|].
  rewrite Hok in Hrefused.
  repeat (apply elem_of_cons in Hrefused as [Hrefused|Hrefused];
          [discriminate Hrefused|]).
  by apply elem_of_nil in Hrefused.
Qed.

Lemma refused_request_keeps_store_witness :
  Response.code
    (apply_trigger 1000 None (ClientFeedback
       (sample_feedback "approved" (JsBool true) JsUndefined))
       two_project_db).1 = 400 ∧
  (apply_trigger 1000 None (ClientFeedback
     (sample_feedback "approved" (JsBool true) JsUndefined))
     two_project_db).2 = two_project_db.
Proof.
  split; [vm_compute; reflexivity|].
  apply refused_request_keeps_store. decide_by_computation.
Defined.

(** X2. A request touches at most the project it addresses: the users
    collection is never changed, and every project other than the addressed
    one is stored exactly as before. *)
Theorem request_touches_one_project now driveUpload t db :
  users (apply_trigger now driveUpload t db).2 = users db ∧
  ∀ id',
    (∀ p, trigger_project t db ≠ Some (id', p)) →
    projects (apply_trigger now driveUpload t db).2 !! id'
    = projects db !! id'.
Proof.
  destruct (apply_trigger_step now db driveUpload t)
    as [[_ ->] | (_ & id0 & p0 & p0' & Ht & -> & Hev)]; [done|].
  split; [done|]. intros id' Hother. cbn [projects].
  apply lookup_insert_ne. intros ->. by apply (Hother p0).
Qed.

Lemma request_touches_one_project_witness :
  projects
    (apply_trigger 1000 None (AdminReview (sample_review "approve"))
       (mkDb (<["p9" := unassigned_project]>
                (projects (sample_db completed []))) sample_users)).2
    !! "p9" = Some unassigned_project.
Proof.
  destruct (request_touches_one_project 1000 None
              (AdminReview (sample_review "approve"))
              (mkDb (<["p9" := unassigned_project]>
                       (projects (sample_db completed []))) sample_users))
    as [_ Hframe].
  rewrite Hframe; [vm_compute; reflexivity|].
  intros p. vm_compute. discriminate.
Defined.

(** X3. The ledgers are append-only and no project disappears: after any
    request every stored project is still stored under the same id and
    public id, and its timeline, edited versions, admin comments and client
    feedback each extend what was there before. *)
Theorem ledgers_are_append_only now driveUpload t db id p :
  projects db !! id = Some p →
  ∃ p',
    projects (apply_trigger now driveUpload t db).2 !! id = Some p' ∧
    publicId p' = publicId p ∧
    timeline p `prefix_of` timeline p' ∧
    editedVersions p `prefix_of` editedVersions p' ∧
    adminComments p `prefix_of` adminComments p' ∧
    clientFeedback p `prefix_of` clientFeedback p'.
Proof.
  intros Hl.
  destruct (apply_trigger_forward now driveUpload t db id p Hl)
    as (p' & Hl' & Hev).
  exists p'. split; [exact Hl'|]. by destruct Hev.
Qed.

Lemma ledgers_are_append_only_witness :
  ∃ p',
    projects
      (apply_trigger 1000 (Some sample_drive_file) (UploadVersion sample_upload)
         (sample_db in_progress [sample_version 1])).2 !! "p1" = Some p' ∧
    [sample_version 1] `prefix_of` editedVersions p'.
Proof.
  destruct (ledgers_are_append_only 1000 (Some sample_drive_file)
              (UploadVersion sample_upload)
              (sample_db in_progress [sample_version 1]) "p1"
              (sample_project in_progress [sample_version 1]))
    as (p' & Hl & _ & _ & Hvs & _); [vm_compute; reflexivity|].
  by exists p'.
Defined.

(** X4. No request creates a project: whatever is stored after a request
    was stored under the same id before it. *)
Theorem no_request_creates_a_project now driveUpload t db id :
  projects db !! id = None →
  projects (apply_trigger now driveUpload t db).2 !! id = None.
Proof.
  intros Hnone.
  destruct (projects (apply_trigger now driveUpload t db).2 !! id)
    as [p'|] eqn:Hl'; [|done].
  apply apply_trigger_backward in Hl' as (p & Hl & _).
  by rewrite Hnone in Hl.
Qed.

Lemma no_request_creates_a_project_witness :
  projects
    (apply_trigger 1000 None
       (AssignEditor
          (AssignReq.mk [] "a1" "p7" "e2" None None None JsUndefined None))
       (sample_db uploaded [])).2 !! "p7" = None.
Proof.
  apply no_request_creates_a_project. vm_compute. reflexivity.
Defined.

(** X5. Progress stays a percentage: if every stored project has a
    progress between 0 and 100, so has every project after any request,
    whatever progress value the request carries. *)
Theorem progress_stays_in_range now driveUpload t db :
  (∀ id p, projects db !! id = Some p → 0 ≤ progress p ≤ 100) →
  ∀ id p',
    projects (apply_trigger now driveUpload t db).2 !! id = Some p' →
    0 ≤ progress p' ≤ 100.
Proof.
  intros Hrange id p' Hl'.
  apply apply_trigger_backward in Hl' as (p & Hl & Hev).
  apply (ev_progress _ _ Hev). by apply (Hrange id).
Qed.

Lemma progress_stays_in_range_witness :
  ∃ p',
    projects
      (apply_trigger 1000 None
         (EditorStatusUpdate (sample_status_update "in_progress"))
         (sample_db assigned [])).2 !! "p1" = Some p' ∧
    0 ≤ progress p' ≤ 100.
Proof.
  assert (∀ id p, projects (sample_db assigned []) !! id = Some p →
                   0 ≤ progress p ≤ 100) as Hrange.
  { intros id p Hl. apply sample_db_lookup in Hl as [_ ->]. cbn. lia. }
  eexists. split; [vm_compute; reflexivity|].
  apply (progress_stays_in_range 1000 None
           (EditorStatusUpdate (sample_status_update "in_progress"))
           (sample_db assigned []) Hrange "p1").
  vm_compute. reflexivity.
Defined.

(** X6. No handler ever moves a project into [under_review] or back to
    [uploaded]: a project found in one of these two states after a request
    was already in that state before it. *)
Theorem under_review_is_never_entered now driveUpload t db id p p' :
  projects db !! id = Some p →
  projects (apply_trigger now driveUpload t db).2 !! id = Some p' →
  status p' ∈ [uploaded; under_review] →
  status p' = status p.
Proof.
  intros Hl Hl' Hdead.
  apply apply_trigger_backward in Hl' as (q & Hq & Hev).
  rewrite Hl in Hq. injection Hq as <-.
  destruct (ev_status _ _ Hev) as [Hsame | Hreach]; [exact Hsame|].
  exfalso.
  repeat (apply elem_of_cons in Hdead as [Hd | Hdead];
          [rewrite Hd in Hreach; apply (bool_decide_eq_true_2 _) in Hreach;
           vm_compute in Hreach; discriminate Hreach|]).
  by apply elem_of_nil in Hdead.
Qed.

Lemma under_review_is_never_entered_witness :
  ∃ p',
    projects
      (apply_trigger 1000 None (AdminReview (sample_review "reassign"))
         (sample_db under_review [])).2 !! "p1" = Some p' ∧
    status p' = under_review.
Proof.
  eexists. split; [vm_compute; reflexivity|].
  eapply (under_review_is_never_entered 1000 None
            (AdminReview (sample_review "reassign"))
            (sample_db under_review []) "p1"
            (sample_project under_review []));
    [vm_compute; reflexivity | vm_compute; reflexivity
    | decide_by_computation].
Defined.

Lemma field_preserved_by_save {A} (f : Project → A)
    (ps : gmap ObjectId Project) id p p' id' :
  ps !! id = Some p →
  f p' = f p →
  f <$> (save id p' ps !! id') = f <$> (ps !! id').
Proof.
  intros Hl Hf. destruct (decide (id = id')) as [<-|Hne].
  - rewrite lookup_save_eq, Hl. cbn. by rewrite Hf.
  - by rewrite lookup_save_ne.
Qed.

(** Closes a goal about a field that a handler left alone, after it wrote
    the document found under [Hl] back once or twice. *)
Ltac field_through_saves Hl :=
  run_handler;
  first
    [ eapply field_preserved_by_save; [exact Hl | reflexivity]
    | etrans;
      [ eapply field_preserved_by_save; [apply lookup_save_eq | reflexivity]
      | eapply field_preserved_by_save; [exact Hl | reflexivity] ] ].

Lemma updateProjectStatus_keeps_deadline now req db id' :
  deadline_fields <$> (projects (updateProjectStatus now req db).2 !! id')
  = deadline_fields <$> (projects db !! id').
Proof.
  unfold updateProjectStatus.
  destruct (has_errors _); [done|].
  destruct (findAssigned _ _ _) as [p|] eqn:Hfind; [|done].
  apply findAssigned_Some in Hfind as [Hl _].
  destruct (parse_valid_status _) as [st|]; [|done].
  destruct (StatusReq.progress req); field_through_saves Hl.
Qed.

Lemma uploadEditedVersion_keeps_deadline now driveUpload req db id' :
  deadline_fields <$>
    (projects (uploadEditedVersion now driveUpload req db).2 !! id')
  = deadline_fields <$> (projects db !! id').
Proof.
  unfold uploadEditedVersion.
  destruct (UploadReq.file req); [|done].
  destruct (findAssigned _ _ _) as [p|] eqn:Hfind; [|done].
  apply findAssigned_Some in Hfind as [Hl _].
  destruct driveUpload; [|done]. field_through_saves Hl.
Qed.

Lemma reviewProject_keeps_deadline now req db id' :
  deadline_fields <$> (projects (reviewProject now req db).2 !! id')
  = deadline_fields <$> (projects db !! id').
Proof.
  unfold reviewProject.
  destruct (has_errors _); [done|].
  destruct (projects db !! ReviewReq.projectId req) as [p|] eqn:Hl; [|done].
  destruct (negb _); [done|].
  repeat case_bool_decide; field_through_saves Hl.
Qed.

Lemma submitFeedback_keeps_deadline now req db id' :
  deadline_fields <$> (projects (submitFeedback now req db).2 !! id')
  = deadline_fields <$> (projects db !! id').
Proof.
  unfold submitFeedback.
  destruct (has_errors _); [done|].
  destruct (findByPublicId _ _) as [[id p]|] eqn:Hfind; [|done].
  apply findByPublicId_Some in Hfind as [Hl _].
  destruct (negb _); [done|].
  destruct (bool_decide (FeedbackReq.status req = "approved")),
    (truthy (FeedbackReq.satisfied req)),
    (bool_decide (FeedbackReq.status req = "revision_requested")),
    (truthy (FeedbackReq.reEditRequested req));
    cbn [andb orb negb]; field_through_saves Hl.
Qed.

(** X7. The deadline fields are fixed at assignment time: a status update,
    an upload, a review or a feedback leaves [assignedDate],
    [editorDeadlineHours] and [editorDeadline] of every stored project as
    they were.  So where [editorDeadline] equals [assignedDate] plus
    [editorDeadlineHours] hours in every stored project (or neither date
    is set), it still does after such a request. *)
Theorem deadline_fields_stay_consistent now driveUpload t db :
  (∀ req, t ≠ AssignEditor req) →
  (∀ id,
     deadline_fields <$> projects (apply_trigger now driveUpload t db).2 !! id
     = deadline_fields <$> projects db !! id) ∧
  ((∀ id p, projects db !! id = Some p → deadline_consistent p) →
   ∀ id p',
     projects (apply_trigger now driveUpload t db).2 !! id = Some p' →
     deadline_consistent p').
Proof.
  intros Hother.
  assert (∀ id,
            deadline_fields <$>
              projects (apply_trigger now driveUpload t db).2 !! id
            = deadline_fields <$> projects db !! id) as Hkept.
  { intros id. destruct t as [req|req|req|req|req]; cbn [apply_trigger].
    - by destruct (Hother req).
    - apply updateProjectStatus_keeps_deadline.
    - apply uploadEditedVersion_keeps_deadline.
    - apply reviewProject_keeps_deadline.
    - apply submitFeedback_keeps_deadline. }
  split; [exact Hkept|].
  intros Hcons id p' Hl'. specialize (Hkept id). rewrite Hl' in Hkept.
  destruct (projects db !! id) as [p|] eqn:Hl; [|discriminate Hkept].
  specialize (Hcons id p Hl). cbn in Hkept.
  unfold deadline_fields in Hkept. injection Hkept as Hdate Hhours Hdeadline.
  unfold deadline_consistent in *.
  by rewrite Hdate, Hhours, Hdeadline.
Qed.

Lemma deadline_fields_stay_consistent_witness :
  deadline_fields <$>
    projects
      (apply_trigger 1000 (Some sample_drive_file)
         (UploadVersion sample_upload) two_project_db).2 !! "p1"
  = Some (Some 0, 24, Some 86400000) ∧
  status <$>
    projects
      (apply_trigger 1000 (Some sample_drive_file)
         (UploadVersion sample_upload) two_project_db).2 !! "p1"
  = Some completed.
Proof.
  split; [|vm_compute; reflexivity].
  destruct (deadline_fields_stay_consistent 1000 (Some sample_drive_file)
              (UploadVersion sample_upload) two_project_db) as [Hkept _];
    [discriminate|].
  rewrite Hkept. vm_compute. reflexivity.
Defined.

(** X8. Public ids stay unique: if no two stored projects share a
    [publicId], no request makes two of them share one. *)
Theorem publicIds_stay_unique now driveUpload t db :
  unique_publicIds (projects db) →
  unique_publicIds (projects (apply_trigger now driveUpload t db).2).
Proof.
  intros Huniq id1 id2 p1' p2' Hl1 Hl2 Hsame.
  apply apply_trigger_backward in Hl1 as (p1 & Hp1 & Hev1).
  apply apply_trigger_backward in Hl2 as (p2 & Hp2 & Hev2).
  apply (Huniq id1 id2 p1 p2 Hp1 Hp2).
  by rewrite <- (ev_publicId _ _ Hev1), <- (ev_publicId _ _ Hev2).
Qed.

Lemma two_project_db_lookup id p :
  projects two_project_db !! id = Some p →
  (id = "p1" ∧ p = sample_project in_progress []) ∨
  (id = "p9" ∧ p = unassigned_project).
Proof.
  unfold two_project_db. cbn [projects]. intros Hl.
  apply lookup_insert_Some in Hl as [[<- <-] | [_ Hl]]; [by left|].
  apply lookup_singleton_Some in Hl as [<- <-]. by right.
Qed.

Lemma publicIds_stay_unique_witness :
  publicId <$>
    projects
      (apply_trigger 1000 None
         (EditorStatusUpdate (sample_status_update "completed"))
         two_project_db).2 !! "p1" = Some "CE1" ∧
  publicId <$>
    projects
      (apply_trigger 1000 None
         (EditorStatusUpdate (sample_status_update "completed"))
         two_project_db).2 !! "p9" = Some "CE2" ∧
  unique_publicIds
    (projects
       (apply_trigger 1000 None
          (EditorStatusUpdate (sample_status_update "completed"))
          two_project_db).2).
Proof.
  split; [vm_compute; reflexivity|]. split; [vm_compute; reflexivity|].
  apply publicIds_stay_unique.
  intros id1 id2 p1 p2 Hl1 Hl2 Hsame.
  apply two_project_db_lookup in Hl1 as [[-> ->] | [-> ->]];
    apply two_project_db_lookup in Hl2 as [[-> ->] | [-> ->]];
    first [reflexivity | vm_compute in Hsame; discriminate Hsame].
Defined.

(** ** Authority of the assigned editor *)

(** X9. An assignment hands the project over: afterwards a status update or
    an upload by any user other than the newly assigned editor is answered
    404 and writes nothing, while the new editor's status update to an
    allowed target and upload are accepted. *)
Theorem assignment_hands_over_authority now req db p editor :
  AssignReq.errors req = [] →
  projects db !! AssignReq.projectId req = Some p →
  users db !! cast_id (AssignReq.editorId req) = Some editor →
  User.role editor = "editor" →
  ∀ now' sreq ureq driveUpload,
    StatusReq.errors sreq = [] →
    StatusReq.id sreq = AssignReq.projectId req →
    UploadReq.id ureq = AssignReq.projectId req →
    is_Some (UploadReq.file ureq) →
    (StatusReq.user sreq ≠ cast_id (AssignReq.editorId req) →
       Response.code
         (updateProjectStatus now' sreq (assignProjectToEditor now req db).2).1
       = 404 ∧
       (updateProjectStatus now' sreq (assignProjectToEditor now req db).2).2
       = (assignProjectToEditor now req db).2) ∧
    (UploadReq.user ureq ≠ cast_id (AssignReq.editorId req) →
       Response.code
         (uploadEditedVersion now' driveUpload ureq
            (assignProjectToEditor now req db).2).1 = 404 ∧
       (uploadEditedVersion now' driveUpload ureq
          (assignProjectToEditor now req db).2).2
       = (assignProjectToEditor now req db).2) ∧
    (StatusReq.user sreq = cast_id (AssignReq.editorId req) →
     StatusReq.status sreq ∈
       ["assigned"; "in_progress"; "completed"; "revision_in_progress"] →
       Response.success
         (updateProjectStatus now' sreq (assignProjectToEditor now req db).2).1
       = true) ∧
    (UploadReq.user ureq = cast_id (AssignReq.editorId req) →
     is_Some driveUpload →
       Response.success
         (uploadEditedVersion now' driveUpload ureq
            (assignProjectToEditor now req db).2).1 = true).
Proof.
  intros Herr Hproject Heditor Hrole now' sreq ureq driveUpload
    Hserr Hsid Huid [file Hfile].
  destruct (assignProjectToEditor_success now req db p editor
              Herr Hproject Heditor Hrole)
    as (p' & e & Hl & _ & _ & Hassigned & _).
  set (db1 := (assignProjectToEditor now req db).2) in *.
  assert (∀ u, findAssigned (AssignReq.projectId req) u (projects db1)
               = if bool_decide (Some (cast_id (AssignReq.editorId req)) = Some u)
                 then Some p' else None) as Hfind.
  { intros u. unfold findAssigned. by rewrite Hl, Hassigned. }
  split; [|split; [|split]].
  - intros Hother. unfold updateProjectStatus.
    rewrite Hserr, has_errors_nil, Hsid, Hfind.
    rewrite bool_decide_eq_false_2 by congruence. done.
  - intros Hother. unfold uploadEditedVersion.
    rewrite Hfile, Huid, Hfind.
    rewrite bool_decide_eq_false_2 by congruence. done.
  - intros Hsame Htarget. unfold updateProjectStatus.
    rewrite Hserr, has_errors_nil, Hsid, Hfind, Hsame.
    rewrite bool_decide_eq_true_2 by done.
    destruct (parse_valid_status_Some _ Htarget) as (st & -> & _). done.
  - intros Hsame [f ->]. unfold uploadEditedVersion.
    rewrite Hfile, Huid, Hfind, Hsame.
    rewrite bool_decide_eq_true_2 by done. done.
Qed.

Lemma assignment_hands_over_authority_witness :
  Response.code
    (updateProjectStatus 2000 (sample_status_update "in_progress")
       (assignProjectToEditor 1000 (sample_assign "e2" (JsBool true))
          (sample_db assigned [])).2).1 = 404.
Proof.
  destruct (assignment_hands_over_authority 1000
              (sample_assign "e2" (JsBool true)) (sample_db assigned [])
              (sample_project assigned [])
              (User.mk "Bram" "bram@example.org" "editor")
              eq_refl)
    with (now' := 2000) (sreq := sample_status_update "in_progress")
         (ureq := sample_upload) (driveUpload := @None DriveFile.t)
    as (Hold & _);
    [vm_compute; reflexivity | vm_compute; reflexivity | reflexivity
    | reflexivity | reflexivity | reflexivity | by eexists |].
  apply Hold. discriminate.
Defined.

(** ** The client's view of the timeline *)

Lemma prefix_app_self (n rest : string) : String.prefix n (n +:+ rest) = true.
Proof.
  induction n as [|a n IH].
  - change ("" +:+ rest) with rest. by destruct rest.
  - change (String a n +:+ rest) with (String a (n +:+ rest)).
    cbn [String.prefix].
    destruct (Ascii.ascii_dec a a); [exact IH | done].
Qed.

Lemma str_includes_of_prefix hay needle :
  String.prefix needle hay = true → str_includes hay needle = true.
Proof. intros Hp. destruct hay; cbn [str_includes]; by rewrite Hp. Qed.

Lemma client_relevant_intro entry needle :
  In needle clientRelevantActions →
  String.prefix needle (TimelineEntry.action entry) = true →
  client_relevant entry = true.
Proof.
  intros Hin Hp. unfold client_relevant. apply existsb_exists.
  exists needle. split; [exact Hin|].
  by rewrite (str_includes_of_prefix _ _ Hp).
Qed.

Lemma clientTimeline_push us e p :
  clientTimeline us (push_timeline e p)
  = clientTimeline us p ++
    (if client_relevant e then [client_entry us e] else []).
Proof.
  unfold clientTimeline. cbn [timeline push_timeline].
  rewrite List.filter_app, fmap_app. cbn [List.filter].
  by destruct (client_relevant e).
Qed.

Lemma clientTimeline_ext us p q :
  timeline p = timeline q → clientTimeline us p = clientTimeline us q.
Proof. unfold clientTimeline. by intros ->. Qed.


Lemma client_relevant_hidden entry :
  TimelineEntry.action entry ∈
    [ "Project approved by admin - Ready for client download";
      "Admin requested revisions from editor";
      "Admin marked project for reassignment during review";
      "Client requested re-edit" ] →
  client_relevant entry = false.
Proof.
  intros Hin. unfold client_relevant.
  repeat (apply elem_of_cons in Hin as [-> | Hin];
          [vm_compute; reflexivity|]).
  by apply elem_of_nil in Hin.
Qed.

Lemma client_relevant_shown entry :
  TimelineEntry.action entry ∈
    [ "Client approved the project"; "Client requested revisions" ] →
  client_relevant entry = true.
Proof.
  intros Hin. unfold client_relevant.
  repeat (apply elem_of_cons in Hin as [-> | Hin];
          [vm_compute; reflexivity|]).
  by apply elem_of_nil in Hin.
Qed.

(** X10. Every accepted status update of the editor shows on the client's
    timeline: the client view of the project grows by exactly one entry,
    the one the update appended. *)
Theorem status_update_shows_on_client_timeline now req db p :
  StatusReq.errors req = [] →
  findAssigned (StatusReq.id req) (StatusReq.user req) (projects db)
    = Some p →
  StatusReq.status req ∈
    ["assigned"; "in_progress"; "completed"; "revision_in_progress"] →
  ∃ p' e,
    projects (updateProjectStatus now req db).2 !! StatusReq.id req
      = Some p' ∧
    timeline p' = timeline p ++ [e] ∧
    clientTimeline (users db) p'
    = clientTimeline (users db) p ++ [client_entry (users db) e].
Proof.
  intros Herr Hfind Htarget. unfold updateProjectStatus.
  rewrite Herr, has_errors_nil, Hfind.
  destruct (parse_valid_status_Some _ Htarget) as (st & -> & _).
  run_handler.
  destruct (StatusReq.progress req);
    (do 2 eexists; split; [reflexivity|]; split; [reflexivity|]);
    rewrite clientTimeline_push;
    (rewrite (client_relevant_intro _ "Status updated");
     [| cbn; tauto
      | exact (prefix_app_self "Status updated"
                 (" from " +:+ status_name (status p) +:+ " to " +:+
                  status_name st)) ]);
    f_equal.
Qed.

Lemma status_update_shows_on_client_timeline_witness :
  ∃ p' e,
    projects
      (updateProjectStatus 1000 (sample_status_update "in_progress")
         (sample_db assigned [])).2 !! "p1" = Some p' ∧
    timeline p' = [] ++ [e] ∧
    clientTimeline sample_users p' = [] ++ [client_entry sample_users e].
Proof.
  apply (status_update_shows_on_client_timeline 1000
           (sample_status_update "in_progress") (sample_db assigned [])
           (sample_project assigned []));
    [reflexivity | vm_compute; reflexivity | decide_by_computation].
Defined.

(** X11. Every successful upload of an edited version shows on the
    client's timeline in the same way: exactly one more visible entry. *)
Theorem upload_shows_on_client_timeline now f req db file p :
  UploadReq.file req = Some file →
  findAssigned (UploadReq.id req) (UploadReq.user req) (projects db)
    = Some p →
  ∃ p' e,
    projects (uploadEditedVersion now (Some f) req db).2 !! UploadReq.id req
      = Some p' ∧
    timeline p' = timeline p ++ [e] ∧
    clientTimeline (users db) p'
    = clientTimeline (users db) p ++ [client_entry (users db) e].
Proof.
  intros Hfile Hfind. unfold uploadEditedVersion. rewrite Hfile, Hfind.
  run_handler. do 2 eexists. split; [reflexivity|]. split; [reflexivity|].
  rewrite clientTimeline_push.
  rewrite (client_relevant_intro _ "Uploaded edited version");
    [| cbn; tauto
     | exact (prefix_app_self "Uploaded edited version" (" v" +:+ _)) ].
  f_equal.
Qed.

Lemma upload_shows_on_client_timeline_witness :
  ∃ p' e,
    projects
      (uploadEditedVersion 1000 (Some sample_drive_file) sample_upload
         (sample_db in_progress [])).2 !! "p1" = Some p' ∧
    timeline p' = [] ++ [e] ∧
    clientTimeline sample_users p' = [] ++ [client_entry sample_users e].
Proof.
  apply (upload_shows_on_client_timeline 1000 sample_drive_file
           sample_upload (sample_db in_progress [])
           (UploadedFile.mk "/tmp/u1" "cut.mp4")
           (sample_project in_progress []));
    [reflexivity | vm_compute; reflexivity].
Defined.

(** X12. Nothing an admin review records is shown to the client: whatever
    the action (approval included) and whether or not the review is
    accepted, the client view of the project's timeline is the same after
    the review as before. *)
Theorem admin_review_is_hidden_from_client now req db p p' :
  projects db !! ReviewReq.projectId req = Some p →
  projects (reviewProject now req db).2 !! ReviewReq.projectId req
    = Some p' →
  clientTimeline (users db) p' = clientTimeline (users db) p.
Proof.
  intros Hfind. unfold reviewProject.
  destruct (has_errors _); [cbn [snd]; rewrite Hfind; by intros [= <-]|].
  rewrite Hfind.
  destruct (negb _); [cbn [snd]; rewrite Hfind; by intros [= <-]|].
  repeat case_bool_decide; run_handler; intros [= <-];
    rewrite ?clientTimeline_push, ?client_relevant_hidden, ?app_nil_r;
    try (by apply clientTimeline_ext);
    cbn [TimelineEntry.action]; by repeat constructor.
Qed.

Lemma admin_review_is_hidden_from_client_witness :
  ∃ p',
    projects (reviewProject 1000 (sample_review "approve")
                (sample_db completed [])).2 !! "p1" = Some p' ∧
    status p' = approved ∧
    clientTimeline sample_users p' = [].
Proof.
  eexists. split; [vm_compute; reflexivity|]. split; [reflexivity|].
  apply (admin_review_is_hidden_from_client 1000 (sample_review "approve")
           (sample_db completed []) (sample_project completed []));
    vm_compute; reflexivity.
Defined.

(** X13. Of the client's own feedback, approvals and plain revision
    requests show on the client timeline (one more visible entry), but a
    re-edit request does not: when the feedback moves the project to
    [client_reedit] the client view stays as it was. *)
Theorem feedback_visibility_on_client_timeline now req db id p :
  FeedbackReq.errors req = [] →
  findByPublicId (FeedbackReq.publicId req) (projects db) = Some (id, p) →
  status p ∈ [approved; completed] →
  FeedbackReq.status req ∈ ["approved"; "revision_requested"] →
  ∃ p' e,
    projects (submitFeedback now req db).2 !! id = Some p' ∧
    timeline p' = timeline p ++ [e] ∧
    clientTimeline (users db) p'
    = clientTimeline (users db) p ++
      (if bool_decide (status p' = client_reedit) then []
       else [client_entry (users db) e]).
Proof.
  intros Herr Hfind Hst Hfb. unfold submitFeedback.
  rewrite Herr, has_errors_nil, Hfind, (bool_decide_eq_true_2 _ Hst).
  cbn [negb].
  repeat (apply elem_of_cons in Hfb as [-> | Hfb];
          [repeat (case_bool_decide; try done);
           destruct (truthy (FeedbackReq.satisfied req)),
             (truthy (FeedbackReq.reEditRequested req));
           cbn [andb orb negb]; run_handler;
           (do 2 eexists; split; [reflexivity|]; split; [reflexivity|]);
           rewrite clientTimeline_push;
           first
             [ rewrite client_relevant_hidden
                 by (cbn [TimelineEntry.action]; by repeat constructor)
             | rewrite client_relevant_shown
                 by (cbn [TimelineEntry.action]; by repeat constructor) ];
           cbn; f_equal|]).
  by apply elem_of_nil in Hfb.
Qed.

Lemma feedback_visibility_on_client_timeline_witness :
  ∃ p' e,
    projects
      (submitFeedback 1000
         (sample_feedback "revision_requested" JsUndefined (JsBool true))
         (sample_db approved [])).2 !! "p1" = Some p' ∧
    timeline p' = [] ++ [e] ∧
    clientTimeline sample_users p'
    = [] ++ (if bool_decide (status p' = client_reedit) then []
             else [client_entry sample_users e]).
Proof.
  apply (feedback_visibility_on_client_timeline 1000
           (sample_feedback "revision_requested" JsUndefined (JsBool true))
           (sample_db approved []) "p1" (sample_project approved []));
    [reflexivity | vm_compute; reflexivity | decide_by_computation
    | decide_by_computation].
Defined.


(** ** Remaining time of the editor *)

Lemma ceil_div_spec a b :
  0 < b → b * (ceil_div a b - 1) < a ≤ b * ceil_div a b.
Proof.
  intros Hb. unfold ceil_div.
  pose proof (Z.div_mod (- a) b ltac:(lia)) as Hdm.
  pose proof (Z.mod_pos_bound (- a) b Hb) as Hmod.
  nia.
Qed.

(** X15. For a project with a deadline, [getEditorDeadlineInfo] reports a
    number of hours left that is never negative; it reports the deadline as
    exceeded exactly from the deadline instant on, and then zero hours left;
    before the deadline the hours left are the time left rounded up to
    whole hours. *)
Theorem getEditorDeadlineInfo_bounds now doc d :
  editorDeadline doc = Some d →
  ∃ info,
    getEditorDeadlineInfo now doc = Some info ∧
    DeadlineInfo.deadline info = d ∧
    DeadlineInfo.totalHours info = editorDeadlineHours doc ∧
    0 ≤ DeadlineInfo.hoursLeft info ∧
    (DeadlineInfo.isExceeded info = true ↔ d ≤ now) ∧
    (DeadlineInfo.isExceeded info = true → DeadlineInfo.hoursLeft info = 0) ∧
    (DeadlineInfo.isExceeded info = false →
       3600000 * (DeadlineInfo.hoursLeft info - 1) < d - now
       ≤ 3600000 * DeadlineInfo.hoursLeft info).
Proof.
  intros Hd. unfold getEditorDeadlineInfo. rewrite Hd.
  eexists. split; [reflexivity|]. cbn.
  pose proof (ceil_div_spec (d - now) 3600000 ltac:(lia)) as Hceil.
  change (1000 * 60 * 60) with 3600000.
  split; [done|]. split; [done|]. split; [lia|].
  split; [rewrite Z.leb_le; lia|]. split.
  - intros Hle%Z.leb_le. lia.
  - intros Hgt%Z.leb_gt. lia.
Qed.

Lemma getEditorDeadlineInfo_bounds_witness :
  ∃ info,
    getEditorDeadlineInfo 1 (sample_project in_progress []) = Some info ∧
    DeadlineInfo.hoursLeft info = 24 ∧
    DeadlineInfo.isExceeded info = false.
Proof.
  destruct (getEditorDeadlineInfo_bounds 1 (sample_project in_progress [])
              86400000 eq_refl)
    as (info & Hinfo & _ & _ & _ & Hexceeded & _ & Hhours).
  exists info. split; [exact Hinfo|].
  assert (DeadlineInfo.isExceeded info = false) as Hnot.
  { destruct (DeadlineInfo.isExceeded info); [|done].
    destruct Hexceeded as [Hto _]. specialize (Hto eq_refl). lia. }
  split; [|exact Hnot]. specialize (Hhours Hnot). lia.
Defined.

(** X16. Right after an assignment with a budget of [h >= 1] hours the
    editor is told that [h] hours are left of [h]; once [h] hours have
    passed the deadline is reported as exceeded with zero hours left. *)
Theorem assignment_starts_the_clock now req db p editor :
  AssignReq.errors req = [] →
  projects db !! AssignReq.projectId req = Some p →
  users db !! cast_id (AssignReq.editorId req) = Some editor →
  User.role editor = "editor" →
  1 ≤ num_or (AssignReq.deadlineHours req) 24 →
  ∃ p',
    projects (assignProjectToEditor now req db).2 !! AssignReq.projectId req
      = Some p' ∧
    getEditorDeadlineInfo now p'
      = Some (DeadlineInfo.mk
                (now + num_or (AssignReq.deadlineHours req) 24 * 3600000)
                (num_or (AssignReq.deadlineHours req) 24) false
                (num_or (AssignReq.deadlineHours req) 24)) ∧
    ∀ later,
      now + num_or (AssignReq.deadlineHours req) 24 * 3600000 ≤ later →
      getEditorDeadlineInfo later p'
        = Some (DeadlineInfo.mk
                  (now + num_or (AssignReq.deadlineHours req) 24 * 3600000)
                  0 true
                  (num_or (AssignReq.deadlineHours req) 24)).
Proof.
  intros Herr Hproject Heditor Hrole Hbudget.
  destruct (assignProjectToEditor_success now req db p editor
              Herr Hproject Heditor Hrole)
    as (p' & e & Hl & _ & _ & _ & _ & Hhours & Hdeadline & _).
  exists p'. split; [exact Hl|].
  set (h := num_or (AssignReq.deadlineHours req) 24) in *.
  unfold getEditorDeadlineInfo. rewrite Hdeadline, Hhours.
  replace (now + h * 60 * 60 * 1000) with (now + h * 3600000) by lia.
  change (1000 * 60 * 60) with 3600000.
  split.
  - pose proof (ceil_div_spec (now + h * 3600000 - now) 3600000 ltac:(lia)).
    do 2 f_equal; [lia|]. apply Z.leb_gt. lia.
  - intros later Hlater.
    pose proof (ceil_div_spec (now + h * 3600000 - later) 3600000
                  ltac:(lia)).
    do 2 f_equal; [lia|]. apply Z.leb_le. lia.
Qed.

Lemma assignment_starts_the_clock_witness :
  ∃ p',
    projects
      (assignProjectToEditor 1000 (sample_assign "e2" (JsBool true))
         (sample_db completed [])).2 !! "p1" = Some p' ∧
    getEditorDeadlineInfo 1000 p'
      = Some (DeadlineInfo.mk (1000 + 48 * 3600000) 48 false 48).
Proof.
  destruct (assignment_starts_the_clock 1000
              (sample_assign "e2" (JsBool true)) (sample_db completed [])
              (sample_project completed [])
              (User.mk "Bram" "bram@example.org" "editor"))
    as (p' & Hl & Hinfo & _);
    [reflexivity | vm_compute; reflexivity | vm_compute; reflexivity
    | reflexivity | vm_compute; discriminate |].
  exists p'. split; [exact Hl | exact Hinfo].
Defined.

(** X17. The two deadline readings agree in one direction only: whenever
    [checkEditorDeadline] returns true, [getEditorDeadlineInfo] reports the
    deadline as exceeded with zero hours left; at the deadline instant
    itself the info already says exceeded while the check still returns
    false. *)
Theorem deadline_check_implies_info_exceeded now id doc
    (ps : gmap ObjectId Project) :
  ((checkEditorDeadline now id doc ps).1.1 = true →
     ∃ info,
       getEditorDeadlineInfo now doc = Some info ∧
       DeadlineInfo.isExceeded info = true ∧
       DeadlineInfo.hoursLeft info = 0) ∧
  (editorDeadline doc = Some now →
     (checkEditorDeadline now id doc ps).1.1 = false ∧
     DeadlineInfo.isExceeded <$> getEditorDeadlineInfo now doc = Some true).
Proof.
  split.
  - unfold checkEditorDeadline, getEditorDeadlineInfo.
    destruct (editorDeadline doc) as [d|]; [|done].
    destruct (assignedEditor doc); [|done].
    assert ((now >? d) = true → ∃ info,
              Some (DeadlineInfo.mk d
                      (Z.max 0 (ceil_div (d - now) (1000 * 60 * 60)))
                      (d - now <=? 0) (editorDeadlineHours doc)) = Some info ∧
              DeadlineInfo.isExceeded info = true ∧
              DeadlineInfo.hoursLeft info = 0) as Hpast.
    { intros Hgt%Z.gtb_gt. eexists. split; [reflexivity|]. cbn.
      pose proof (ceil_div_spec (d - now) 3600000 ltac:(lia)).
      change (1000 * 60 * 60) with 3600000.
      split; [apply Z.leb_le; lia | lia]. }
    destruct (now >? d); cbn [andb]; [|done].
    destruct (bool_decide _); cbn [andb]; [|done].
    destruct (negb _); cbn [fst]; intros _; by apply Hpast.
  - intros Hd. unfold checkEditorDeadline, getEditorDeadlineInfo.
    rewrite Hd. rewrite Z.sub_diag. cbn.
    assert ((now >? now) = false) as ->
      by (rewrite Z.gtb_ltb; apply Z.ltb_ge; lia).
    by destruct (assignedEditor doc).
Qed.

Lemma deadline_check_implies_info_exceeded_witness :
  ∃ info,
    getEditorDeadlineInfo 90000000 (sample_project in_progress [])
      = Some info ∧
    DeadlineInfo.isExceeded info = true ∧
    DeadlineInfo.hoursLeft info = 0.
Proof.
  destruct (deadline_check_implies_info_exceeded 90000000 "p1"
              (sample_project in_progress [])
              (projects (sample_db in_progress []))) as [Hcheck _].
  apply Hcheck. vm_compute. reflexivity.
Defined.

(** ** Downloads *)

Lemma findByPublicId_unique (ps : gmap ObjectId Project) id p :
  unique_publicIds ps →
  ps !! id = Some p →
  findByPublicId (publicId p) ps = Some (id, p).
Proof.
  intros Huniq Hl. unfold findByPublicId.
  destruct (head _) as [[id' q]|] eqn:Hhead.
  - apply head_Some_elem_of, list_elem_of_filter in Hhead as [Hpid Hin].
    apply elem_of_map_to_list in Hin. cbn in Hpid.
    assert (id' = id) as -> by (by apply (Huniq id' id q p)).
    rewrite Hl in Hin. by injection Hin as ->.
  - apply head_None in Hhead.
    assert ((id, p) ∈ filter (λ kp : ObjectId * Project,
                                publicId kp.2 = publicId p)
                         (map_to_list ps)) as Hin.
    { apply list_elem_of_filter. split; [done|].
      by apply elem_of_map_to_list. }
    rewrite Hhead in Hin. by apply elem_of_nil in Hin.
Qed.

Lemma getLatestVersion_snoc p vs v :
  editedVersions p = vs ++ [v] →
  Forall (λ w, Version.version w < Version.version v) vs →
  getLatestVersion p = Some v.
Proof.
  intros Hvs Hall. unfold getLatestVersion. rewrite Hvs.
  destruct vs as [|first rest]; [done|]. cbn [app].
  rewrite fold_left_app. cbn [fold_left]. f_equal.
  destruct (reduce_keep_greater rest first) as (Hin & _ & _).
  cbn in Hin. unfold keep_greater at 1.
  assert (Version.version (fold_left keep_greater rest first)
          < Version.version v) as Hlt.
  { rewrite Forall_forall in Hall. apply Hall.
    destruct Hin as [->|Hin]; [by left | by right]. }
  by rewrite (proj2 (Z.gtb_gt _ _)) by lia.
Qed.

Lemma getLatestVersion_ext p q :
  editedVersions p = editedVersions q →
  getLatestVersion p = getLatestVersion q.
Proof. unfold getLatestVersion. by intros ->. Qed.

(** The version a successful upload records. *)
Lemma uploadEditedVersion_records now f req db file p :
  UploadReq.file req = Some file →
  findAssigned (UploadReq.id req) (UploadReq.user req) (projects db)
    = Some p →
  ∃ p',
    projects (uploadEditedVersion now (Some f) req db).2 !! UploadReq.id req
      = Some p' ∧
    status p' = completed ∧
    editedVersions p' =
      editedVersions p ++
      [Version.mk (spec_next_version_number (editedVersions p))
         (UploadedFile.originalname file) (DriveFile.id f)
         (DriveFile.webViewLink f) now
         (text_or_lit (UploadReq.notes req) "") "pending"].
Proof.
  intros Hfile Hfind. unfold uploadEditedVersion. rewrite Hfile, Hfind.
  run_handler. eexists. split; [reflexivity|]. split; [reflexivity|].
  cbn. by rewrite next_version_number_spec.
Qed.

Lemma reviewProject_approve now req db p :
  ReviewReq.errors req = [] →
  projects db !! ReviewReq.projectId req = Some p →
  status p = completed →
  ReviewReq.action req = "approve" →
  ∃ p',
    projects (reviewProject now req db).2 !! ReviewReq.projectId req
      = Some p' ∧
    status p' = approved ∧
    editedVersions p' = editedVersions p.
Proof.
  intros Herr Hfind Hst Haction. unfold reviewProject.
  rewrite Herr, has_errors_nil, Hfind, (bool_decide_eq_true_2 _ Hst), Haction.
  cbn [negb]. rewrite bool_decide_eq_true_2 by done.
  run_handler. eexists. split; [reflexivity|]. done.
Qed.

(** X18. [getDownloadLink] hands out a link only for an approved project
    that has a version with a Drive URL, and the link is always the one of
    the version with the greatest number: its URL is the direct-download
    address of that version's Drive file. *)
Theorem getDownloadLink_serves_latest_approved pid db d :
  DownloadResponse.download (getDownloadLink pid db) = Some d →
  DownloadResponse.code (getDownloadLink pid db) = 200 ∧
  ∃ id p v,
    findByPublicId pid (projects db) = Some (id, p) ∧
    status p = approved ∧
    v ∈ editedVersions p ∧
    Forall (λ w, Version.version w ≤ Version.version v) (editedVersions p) ∧
    Version.driveFileUrl v ≠ "" ∧
    d = Download.mk
          ("https://drive.google.com/uc?export=download&id=" +:+
           Version.driveFileId v)
          (Version.filename v) (Version.version v) (Version.uploadDate v).
Proof.
  unfold getDownloadLink.
  destruct (findByPublicId pid (projects db)) as [[id p]|]; [|done].
  case_bool_decide as Hst; [|done]. cbn [negb].
  pose proof (getLatestVersion_spec p) as Hspec.
  destruct (getLatestVersion p) as [v|]; [|done].
  case_bool_decide as Hurl; [done|].
  cbn. intros [= <-]. split; [done|].
  exists id, p, v. by destruct Hspec.
Qed.

Lemma getDownloadLink_serves_latest_approved_witness :
  DownloadResponse.code
    (getDownloadLink "CE1"
       (sample_db approved [sample_version 2; sample_version 1])) = 200.
Proof.
  eapply getDownloadLink_serves_latest_approved.
  vm_compute. reflexivity.
Defined.

(** X19. Upload, approve, download: when the assigned editor uploads a
    file that Drive stores with a view link and the admin then approves the
    project, the client's download link is the direct-download address of
    that very file, announced with the file's name and the new version
    number. *)
Theorem uploaded_version_is_what_the_client_downloads
    now1 now2 f ureq rreq db file p :
  unique_publicIds (projects db) →
  UploadReq.file ureq = Some file →
  findAssigned (UploadReq.id ureq) (UploadReq.user ureq) (projects db)
    = Some p →
  DriveFile.webViewLink f ≠ "" →
  ReviewReq.errors rreq = [] →
  ReviewReq.projectId rreq = UploadReq.id ureq →
  ReviewReq.action rreq = "approve" →
  getDownloadLink (publicId p)
    (reviewProject now2 rreq
       (uploadEditedVersion now1 (Some f) ureq db).2).2
  = DownloadResponse.mk 200 true ""
      (Some (Download.mk
               ("https://drive.google.com/uc?export=download&id=" +:+
                DriveFile.id f)
               (UploadedFile.originalname file)
               (spec_next_version_number (editedVersions p))
               now1)).
Proof.
  intros Huniq Hfile Hfind Hlink Herr Hid Haction.
  destruct (uploadEditedVersion_records now1 f ureq db file p Hfile Hfind)
    as (p1 & Hl1 & Hst1 & Hvs1).
  set (db1 := (uploadEditedVersion now1 (Some f) ureq db).2) in *.
  rewrite <- Hid in Hl1.
  destruct (reviewProject_approve now2 rreq db1 p1 Herr Hl1 Hst1 Haction)
    as (p2 & Hl2 & Hst2 & Hvs2).
  set (db2 := (reviewProject now2 rreq db1).2) in *.
  apply findAssigned_Some in Hfind as [Hl0 _].
  assert (unique_publicIds (projects db2) ∧ publicId p2 = publicId p)
    as [Huniq2 Hpid].
  { split.
    - intros id1 id2 q1 q2 Hq1 Hq2 Hsame.
      apply (apply_trigger_backward now2 None (AdminReview rreq)) in Hq1
        as (r1 & Hr1 & Hev1).
      apply (apply_trigger_backward now2 None (AdminReview rreq)) in Hq2
        as (r2 & Hr2 & Hev2).
      apply (apply_trigger_backward now1 (Some f) (UploadVersion ureq)) in Hr1
        as (s1 & Hs1 & Hev1').
      apply (apply_trigger_backward now1 (Some f) (UploadVersion ureq)) in Hr2
        as (s2 & Hs2 & Hev2').
      apply (Huniq id1 id2 s1 s2 Hs1 Hs2).
      rewrite <- (ev_publicId _ _ Hev1'), <- (ev_publicId _ _ Hev2').
      by rewrite <- (ev_publicId _ _ Hev1), <- (ev_publicId _ _ Hev2).
    - apply (apply_trigger_backward now2 None (AdminReview rreq)) in Hl2
        as (r & Hr & Hev).
      apply (apply_trigger_backward now1 (Some f) (UploadVersion ureq)) in Hr
        as (s & Hs & Hev').
      rewrite Hid, Hl0 in Hs. injection Hs as <-.
      by rewrite (ev_publicId _ _ Hev), (ev_publicId _ _ Hev'). }
  unfold getDownloadLink. rewrite <- Hpid.
  rewrite (findByPublicId_unique _ _ _ Huniq2 Hl2).
  rewrite (bool_decide_eq_true_2 _ Hst2). cbn [negb].
  rewrite (getLatestVersion_snoc p2 (editedVersions p) _
             ltac:(by rewrite Hvs2, Hvs1)
             ltac:(apply next_version_number_fresh)).
  cbn. by rewrite bool_decide_eq_false_2.
Qed.

Lemma uploaded_version_is_what_the_client_downloads_witness :
  DownloadResponse.code
    (getDownloadLink "CE1"
       (reviewProject 2000 (sample_review "approve")
          (uploadEditedVersion 1000 (Some sample_drive_file) sample_upload
             (sample_db in_progress [sample_version 1])).2).2) = 200.
Proof.
  assert (unique_publicIds
            (projects (sample_db in_progress [sample_version 1]))) as Huniq.
  { intros id1 id2 p1 p2 Hl1 Hl2 _.
    apply sample_db_lookup in Hl1 as [-> _].
    apply sample_db_lookup in Hl2 as [-> _]. reflexivity. }
  change "CE1" with (publicId (sample_project in_progress [sample_version 1])).
  rewrite (uploaded_version_is_what_the_client_downloads 1000 2000
             sample_drive_file sample_upload (sample_review "approve")
             (sample_db in_progress [sample_version 1])
             (UploadedFile.mk "/tmp/u1" "cut.mp4")
             (sample_project in_progress [sample_version 1]) Huniq).
  all: try (vm_compute; reflexivity).
  discriminate.
Defined.

(** X20. [downloadLatestVersion] answers with a download only when the
    project is approved, completed or delivered and Drive returned the
    URLs of the file; what it announces is the version with the greatest
    number together with exactly the URLs Drive returned for that
    version's file. *)
Theorem downloadLatestVersion_serves_latest driveUrls pid db l :
  LatestDownloadResponse.download (downloadLatestVersion driveUrls pid db)
    = Some l →
  LatestDownloadResponse.code (downloadLatestVersion driveUrls pid db) = 200 ∧
  ∃ id p v u,
    findByPublicId pid (projects db) = Some (id, p) ∧
    status p ∈ [approved; completed; delivered] ∧
    v ∈ editedVersions p ∧
    Forall (λ w, Version.version w ≤ Version.version v) (editedVersions p) ∧
    driveUrls (Version.driveFileId v) = Some u ∧
    l = LatestDownload.mk (Version.filename v) (Version.version v)
          (DriveUrls.downloadUrl u) (DriveUrls.viewUrl u).
Proof.
  unfold downloadLatestVersion.
  destruct (findByPublicId pid (projects db)) as [[id p]|]; [|done].
  case_bool_decide as Hst; [|done]. cbn [negb].
  pose proof (getLatestVersion_spec p) as Hspec.
  destruct (getLatestVersion p) as [v|]; [|done].
  destruct (driveUrls (Version.driveFileId v)) as [u|] eqn:Hu; [|done].
  cbn. intros [= <-]. split; [done|].
  exists id, p, v, u. by destruct Hspec.
Qed.

Lemma downloadLatestVersion_serves_latest_witness :
  LatestDownloadResponse.code
    (downloadLatestVersion
       (λ _, Some (DriveUrls.mk "https://drive.example/dl"
                     "https://drive.example/view"))
       "CE1" (sample_db delivered [sample_version 1; sample_version 2]))
  = 200.
Proof.
  eapply downloadLatestVersion_serves_latest. vm_compute. reflexivity.
Defined.

(** X21. The two download actions agree: whenever [getDownloadLink] gives
    a link, [downloadLatestVersion] announces the same file name and
    version number if Drive answers, and fails with 500 if Drive does
    not; it never refuses such a project for its status or for lack of a
    version. *)
Theorem download_actions_agree driveUrls pid db d :
  DownloadResponse.download (getDownloadLink pid db) = Some d →
  match LatestDownloadResponse.download
          (downloadLatestVersion driveUrls pid db) with
  | Some l =>
      LatestDownload.filename l = Download.filename d ∧
      LatestDownload.version l = Download.version d
  | None =>
      LatestDownloadResponse.code (downloadLatestVersion driveUrls pid db)
      = 500
  end.
Proof.
  unfold getDownloadLink, downloadLatestVersion.
  destruct (findByPublicId pid (projects db)) as [[id p]|]; [|done].
  case_bool_decide as Hst; [|done]. cbn [negb].
  rewrite bool_decide_eq_true_2 by (rewrite Hst; by left). cbn [negb].
  destruct (getLatestVersion p) as [v|]; [|done].
  case_bool_decide as Hurl; [done|]. cbn. intros [= <-].
  by destruct (driveUrls (Version.driveFileId v)).
Qed.

Lemma download_actions_agree_witness :
  LatestDownloadResponse.code
    (downloadLatestVersion (λ _, None) "CE1"
       (sample_db approved [sample_version 1])) = 500.
Proof.
  pose proof (download_actions_agree (λ _, None) "CE1"
                (sample_db approved [sample_version 1])
                (Download.mk
                   "https://drive.google.com/uc?export=download&id=file"
                   "cut.mp4" 1 0)) as Hagree.
  change (LatestDownloadResponse.download
            (downloadLatestVersion (λ _, None) "CE1"
               (sample_db approved [sample_version 1])))
    with (@None LatestDownload.t) in Hagree.
  apply Hagree. vm_compute. reflexivity.
Defined.

(** ** Deleting an editor *)


Lemma deleteEditor_step_users gone db :
  Response.success (deleteEditor gone db).1 = true →
  projects (deleteEditor gone db).2 = projects db ∧
  users (deleteEditor gone db).2 = delete gone (users db).
Proof.
  unfold deleteEditor.
  destruct (users db !! gone); [|done].
  destruct (negb _); [done|]. by destruct (0 <? _)%nat.
Qed.



(** X23. A reassignment after the previous editor was deleted is recorded
    as a plain assignment: once [deleteEditor] has removed the editor a
    project refers to, assigning that project to another editor yields
    status [assigned] even when the request carries [isReassignment]. *)
Theorem reassignment_after_deletion_is_plain now gone req db p editor :
  Response.success (deleteEditor gone db).1 = true →
  projects db !! AssignReq.projectId req = Some p →
  assignedEditor p = Some gone →
  AssignReq.errors req = [] →
  users db !! cast_id (AssignReq.editorId req) = Some editor →
  User.role editor = "editor" →
  cast_id (AssignReq.editorId req) ≠ gone →
  ∃ p',
    projects (assignProjectToEditor now req (deleteEditor gone db).2).2
      !! AssignReq.projectId req = Some p' ∧
    status p' = assigned ∧
    assignedEditor p' = Some (cast_id (AssignReq.editorId req)).
Proof.
  intros Hdeleted Hproject Hgone Herr Heditor Hrole Hne.
  destruct (deleteEditor_step_users gone db Hdeleted) as [Hps Hus].
  destruct (assignProjectToEditor_success now req (deleteEditor gone db).2
              p editor Herr)
    as (p' & e & Hl & _ & Hst & Hassigned & _).
  - by rewrite Hps.
  - rewrite Hus. by rewrite lookup_delete_ne.
  - exact Hrole.
  - exists p'. split; [exact Hl|]. split; [|exact Hassigned].
    rewrite Hst, Hgone, Hus. unfold populate.
    rewrite lookup_delete_eq. unfold isActualReassignment.
    by rewrite andb_false_r.
Qed.

Lemma reassignment_after_deletion_is_plain_witness :
  ∃ p',
    projects
      (assignProjectToEditor 1000 (sample_assign "e2" (JsBool true))
         (deleteEditor "e1" (sample_db reassigned [])).2).2 !! "p1"
      = Some p' ∧
    status p' = assigned ∧
    assignedEditor p' = Some "e2".
Proof.
  apply (reassignment_after_deletion_is_plain 1000 "e1"
           (sample_assign "e2" (JsBool true)) (sample_db reassigned [])
           (sample_project reassigned [])
           (User.mk "Bram" "bram@example.org" "editor"));
    try (vm_compute; reflexivity).
  discriminate.
Defined.

(** ** Helpers *)

(** X24. Two statuses of the schema have no entry in the display tables:
    [reassigned] and [client_reedit] are the only statuses shown under their
    raw name, and the only ones given the fallback colour 'gray'. *)
Theorem display_tables_miss_two_statuses s :
  (getStatusDisplayText s = status_name s ↔ s ∈ [reassigned; client_reedit]) ∧
  (getStatusColor s = "gray" ↔ s ∈ [reassigned; client_reedit]).
Proof.
  split; (split; [intros Heq | intros Hin]).
  - destruct s; cbn in Heq; try discriminate Heq; by repeat constructor.
  - repeat (apply elem_of_cons in Hin as [-> | Hin]; [reflexivity|]).
    by apply elem_of_nil in Hin.
  - destruct s; cbn in Heq; try discriminate Heq; by repeat constructor.
  - repeat (apply elem_of_cons in Hin as [-> | Hin]; [reflexivity|]).
    by apply elem_of_nil in Hin.
Qed.

Lemma forallb_replace_disallowed l :
  forallb is_filename_char (replace_disallowed l) = true.
Proof.
  unfold replace_disallowed.
  induction l as [|c l IH]; [done|]. cbn [fmap list_fmap forallb].
  change (list_fmap _ _ ?f l) with (f <$> l). rewrite IH, andb_true_r.
  destruct (is_filename_char c) eqn:Hc; [exact Hc | reflexivity].
Qed.

Lemma replace_disallowed_id l :
  forallb is_filename_char l = true → replace_disallowed l = l.
Proof.
  unfold replace_disallowed.
  induction l as [|c l IH]; [done|]. cbn [fmap list_fmap forallb].
  change (list_fmap _ _ ?f l) with (f <$> l).
  intros [Hc Hl]%andb_true_iff. rewrite Hc. f_equal. by apply IH.
Qed.

Lemma collapse_underscores_cons c d rest :
  collapse_underscores (c :: d :: rest)
  = if is_underscore c && is_underscore d
    then collapse_underscores (d :: rest)
    else c :: collapse_underscores (d :: rest).
Proof. reflexivity. Qed.

Lemma no_adjacent_underscores_cons c d rest :
  no_adjacent_underscores (c :: d :: rest)
  = negb (is_underscore c && is_underscore d)
    && no_adjacent_underscores (d :: rest).
Proof. reflexivity. Qed.

Lemma ends_with_underscore_cons c d rest :
  ends_with_underscore (c :: d :: rest) = ends_with_underscore (d :: rest).
Proof. reflexivity. Qed.

Lemma drop_trailing_underscores_cons c rest :
  drop_trailing_underscores (c :: rest)
  = match drop_trailing_underscores rest with
    | [] => if is_underscore c then [] else [c]
    | kept => c :: kept
    end.
Proof. reflexivity. Qed.

Lemma collapse_underscores_start l :
  starts_with_underscore (collapse_underscores l) = starts_with_underscore l.
Proof.
  induction l as [|c l IH]; [done|]. destruct l as [|d rest]; [done|].
  rewrite collapse_underscores_cons.
  destruct (is_underscore c) eqn:Hc, (is_underscore d) eqn:Hd;
    cbn [andb starts_with_underscore]; try done.
  rewrite IH. cbn [starts_with_underscore]. by rewrite Hc, Hd.
Qed.

Lemma forallb_collapse_underscores P l :
  forallb P l = true → forallb P (collapse_underscores l) = true.
Proof.
  induction l as [|c l IH]; [done|]. destruct l as [|d rest]; [done|].
  intros Hall. rewrite collapse_underscores_cons.
  change (forallb P (c :: d :: rest))
    with (P c && forallb P (d :: rest)) in Hall.
  apply andb_true_iff in Hall as [Hc Hrest].
  destruct (is_underscore c && is_underscore d); [by apply IH|].
  change (forallb P (c :: ?l)) with (P c && forallb P l).
  by rewrite Hc, IH.
Qed.

Lemma no_adjacent_collapse l :
  no_adjacent_underscores (collapse_underscores l) = true.
Proof.
  induction l as [|c l IH]; [done|]. destruct l as [|d rest]; [done|].
  rewrite collapse_underscores_cons.
  destruct (is_underscore c && is_underscore d) eqn:Hcd; [exact IH|].
  pose proof (collapse_underscores_start (d :: rest)) as Hstart.
  destruct (collapse_underscores (d :: rest)) as [|k ks] eqn:Hk; [done|].
  cbn [starts_with_underscore] in Hstart.
  rewrite no_adjacent_underscores_cons. by rewrite Hstart, Hcd, IH.
Qed.

Lemma collapse_underscores_id l :
  no_adjacent_underscores l = true → collapse_underscores l = l.
Proof.
  induction l as [|c l IH]; [done|]. destruct l as [|d rest]; [done|].
  rewrite no_adjacent_underscores_cons, collapse_underscores_cons.
  intros [Hcd%negb_true_iff Hrest]%andb_true_iff.
  rewrite Hcd. f_equal. by apply IH.
Qed.

Lemma no_adjacent_tail c l :
  no_adjacent_underscores (c :: l) = true → no_adjacent_underscores l = true.
Proof.
  destruct l as [|d rest]; [done|]. rewrite no_adjacent_underscores_cons.
  by intros [_ ?]%andb_true_iff.
Qed.

Lemma drop_leading_spec l :
  starts_with_underscore (drop_leading_underscores l) = false ∧
  (∀ P, forallb P l = true →
        forallb P (drop_leading_underscores l) = true) ∧
  (no_adjacent_underscores l = true →
   no_adjacent_underscores (drop_leading_underscores l) = true) ∧
  (starts_with_underscore l = false → drop_leading_underscores l = l).
Proof.
  induction l as [|c l (IHs & IHf & IHn & _)]; [done|].
  cbn [drop_leading_underscores starts_with_underscore].
  destruct (is_underscore c) eqn:Hc.
  - split; [exact IHs|]. split; [|split; [|done]].
    + intros P [_ Hl]%andb_true_iff. by apply IHf.
    + intros Hn. by apply IHn, (no_adjacent_tail c).
  - cbn [starts_with_underscore]. done.
Qed.

Lemma drop_trailing_head l k ks :
  drop_trailing_underscores l = k :: ks → ∃ rest, l = k :: rest.
Proof.
  destruct l as [|c rest]; [done|]. rewrite drop_trailing_underscores_cons.
  destruct (drop_trailing_underscores rest).
  - destruct (is_underscore c); [done|]. intros [= <- _]. by eexists.
  - intros [= <- _]. by eexists.
Qed.

Lemma drop_trailing_spec l :
  ends_with_underscore (drop_trailing_underscores l) = false ∧
  (∀ P, forallb P l = true →
        forallb P (drop_trailing_underscores l) = true) ∧
  (no_adjacent_underscores l = true →
   no_adjacent_underscores (drop_trailing_underscores l) = true) ∧
  (starts_with_underscore l = false →
   starts_with_underscore (drop_trailing_underscores l) = false) ∧
  (ends_with_underscore l = false → drop_trailing_underscores l = l).
Proof.
  induction l as [|c l (IHe & IHf & IHn & _ & IHid)]; [done|].
  rewrite drop_trailing_underscores_cons.
  destruct (drop_trailing_underscores l) as [|k ks] eqn:Hdt.
  - split; [destruct (is_underscore c) eqn:Hc; cbn; by rewrite ?Hc|].
    split.
    { intros P [Hc _]%andb_true_iff.
      destruct (is_underscore c); cbn; by rewrite ?Hc. }
    split; [by destruct (is_underscore c)|].
    split.
    { cbn [starts_with_underscore]. intros Hc. rewrite Hc.
      cbn [starts_with_underscore]. exact Hc. }
    destruct l as [|d rest].
    + cbn [ends_with_underscore]. by intros ->.
    + rewrite ends_with_underscore_cons. intros Hend.
      specialize (IHid Hend). done.
  - split.
    { destruct (drop_trailing_head _ _ _ Hdt) as [rest ->].
      by rewrite ends_with_underscore_cons. }
    split.
    { intros P [Hc Hl]%andb_true_iff. cbn [forallb].
      rewrite Hc. by apply IHf. }
    split.
    { intros Hn. destruct (drop_trailing_head _ _ _ Hdt) as [rest ->].
      rewrite no_adjacent_underscores_cons in Hn |- *.
      apply andb_true_iff in Hn as [Hck Hrest].
      rewrite Hck. cbn [andb]. apply IHn. exact Hrest. }
    split; [done|].
    destruct l as [|d rest]; [done|]. rewrite ends_with_underscore_cons.
    intros Hend. by rewrite (IHid Hend).
Qed.

Lemma safe_filename_sanitized l :
  let r :=
    drop_trailing_underscores
      (drop_leading_underscores
         (collapse_underscores (replace_disallowed l))) in
  forallb is_filename_char r = true ∧
  no_adjacent_underscores r = true ∧
  starts_with_underscore r = false ∧
  ends_with_underscore r = false.
Proof.
  cbn zeta.
  set (a := replace_disallowed l).
  set (b := collapse_underscores a).
  set (c := drop_leading_underscores b).
  destruct (drop_leading_spec b) as (Hs & Hf & Hn & _).
  destruct (drop_trailing_spec c) as (He & Hf' & Hn' & Hs' & _).
  split; [|split; [|split]].
  - apply Hf', Hf, forallb_collapse_underscores, forallb_replace_disallowed.
  - apply Hn', Hn, no_adjacent_collapse.
  - by apply Hs'.
  - exact He.
Qed.

Lemma sanitizeFilename_safe_aux filename :
  safe_filename (sanitizeFilename filename) = true.
Proof.
  unfold safe_filename, sanitizeFilename.
  rewrite String.list_ascii_of_string_of_list_ascii.
  destruct (safe_filename_sanitized (String.list_ascii_of_string filename))
    as (Hf & Hn & Hs & He).
  cbn zeta in *. by rewrite Hf, Hn, Hs, He.
Qed.

Lemma is_underscore_spec c : is_underscore c = true ↔ c = underscore.
Proof.
  unfold is_underscore, underscore. rewrite Nat.eqb_eq. split.
  - intros Hc. by rewrite <- Hc, Ascii.ascii_nat_embedding.
  - by intros ->.
Qed.

Lemma starts_with_underscore_head l :
  starts_with_underscore l = false → head l ≠ Some underscore.
Proof.
  destruct l as [|c l]; [done|]. cbn. intros Hc [= ->].
  by rewrite (proj2 (is_underscore_spec underscore)) in Hc.
Qed.

Lemma ends_with_underscore_last l :
  ends_with_underscore l = false → last l ≠ Some underscore.
Proof.
  induction l as [|c l IH]; [done|]. destruct l as [|d rest].
  - cbn. intros Hc [= ->].
    by rewrite (proj2 (is_underscore_spec underscore)) in Hc.
  - rewrite ends_with_underscore_cons. intros Hend. by apply IH.
Qed.

Lemma no_adjacent_underscores_lookup l i :
  no_adjacent_underscores l = true →
  l !! i = Some underscore → l !! S i ≠ Some underscore.
Proof.
  revert i. induction l as [|c l IH]; [done|]. intros i Hn.
  destruct l as [|d rest]; [by destruct i|].
  rewrite no_adjacent_underscores_cons in Hn.
  apply andb_true_iff in Hn as [Hcd%negb_true_iff Hrest].
  destruct i as [|i].
  - cbn. intros [= ->] [= ->].
    by rewrite (proj2 (is_underscore_spec underscore)) in Hcd.
  - intros Hi. by apply (IH i).
Qed.

(** X25. Whatever the input, [sanitizeFilename] returns a safe name: only
    letters, digits, dots, hyphens and underscores, never two underscores in
    a row, and no underscore at either end. *)
Theorem sanitizeFilename_is_safe filename :
  Forall (λ c, is_filename_char c = true)
    (String.list_ascii_of_string (sanitizeFilename filename)) ∧
  head (String.list_ascii_of_string (sanitizeFilename filename))
    ≠ Some underscore ∧
  last (String.list_ascii_of_string (sanitizeFilename filename))
    ≠ Some underscore ∧
  (∀ i,
     String.list_ascii_of_string (sanitizeFilename filename) !! i
       = Some underscore →
     String.list_ascii_of_string (sanitizeFilename filename) !! S i
       ≠ Some underscore) ∧
  safe_filename (sanitizeFilename filename) = true.
Proof.
  unfold sanitizeFilename.
  rewrite String.list_ascii_of_string_of_list_ascii.
  destruct (safe_filename_sanitized (String.list_ascii_of_string filename))
    as (Hf & Hn & Hs & He).
  cbn zeta in *.
  split.
  { apply Forall_forall. intros c Hc%list_elem_of_In.
    by apply (proj1 (forallb_forall _ _) Hf). }
  split; [by apply starts_with_underscore_head|].
  split; [by apply ends_with_underscore_last|].
  split; [intros i; by apply no_adjacent_underscores_lookup|].
  apply sanitizeFilename_safe_aux.
Qed.

(** X26. [sanitizeFilename] leaves a name that is already safe exactly as
    it is, so sanitising twice gives the same name as sanitising once. *)
Theorem sanitizeFilename_fixes_safe_names filename :
  (safe_filename filename = true → sanitizeFilename filename = filename) ∧
  sanitizeFilename (sanitizeFilename filename) = sanitizeFilename filename.
Proof.
  assert (∀ name, safe_filename name = true → sanitizeFilename name = name)
    as Hfix.
  { intros name. unfold safe_filename, sanitizeFilename. cbn zeta.
    intros [[[Hf Hn]%andb_true_iff Hs%negb_true_iff]%andb_true_iff
              He%negb_true_iff]%andb_true_iff.
    rewrite (replace_disallowed_id _ Hf), (collapse_underscores_id _ Hn).
    destruct (drop_leading_spec (String.list_ascii_of_string name))
      as (_ & _ & _ & ->); [|exact Hs].
    destruct (drop_trailing_spec (String.list_ascii_of_string name))
      as (_ & _ & _ & _ & ->); [|exact He].
    apply String.string_of_list_ascii_of_string. }
  split; [apply Hfix|]. apply Hfix, sanitizeFilename_safe_aux.
Qed.

Lemma sanitizeFilename_fixes_safe_names_witness :
  sanitizeFilename "final-cut_v2.mp4" = "final-cut_v2.mp4" ∧
  sanitizeFilename "__my video (final).mp4_" = "my_video_final_.mp4".
Proof.
  split; [|vm_compute; reflexivity].
  destruct (sanitizeFilename_fixes_safe_names "final-cut_v2.mp4")
    as [Hfix _].
  apply Hfix. vm_compute. reflexivity.
Defined.

(** ** Further properties of the workflow handlers *)

(** X27. An accepted feedback is recorded as exactly one new feedback
    entry carrying the submitted status.  It refers to the version the
    client named; when the client names none it refers to the latest
    version of the project, a version that exists, and to version 1 when
    the project has no version at all. *)
Theorem feedback_refers_to_latest_version now req db id p :
  FeedbackReq.errors req = [] →
  findByPublicId (FeedbackReq.publicId req) (projects db) = Some (id, p) →
  status p ∈ [approved; completed] →
  FeedbackReq.status req ∈ ["approved"; "revision_requested"] →
  ∃ p' fb,
    projects (submitFeedback now req db).2 !! id = Some p' ∧
    clientFeedback p' = clientFeedback p ++ [fb] ∧
    Feedback.status fb = FeedbackReq.status req ∧
    Feedback.message fb = FeedbackReq.feedback req ∧
    (∀ n, FeedbackReq.version req = Some n → n ≠ 0 →
          Feedback.version fb = n) ∧
    (FeedbackReq.version req = None →
     Forall (λ v, 1 ≤ Version.version v) (editedVersions p) →
     editedVersions p ≠ [] →
       (∃ v, v ∈ editedVersions p ∧ Version.version v = Feedback.version fb) ∧
       Forall (λ w, Version.version w ≤ Feedback.version fb)
         (editedVersions p)) ∧
    (FeedbackReq.version req = None → editedVersions p = [] →
       Feedback.version fb = 1).
Proof.
  intros Herr Hfind Hst Hfb. unfold submitFeedback.
  rewrite Herr, has_errors_nil, Hfind, (bool_decide_eq_true_2 _ Hst).
  cbn [negb].
  pose proof (getLatestVersion_spec p) as Hspec.
  assert (∀ fb q,
            Feedback.version fb
            = num_or (FeedbackReq.version req)
                (num_or (Version.version <$> getLatestVersion p) 1) →
            Feedback.status fb = FeedbackReq.status req →
            Feedback.message fb = FeedbackReq.feedback req →
            clientFeedback q = clientFeedback p ++ [fb] →
            clientFeedback q = clientFeedback p ++ [fb] ∧
            Feedback.status fb = FeedbackReq.status req ∧
            Feedback.message fb = FeedbackReq.feedback req ∧
            (∀ n, FeedbackReq.version req = Some n → n ≠ 0 →
                  Feedback.version fb = n) ∧
            (FeedbackReq.version req = None →
             Forall (λ v, 1 ≤ Version.version v) (editedVersions p) →
             editedVersions p ≠ [] →
               (∃ v, v ∈ editedVersions p ∧
                     Version.version v = Feedback.version fb) ∧
               Forall (λ w, Version.version w ≤ Feedback.version fb)
                 (editedVersions p)) ∧
            (FeedbackReq.version req = None → editedVersions p = [] →
               Feedback.version fb = 1)) as Hrecord.
  { intros fb q Hv Hs Hm Hq. rewrite Hv.
    split; [exact Hq|]. split; [exact Hs|]. split; [exact Hm|].
    split; [|split].
    - intros n -> Hn. cbn. by rewrite (proj2 (Z.eqb_neq n 0)).
    - intros -> Hpos Hne. cbn [num_or].
      destruct (getLatestVersion p) as [v|]; [|done].
      destruct Hspec as [Hin Hmax]. cbn [fmap option_fmap option_map num_or].
      rewrite Forall_forall in Hpos. specialize (Hpos v Hin). cbn in Hpos.
      rewrite (proj2 (Z.eqb_neq (Version.version v) 0)) by lia.
      split; [by exists v | exact Hmax].
    - intros -> Hnil. unfold getLatestVersion. by rewrite Hnil. }
  assert (FeedbackReq.status req = "approved" ∨
          FeedbackReq.status req = "revision_requested") as [Hfb' | Hfb'].
  { apply elem_of_cons in Hfb as [Hfb | Hfb]; [by left|].
    apply elem_of_cons in Hfb as [Hfb | Hfb]; [by right|].
    by apply elem_of_nil in Hfb. }
  all: rewrite Hfb' in *; repeat (case_bool_decide; try done);
    destruct (truthy (FeedbackReq.satisfied req)),
      (truthy (FeedbackReq.reEditRequested req));
    cbn [andb orb negb]; run_handler;
    (do 2 eexists; split; [reflexivity|]);
    (eapply Hrecord; [| | | reflexivity]; reflexivity).
Qed.

Lemma feedback_refers_to_latest_version_witness :
  ∃ p' fb,
    projects
      (submitFeedback 1000
         (sample_feedback "approved" (JsBool true) JsUndefined)
         (sample_db approved [sample_version 1; sample_version 2])).2 !! "p1"
      = Some p' ∧
    clientFeedback p' = [] ++ [fb] ∧
    Feedback.version fb = 2.
Proof.
  destruct (feedback_refers_to_latest_version 1000
              (sample_feedback "approved" (JsBool true) JsUndefined)
              (sample_db approved [sample_version 1; sample_version 2])
              "p1"
              (sample_project approved [sample_version 1; sample_version 2]))
    as (p' & fb & Hl & Hfb & _ & _ & _ & Hlatest & _);
    [reflexivity | vm_compute; reflexivity | decide_by_computation
    | decide_by_computation |].
  exists p', fb. split; [exact Hl|]. split; [exact Hfb|].
  destruct Hlatest as [(v & Hin & Hv) Hmax];
    [reflexivity | by repeat constructor | discriminate |].
  rewrite Forall_forall in Hmax.
  assert (2 ≤ Feedback.version fb)
    by (apply (Hmax (sample_version 2)); by repeat constructor).
  rewrite <- Hv.
  repeat (apply elem_of_cons in Hin as [-> | Hin]; [cbn in *; lia|]).
  by apply elem_of_nil in Hin.
Defined.





(** X29. [checkEditorDeadline] is idempotent: a second call at the same
    instant returns the same answer and changes neither the document nor
    the store, so the latch is written at most once. *)
Theorem checkEditorDeadline_is_idempotent now id doc
    (ps : gmap ObjectId Project) :
  checkEditorDeadline now id
    (checkEditorDeadline now id doc ps).1.2
    (checkEditorDeadline now id doc ps).2
  = checkEditorDeadline now id doc ps.
Proof.
  unfold checkEditorDeadline.
  destruct (editorDeadline doc) as [d|] eqn:Hd;
    destruct (assignedEditor doc) as [e|] eqn:He;
    cbn [fst snd]; rewrite ?Hd, ?He; try done.
  destruct (now >? d) eqn:Hnow; cbn [andb].
  - destruct (bool_decide (status doc ∈ [assigned; reassigned; in_progress]))
      eqn:Hst; cbn [andb].
    + destruct (isEditorDeadlineExceeded doc) eqn:Hflag; cbn [negb fst snd].
      * by rewrite Hd, He, Hnow, Hst, Hflag.
      * cbn. by rewrite Hd, He, Hnow, Hst.
    + cbn [fst snd]. by rewrite Hd, He, Hnow, Hst.
  - cbn [fst snd]. by rewrite Hd, He, Hnow.
Qed.
